(** * GridFS bucket (package gridfs, file mongo/gridfs/bucket.go)

    A shallow embedding of the bucket orchestration code: index
    provisioning before the first write, upload from a source, download
    by id or by name and revision, and deletion.  The document store
    (package mongo), the option mergers (package options), the BSON
    values (packages bson and bsoncore) and the two stream types (files
    upload_stream.go and download_stream.go) are not part of bucket.go;
    they are modelled here from the specification and the definitions
    that do so say it in their comment.

    Go methods that mutate their receiver return the updated receiver;
    calls to the document store run in a state monad over [World], which
    carries the collections, a script of injected failures and the
    chronological trace of the calls that were made. *)

From Stdlib Require Import ZArith QArith Qround List Sorted Bool Lia.
From Stdlib.Strings Require Import Byte.
From stdpp Require Import gmap strings pretty.

Local Open Scope string_scope.
Local Open Scope list_scope.
Local Open Scope Z_scope.

(** ** Machine integers *)

Module Int32.
Definition min_int : Z := - 2 ^ 31.
Definition max_int : Z := 2 ^ 31 - 1.

Definition in_range (z : Z) : Prop := min_int <= z <= max_int.

(** Two's complement wrap-around of a mathematical integer. *)
Definition wrap (z : Z) : Z := (z + 2 ^ 31) mod 2 ^ 32 - 2 ^ 31.

Definition mul (a b : Z) : Z := wrap (a * b).
Definition sub (a b : Z) : Z := wrap (a - b).

(** [int64(x)] for an int32 [x]: sign extension keeps the value. *)
Definition to_int64 (a : Z) : Z := a.
End Int32.

(** ** Errors *)

(** Go [error] values; [nil] is [None] in [option error]. *)
Inductive error : Type :=
| ErrFileNotFound
| ErrMissingChunkSize
| ErrStreamClosed
| ErrCorruptFile
| ErrNoDocuments
| EOF
| ErrMarshal
| ErrDecode
| ErrKeyNotFound
| StoreError (code : Z)
| SourceError (code : Z)
| SinkError (code : Z)
| ErrWrap (msg : string) (inner : error).

#[global] Instance error_eq_dec : EqDecision error.
Proof. solve_decision. Defined.

(** [errors.Is]: the error itself or one it wraps equals the target. *)
Fixpoint errors_Is (err target : error) : bool :=
  if decide (err = target) then true
  else match err with
       | ErrWrap _ inner => errors_Is inner target
       | _ => false
       end.

Definition errors_Is_opt (err : option error) (target : error) : bool :=
  match err with
  | Some e => errors_Is e target
  | None => false
  end.

(** A Go result [(T, error)] in which exactly one side is meaningful. *)
Inductive result (A : Type) : Type :=
| Ok (a : A)
| Err (e : error).
Arguments Ok {A} a.
Arguments Err {A} e.

(** A Go call that can panic: it returns, or it panics and nothing is
    returned. *)
Inductive outcome (A : Type) : Type :=
| Returns (a : A)
| Panics.
Arguments Returns {A} a.
Arguments Panics {A}.

(** ** BSON values and documents *)

#[global] Instance byte_eq_dec : EqDecision byte := Byte.byte_eq_dec.

#[global] Instance Q_eq_dec : EqDecision Q.
Proof. solve_decision. Defined.

(** Modelled from the spec: the values of package bsoncore, which is not
    among the sources.  A value is one of the BSON kinds the bucket and
    its streams look at; every other kind (arrays, booleans, ...) is kept
    as its type tag and raw bytes.  A double is represented by the
    rational it denotes. *)
#[warnings="-register-all"]
Inductive Value : Type :=
| VDouble (q : Q)
| VString (s : string)
| VObjectID (oid : Z)
| VDateTime (ms : Z)
| VInt32 (i : Z)
| VInt64 (i : Z)
| VDecimal128 (hi lo : Z)
| VBinary (data : list byte)
| VDocument (elems : list (string * Value))
| VRaw (tag : Z) (data : list byte).

(** Equality of values, as [bytes.Equal] sees their encodings. *)
Fixpoint Value_eqb (a b : Value) {struct a} : bool :=
  match a, b with
  | VDouble q, VDouble q' => bool_decide (q = q')
  | VString s, VString s' => bool_decide (s = s')
  | VObjectID o, VObjectID o' => bool_decide (o = o')
  | VDateTime t, VDateTime t' => bool_decide (t = t')
  | VInt32 i, VInt32 i' => bool_decide (i = i')
  | VInt64 i, VInt64 i' => bool_decide (i = i')
  | VDecimal128 h l, VDecimal128 h' l' => bool_decide (h = h') && bool_decide (l = l')
  | VBinary d, VBinary d' => bool_decide (d = d')
  | VDocument e, VDocument e' =>
      (fix elems_eqb (l l' : list (string * Value)) {struct l} : bool :=
         match l, l' with
         | [], [] => true
         | (k, v) :: t, (k', v') :: t' =>
             bool_decide (k = k') && Value_eqb v v' && elems_eqb t t'
         | _, _ => false
         end) e e'
  | VRaw t d, VRaw t' d' => bool_decide (t = t') && bool_decide (d = d')
  | _, _ => false
  end.

Definition Element : Type := string * Value.

(** An ordered document ([bson.D], [bson.Raw], [bsoncore.Document]). *)
Definition Document : Type := list Element.

(** [Document.LookupErr]: the value of the first element with this key. *)
Fixpoint LookupErr (key : string) (d : Document) : result Value :=
  match d with
  | [] => Err ErrKeyNotFound
  | (k, v) :: d' => if decide (k = key) then Ok v else LookupErr key d'
  end.

Definition Lookup (key : string) (d : Document) : option Value :=
  match LookupErr key d with
  | Ok v => Some v
  | Err _ => None
  end.

(** Truncation toward zero, as Go converts a float64 to int64 (for a
    double whose integral part fits). *)
Definition Qtrunc (q : Q) : Z :=
  if (Qnum q <? 0)%Z then Qceiling q else Qfloor q.

(** Modelled from the spec: [bsoncore.Value.AsInt64OK].  Doubles, int32
    and int64 have an int64 reading; no other kind has one. *)
Definition AsInt64OK (v : Value) : Z * bool :=
  match v with
  | VDouble q => (Qtrunc q, true)
  | VInt32 i => (i, true)
  | VInt64 i => (i, true)
  | _ => (0, false)
  end.

(** Modelled from the spec: [bsoncore.Document.Elements].  The
    documents of the embedding are already parsed, so splitting one into
    its elements cannot fail. *)
Definition Elements (d : Document) : result (list Element) := Ok d.

(** [bytes.Equal] on two encoded documents: the BSON encoding of a
    parsed document is injective, so it is equality of the documents. *)
Definition bytes_Equal (a b : Document) : bool :=
  Value_eqb (VDocument a) (VDocument b).

(** Modelled from the spec: [bson.Marshal] of an ordered document, which
    cannot fail. *)
Definition bson_Marshal (d : Document) : result Document := Ok d.

(** ** The document store *)

Definition Time : Type := Z.

(** [time.Time{}], the zero instant. *)
Definition zeroTime : Time := 0.

Inductive ReadPref : Type :=
| Primary | PrimaryPreferred | Secondary | SecondaryPreferred | Nearest.

Definition WriteConcern : Type := string.
Definition ReadConcern : Type := string.

(** Modelled from the spec: a collection handle ([mongo.Collection]), a
    name in the database and the concerns and read preference its
    operations run with. *)
Record Collection : Type := mkCollection {
  coll_name : string;
  coll_wc : WriteConcern;
  coll_rc : ReadConcern;
  coll_rp : ReadPref
}.

(** [context.Context], as far as the bucket inspects it. *)
Record Context : Type := mkContext {
  ctx_deadline : option Time;
  ctx_is_timeout : bool
}.

Definition Background : Context := mkContext None false.

(** Modelled from the spec: an entry of [listIndexes].  [ix_key] is its
    "key" element, a document when present. *)
Record IndexSpec : Type := mkIndexSpec {
  ix_name : string;
  ix_key : option Document;
  ix_unique : bool
}.

(** Modelled from the spec: what the store holds for a collection, its
    documents in insertion order and its indexes. *)
Record CollData : Type := mkCollData {
  docs : list Document;
  indexes : list IndexSpec
}.

Definition emptyColl : CollData := mkCollData [] [].

(** The calls the bucket and its streams make, in the order made. *)
Inductive Event : Type :=
| EvDeleteOne (coll : string) (filter : Document)
| EvDeleteMany (coll : string) (filter : Document)
| EvFind (coll : string) (rp : ReadPref) (filter : Document)
         (skip : option Z) (sort : option Document)
| EvFindOne (coll : string) (rp : ReadPref) (filter : Document)
| EvInsertOne (coll : string) (doc : Document)
| EvListIndexes (coll : string)
| EvCreateIndex (coll : string) (keys : Document) (unique : bool)
| EvSourceRead
| EvSinkWrite (n : nat)
| EvUploadWrite (fileID : Value) (n : nat)
| EvUploadClose (fileID : Value)
| EvUploadAbort (fileID : Value)
| EvDownloadClose (fileID : Value).

(** The world the bucket runs in: the collections of the database by
    name, the failures the store will inject, the calls made so far, the
    clock and the next fresh object id. *)
Record World : Type := mkWorld {
  store : gmap string CollData;
  faults : list (option error);
  trace : list Event;
  now : Time;
  next_oid : Z
}.

Definition M (A : Type) : Type := World -> A * World.

Definition ret {A : Type} (a : A) : M A := fun w => (a, w).

Definition bind {A B : Type} (m : M A) (k : A -> M B) : M B :=
  fun w => let (a, w') := m w in k a w'.

Notation "'let*' x ':=' m 'in' k" := (bind m (fun x => k))
  (at level 10, x pattern, m at level 100, k at level 200).

(** World transformers: record a call, consume a script entry, replace
    the contents of a collection. *)
Definition log (ev : Event) (w : World) : World :=
  mkWorld (store w) (faults w) (trace w ++ [ev]) (now w) (next_oid w).

Definition next_fault (w : World) : option error :=
  match faults w with
  | [] => None
  | f :: _ => f
  end.

Definition pop_fault (w : World) : World :=
  mkWorld (store w) (tl (faults w)) (trace w) (now w) (next_oid w).

Definition getColl (nm : string) (w : World) : CollData :=
  default emptyColl (store w !! nm).

Definition put_coll (nm : string) (c : CollData) (w : World) : World :=
  mkWorld (<[nm := c]> (store w)) (faults w) (trace w) (now w) (next_oid w).

Definition emit (ev : Event) : M unit := fun w => (tt, log ev w).

(** Modelled from the spec: the store can fail any call (network,
    timeout, cancellation).  Each call consumes the next entry of the
    failure script; an exhausted script means no failure.  A failed call
    leaves the collections as they were. *)
Definition fault : M (option error) := fun w => (next_fault w, pop_fault w).

Definition readColl (nm : string) : M CollData := fun w => (getColl nm w, w).

Definition writeColl (nm : string) (c : CollData) : M unit :=
  fun w => (tt, put_coll nm c w).

(** [time.Now]. *)
Definition clock : M Time := fun w => (now w, w).

(** [primitive.NewObjectID]: an identifier not handed out before. *)
Definition NewObjectID : M Value :=
  fun w => (VObjectID (next_oid w),
            mkWorld (store w) (faults w) (trace w) (now w) (next_oid w + 1)).

(** Modelled from the spec: a filter is a conjunction of equalities. *)
Definition doc_matches (filter d : Document) : bool :=
  forallb (fun kv : Element =>
             match Lookup (fst kv) d with
             | Some v => Value_eqb (snd kv) v
             | None => false
             end)
          filter.

Fixpoint remove_first (filter : Document) (l : list Document) : list Document :=
  match l with
  | [] => []
  | d :: l' => if doc_matches filter d then l' else d :: remove_first filter l'
  end.

Record DeleteResult : Type := mkDeleteResult { DeletedCount : Z }.

(** Modelled from the spec: [deleteOne(filter) -> deletedCount]. *)
Definition Collection_DeleteOne (c : Collection) (ctx : Context)
    (filter : Document) : M (result DeleteResult) :=
  let* _ := emit (EvDeleteOne (coll_name c) filter) in
  let* f := fault in
  match f with
  | Some e => ret (Err e)
  | None =>
      let* cd := readColl (coll_name c) in
      if existsb (doc_matches filter) (docs cd) then
        let* _ := writeColl (coll_name c)
                    (mkCollData (remove_first filter (docs cd)) (indexes cd)) in
        ret (Ok (mkDeleteResult 1))
      else ret (Ok (mkDeleteResult 0))
  end.

(** Modelled from the spec: [deleteMany(filter) -> deletedCount]. *)
Definition Collection_DeleteMany (c : Collection) (ctx : Context)
    (filter : Document) : M (result DeleteResult) :=
  let* _ := emit (EvDeleteMany (coll_name c) filter) in
  let* f := fault in
  match f with
  | Some e => ret (Err e)
  | None =>
      let* cd := readColl (coll_name c) in
      let keep := List.filter (fun d => negb (doc_matches filter d)) (docs cd) in
      let* _ := writeColl (coll_name c) (mkCollData keep (indexes cd)) in
      ret (Ok (mkDeleteResult (Z.of_nat (length (docs cd)) - Z.of_nat (length keep))))
  end.

(** Modelled from the spec: [insertOne(doc)]. *)
Definition Collection_InsertOne (c : Collection) (ctx : Context)
    (d : Document) : M (option error) :=
  let* _ := emit (EvInsertOne (coll_name c) d) in
  let* f := fault in
  match f with
  | Some e => ret (Some e)
  | None =>
      let* cd := readColl (coll_name c) in
      let* _ := writeColl (coll_name c) (mkCollData (docs cd ++ [d]) (indexes cd)) in
      ret None
  end.

(** Modelled from the spec: a cursor ([mongo.Cursor]) over the results
    of a query, positioned before the first. *)
Record Cursor (A : Type) : Type := mkCursor {
  Current : option A;
  pending : list A;
  cursor_closed : bool
}.
Arguments mkCursor {A} _ _ _.
Arguments Current {A} _.
Arguments pending {A} _.
Arguments cursor_closed {A} _.

Definition newCursor {A : Type} (l : list A) : Cursor A := mkCursor None l false.

(** [cursor.Next]: move to the next result, if there is one. *)
Definition Cursor_Next {A : Type} (c : Cursor A) : Cursor A * bool :=
  match pending c with
  | [] => (mkCursor None [] (cursor_closed c), false)
  | x :: rest => (mkCursor (Some x) rest (cursor_closed c), true)
  end.

Definition Cursor_Close {A : Type} (c : Cursor A) : Cursor A :=
  mkCursor (Current c) [] true.

(** Modelled from the spec: the order of a sorted find.  Values compare
    first by kind (a missing field lowest, then numbers, strings, other
    kinds, object ids, dates) and inside a kind by magnitude; two
    strings, or two values of another kind, compare equal. *)
Definition sort_key (v : option Value) : Z * Q :=
  match v with
  | None => (0, 0%Q)
  | Some (VDouble q) => (1, q)
  | Some (VInt32 i) => (1, inject_Z i)
  | Some (VInt64 i) => (1, inject_Z i)
  | Some (VDecimal128 _ _) => (1, 0%Q)
  | Some (VString _) => (2, 0%Q)
  | Some (VBinary _) => (3, 0%Q)
  | Some (VDocument _) => (3, 0%Q)
  | Some (VRaw _ _) => (3, 0%Q)
  | Some (VObjectID oid) => (4, inject_Z oid)
  | Some (VDateTime ms) => (5, inject_Z ms)
  end.

Definition key_leb (a b : Z * Q) : bool :=
  (fst a <? fst b) || ((fst a =? fst b) && Qle_bool (snd a) (snd b)).

(** [doc_leb key dir d1 d2]: [d1] may come before [d2] when sorting on
    [key], ascending for [dir >= 0] and descending for [dir < 0]. *)
Definition doc_leb (key : string) (dir : Z) (d1 d2 : Document) : bool :=
  if dir <? 0
  then key_leb (sort_key (Lookup key d2)) (sort_key (Lookup key d1))
  else key_leb (sort_key (Lookup key d1)) (sort_key (Lookup key d2)).

Section Sorting.
Context {A : Type} (leb : A -> A -> bool).

Fixpoint insert_sorted (x : A) (l : list A) : list A :=
  match l with
  | [] => [x]
  | y :: l' => if leb x y then x :: y :: l' else y :: insert_sorted x l'
  end.

(** Stable insertion sort. *)
Definition sort_by (l : list A) : list A := fold_right insert_sorted [] l.
End Sorting.

(** Sorting on several keys: by the last key first, so that the first
    key decides and later keys break ties. *)
Definition sort_docs (spec : Document) (l : list Document) : list Document :=
  fold_right (fun kv acc => sort_by (doc_leb (fst kv) (fst (AsInt64OK (snd kv)))) acc)
             l spec.

(** Modelled from the spec: the find options the bucket sets. *)
Record FindOptions : Type := mkFindOptions {
  fo_Skip : option Z;
  fo_Sort : option Document
}.

(** [options.Find()] and its setters. *)
Definition options_Find : FindOptions := mkFindOptions None None.
Definition SetSkip (i : Z) (o : FindOptions) : FindOptions :=
  mkFindOptions (Some i) (fo_Sort o).
Definition SetSort (d : Document) (o : FindOptions) : FindOptions :=
  mkFindOptions (fo_Skip o) (Some d).

(** Modelled from the spec: [options.MergeFindOptions], a later option
    that sets a field wins. *)
Definition MergeFindOptions (opts : list FindOptions) : FindOptions :=
  fold_left (fun acc o =>
               mkFindOptions (match fo_Skip o with Some s => Some s | None => fo_Skip acc end)
                             (match fo_Sort o with Some s => Some s | None => fo_Sort acc end))
            opts options_Find.

(** Modelled from the spec: the documents a find yields, those
    matching the filter, sorted, after the skip. *)
Definition find_results (filter : Document) (fo : FindOptions)
    (l : list Document) : list Document :=
  let matching := List.filter (doc_matches filter) l in
  let sorted := match fo_Sort fo with
                | Some spec => sort_docs spec matching
                | None => matching
                end in
  match fo_Skip fo with
  | Some n => skipn (Z.to_nat n) sorted
  | None => sorted
  end.

(** Modelled from the spec: [find(filter, sort?, skip?) -> cursor].  The
    server rejects a negative skip. *)
Definition Collection_Find (c : Collection) (ctx : Context)
    (filter : Document) (opts : list FindOptions) : M (result (Cursor Document)) :=
  let fo := MergeFindOptions opts in
  let* _ := emit (EvFind (coll_name c) (coll_rp c) filter (fo_Skip fo) (fo_Sort fo)) in
  let* f := fault in
  match f with
  | Some e => ret (Err e)
  | None =>
      if match fo_Skip fo with Some n => n <? 0 | None => false end
      then ret (Err (StoreError 2))
      else
        let* cd := readColl (coll_name c) in
        ret (Ok (newCursor (find_results filter fo (docs cd))))
  end.

(** Modelled from the spec: the result of [findOne]. *)
Record SingleResult : Type := mkSingleResult {
  sr_err : option error;
  sr_raw : Document
}.

(** [SingleResult.Raw]. *)
Definition SingleResult_Raw (r : SingleResult) : result Document :=
  match sr_err r with
  | Some e => Err e
  | None => Ok (sr_raw r)
  end.

(** A projection keeps the listed fields. *)
Definition project (proj d : Document) : Document :=
  List.filter (fun kv : Element => existsb (fun p : Element => bool_decide (fst p = fst kv)) proj) d.

(** Modelled from the spec: [findOne], reporting the distinguished "no
    documents found" condition separately from other errors. *)
Definition Collection_FindOne (c : Collection) (ctx : Context)
    (filter proj : Document) : M SingleResult :=
  let* _ := emit (EvFindOne (coll_name c) (coll_rp c) filter) in
  let* f := fault in
  match f with
  | Some e => ret (mkSingleResult (Some e) [])
  | None =>
      let* cd := readColl (coll_name c) in
      match List.filter (doc_matches filter) (docs cd) with
      | [] => ret (mkSingleResult (Some ErrNoDocuments) [])
      | d :: _ => ret (mkSingleResult None (project proj d))
      end
  end.

Record CollectionOptions : Type := mkCollectionOptions {
  co_WriteConcern : option WriteConcern;
  co_ReadConcern : option ReadConcern;
  co_ReadPreference : option ReadPref
}.

Definition options_Collection : CollectionOptions := mkCollectionOptions None None None.
Definition co_SetWriteConcern (wc : WriteConcern) (o : CollectionOptions) :=
  mkCollectionOptions (Some wc) (co_ReadConcern o) (co_ReadPreference o).
Definition co_SetReadConcern (rc : ReadConcern) (o : CollectionOptions) :=
  mkCollectionOptions (co_WriteConcern o) (Some rc) (co_ReadPreference o).
Definition co_SetReadPreference (rp : ReadPref) (o : CollectionOptions) :=
  mkCollectionOptions (co_WriteConcern o) (co_ReadConcern o) (Some rp).

(** Modelled from the spec: [Collection.Clone], the same collection
    under overriding options; it cannot fail. *)
Definition Collection_Clone (c : Collection) (o : CollectionOptions) : result Collection :=
  Ok (mkCollection (coll_name c)
        (default (coll_wc c) (co_WriteConcern o))
        (default (coll_rc c) (co_ReadConcern o))
        (default (coll_rp c) (co_ReadPreference o))).

Record IndexView : Type := mkIndexView { iv_coll : Collection }.

(** [Collection.Indexes]. *)
Definition Collection_Indexes (c : Collection) : IndexView := mkIndexView c.

Record IndexModel : Type := mkIndexModel {
  Keys : Document;
  Unique : bool
}.

(** Modelled from the spec: [listIndexes() -> cursor of index specs]. *)
Definition IndexView_List (iv : IndexView) (ctx : Context) : M (result (Cursor IndexSpec)) :=
  let* _ := emit (EvListIndexes (coll_name (iv_coll iv))) in
  let* f := fault in
  match f with
  | Some e => ret (Err e)
  | None =>
      let* cd := readColl (coll_name (iv_coll iv)) in
      ret (Ok (newCursor (indexes cd)))
  end.

(** Modelled from the spec: the name the driver gives an index, made of
    its keys and directions. *)
Definition index_name (keys : Document) : string :=
  String.concat "_"
    (flat_map (fun kv : Element => [fst kv; pretty (fst (AsInt64OK (snd kv)))]) keys).

(** Modelled from the spec: [createIndex(keys, options)]. *)
Definition IndexView_CreateOne (iv : IndexView) (ctx : Context)
    (model : IndexModel) : M (result string) :=
  let* _ := emit (EvCreateIndex (coll_name (iv_coll iv)) (Keys model) (Unique model)) in
  let* f := fault in
  match f with
  | Some e => ret (Err e)
  | None =>
      let* cd := readColl (coll_name (iv_coll iv)) in
      let spec := mkIndexSpec (index_name (Keys model)) (Some (Keys model)) (Unique model) in
      let* _ := writeColl (coll_name (iv_coll iv))
                  (mkCollData (docs cd) (indexes cd ++ [spec])) in
      ret (Ok (ix_name spec))
  end.

(** ** Options *)

Record BucketOptions : Type := mkBucketOptions {
  bo_Name : option string;
  bo_ChunkSizeBytes : option Z;
  bo_WriteConcern : option WriteConcern;
  bo_ReadConcern : option ReadConcern;
  bo_ReadPreference : option ReadPref
}.

Definition later {A : Type} (new old : option A) : option A :=
  match new with
  | Some a => Some a
  | None => old
  end.

(** Modelled from the spec: [options.MergeBucketOptions].  A nil option
    is skipped and a later option that sets a field wins. *)
Definition MergeBucketOptions (opts : list (option BucketOptions)) : BucketOptions :=
  fold_left (fun acc o =>
               match o with
               | None => acc
               | Some o =>
                   mkBucketOptions (later (bo_Name o) (bo_Name acc))
                     (later (bo_ChunkSizeBytes o) (bo_ChunkSizeBytes acc))
                     (later (bo_WriteConcern o) (bo_WriteConcern acc))
                     (later (bo_ReadConcern o) (bo_ReadConcern acc))
                     (later (bo_ReadPreference o) (bo_ReadPreference acc))
               end)
            opts (mkBucketOptions None None None None None).

(** What a caller may pass as upload metadata: a value that marshals to
    a document, or one that does not. *)
Inductive GoValue : Type :=
| GoDocument (d : Document)
| GoUnmarshalable.

Record UploadOptions : Type := mkUploadOptions {
  uo_ChunkSizeBytes : option Z;
  uo_Metadata : option GoValue
}.

(** Modelled from the spec: [options.MergeUploadOptions]. *)
Definition MergeUploadOptions (opts : list (option UploadOptions)) : UploadOptions :=
  fold_left (fun acc o =>
               match o with
               | None => acc
               | Some o =>
                   mkUploadOptions (later (uo_ChunkSizeBytes o) (uo_ChunkSizeBytes acc))
                     (later (uo_Metadata o) (uo_Metadata acc))
               end)
            opts (mkUploadOptions None None).

(** Modelled from the spec: [bson.MarshalWithRegistry] and
    [bson.UnmarshalWithRegistry] into a [bson.D]. *)
Definition bson_MarshalWithRegistry (v : GoValue) : result Document :=
  match v with
  | GoDocument d => Ok d
  | GoUnmarshalable => Err ErrMarshal
  end.

Definition bson_UnmarshalWithRegistry (raw : Document) : result Document := Ok raw.

Record NameOptions : Type := mkNameOptions { Revision : option Z }.

(** Modelled from the spec: [options.MergeNameOptions]. *)
Definition MergeNameOptions (opts : list (option NameOptions)) : NameOptions :=
  fold_left (fun acc o =>
               match o with
               | None => acc
               | Some o => mkNameOptions (later (Revision o) (Revision acc))
               end)
            opts (mkNameOptions None).

(** ** Upload stream *)

(** Upload contains options to upload a file to a bucket. *)
Record Upload : Type := mkUpload {
  up_chunkSize : Z;
  up_metadata : option Document
}.

Inductive StreamState : Type := Open | Closed | Aborted.

#[global] Instance StreamState_eq_dec : EqDecision StreamState.
Proof. solve_decision. Defined.

(** Modelled from the spec: the upload stream of section 4.2 (file
    upload_stream.go is not among the sources). *)
Record UploadStream : Type := mkUploadStream {
  us_upload : Upload;
  FileID : Value;
  us_filename : string;
  us_chunksColl : Collection;
  us_filesColl : Collection;
  us_state : StreamState;
  us_buffer : list byte;
  us_n : Z;
  us_length : Z;
  us_writeDeadline : Time
}.

(** Modelled from the spec: a new stream is open, with an empty buffer. *)
Definition newUploadStream (upload : Upload) (fileID : Value) (filename : string)
    (chunks files : Collection) : UploadStream :=
  mkUploadStream upload fileID filename chunks files Open [] 0 0 zeroTime.

Definition us_set (us : UploadStream) (st : StreamState) (buf : list byte)
    (n len : Z) : UploadStream :=
  mkUploadStream (us_upload us) (FileID us) (us_filename us) (us_chunksColl us)
    (us_filesColl us) st buf n len (us_writeDeadline us).

(** Modelled from the spec: the deadline of an open stream can be set. *)
Definition UploadStream_SetWriteDeadline (us : UploadStream) (t : Time)
    : UploadStream * option error :=
  match us_state us with
  | Open => (mkUploadStream (us_upload us) (FileID us) (us_filename us)
               (us_chunksColl us) (us_filesColl us) Open (us_buffer us)
               (us_n us) (us_length us) t, None)
  | _ => (us, Some ErrStreamClosed)
  end.

(** Modelled from the spec: persist the buffer as chunk document
    [n = nextSequence], increment the sequence and clear the buffer. *)
Definition us_uploadChunk (us : UploadStream) : M (UploadStream * option error) :=
  let* oid := NewObjectID in
  let chunk : Document :=
    [("_id", oid); ("files_id", FileID us); ("n", VInt32 (us_n us));
     ("data", VBinary (us_buffer us))] in
  let* err := Collection_InsertOne (us_chunksColl us) Background chunk in
  match err with
  | Some e => ret (us, Some e)
  | None => ret (us_set us (us_state us) [] (us_n us + 1) (us_length us), None)
  end.

(** Modelled from the spec: append the bytes one by one; whenever the
    buffer reaches the chunk size it is persisted at once. *)
Fixpoint us_append (us : UploadStream) (p : list byte) : M (UploadStream * option error) :=
  match p with
  | [] => ret (us, None)
  | x :: p' =>
      let us1 := us_set us (us_state us) (us_buffer us ++ [x]) (us_n us) (us_length us + 1) in
      if Z.of_nat (length (us_buffer us1)) =? up_chunkSize (us_upload us1)
      then
        let* r := us_uploadChunk us1 in
        match snd r with
        | Some e => ret (fst r, Some e)
        | None => us_append (fst r) p'
        end
      else us_append us1 p'
  end.

(** Modelled from the spec: [Write(bytes)] (Open only). *)
Definition UploadStream_Write (us : UploadStream) (p : list byte)
    : M (UploadStream * Z * option error) :=
  let* _ := emit (EvUploadWrite (FileID us) (length p)) in
  match us_state us with
  | Open =>
      let* r := us_append us p in
      match snd r with
      | Some e => ret (fst r, 0, Some e)
      | None => ret (fst r, Z.of_nat (length p), None)
      end
  | _ => ret (us, 0, Some ErrStreamClosed)
  end.

(** Modelled from the spec: the metadata document of a finished upload
    (section 3). *)
Definition us_filesDoc (us : UploadStream) (uploadDate : Time) : Document :=
  ([("_id", FileID us); ("length", VInt64 (us_length us));
   ("chunkSize", VInt32 (up_chunkSize (us_upload us)));
   ("uploadDate", VDateTime uploadDate); ("filename", VString (us_filename us))]
  ++ match up_metadata (us_upload us) with
     | Some md => [("metadata", VDocument md)]
     | None => []
     end)%list.

(** Modelled from the spec: [Close()] (Open to Closed) flushes a
    remaining partial buffer as the final chunk, then inserts exactly one
    metadata document. *)
Definition UploadStream_Close (us : UploadStream) : M (UploadStream * option error) :=
  let* _ := emit (EvUploadClose (FileID us)) in
  match us_state us with
  | Open =>
      let* r := match us_buffer us with
                | [] => ret (us, None)
                | _ :: _ => us_uploadChunk us
                end in
      match snd r with
      | Some e => ret (fst r, Some e)
      | None =>
          let us1 := fst r in
          let* t := clock in
          let* err := Collection_InsertOne (us_filesColl us1) Background (us_filesDoc us1 t) in
          match err with
          | Some e => ret (us1, Some e)
          | None => ret (us_set us1 Closed (us_buffer us1) (us_n us1) (us_length us1), None)
          end
      end
  | _ => ret (us, Some ErrStreamClosed)
  end.

(** Modelled from the spec: [Abort()] (Open to Aborted, idempotent when
    already Aborted) deletes the chunks written so far and discards the
    buffer; a failed deletion is reported but the stream is Aborted
    regardless. *)
Definition UploadStream_Abort (us : UploadStream) : M (UploadStream * option error) :=
  let* _ := emit (EvUploadAbort (FileID us)) in
  match us_state us with
  | Open =>
      let* r := Collection_DeleteMany (us_chunksColl us) Background
                  [("files_id", FileID us)] in
      let us1 := us_set us Aborted [] (us_n us) (us_length us) in
      match r with
      | Err e => ret (us1, Some e)
      | Ok _ => ret (us1, None)
      end
  | Aborted => ret (us, None)
  | Closed => ret (us, Some ErrStreamClosed)
  end.

(** ** Files and the download stream *)

(** BSON null, the encoding of a nil identifier. *)
Definition VNull : Value := VRaw 10 [].

(** File represents a file stored in GridFS. *)
Record File : Type := mkFile {
  ID : Value;
  Length : Z;
  ChunkSize : Z;
  UploadDate : Time;
  Name : string;
  Metadata : option Value
}.

(** Modelled from the spec: decoding an integer field.  Absent fields
    keep the zero value, whole numbers are accepted and any other kind
    is a decoding error. *)
Definition decode_int (v : option Value) : result Z :=
  match v with
  | None => Ok 0
  | Some (VInt32 i) => Ok i
  | Some (VInt64 i) => Ok i
  | Some (VDouble q) => if (Qden q =? 1)%positive then Ok (Qnum q) else Err ErrDecode
  | Some _ => Err ErrDecode
  end.

Definition decode_time (v : option Value) : result Time :=
  match v with
  | None => Ok zeroTime
  | Some (VDateTime t) => Ok t
  | Some _ => Err ErrDecode
  end.

Definition decode_string (v : option Value) : result string :=
  match v with
  | None => Ok ""
  | Some (VString s) => Ok s
  | Some _ => Err ErrDecode
  end.

(** Modelled from the spec: decoding a metadata document (section 3)
    into a [File]. *)
Definition File_UnmarshalBSON (d : Document) : result File :=
  match decode_int (Lookup "length" d) with
  | Err e => Err e
  | Ok len =>
      match decode_int (Lookup "chunkSize" d) with
      | Err e => Err e
      | Ok cs =>
          match decode_time (Lookup "uploadDate" d) with
          | Err e => Err e
          | Ok t =>
              match decode_string (Lookup "filename" d) with
              | Err e => Err e
              | Ok nm =>
                  Ok (mkFile (default VNull (Lookup "_id" d)) len cs t nm
                        (Lookup "metadata" d))
              end
          end
      end
  end.

(** Modelled from the spec: [cursor.Decode(&foundFile)]. *)
Definition Cursor_Decode (c : Cursor Document) : result File :=
  match Current c with
  | Some d => File_UnmarshalBSON d
  | None => Err ErrDecode
  end.

(** Modelled from the spec: the download stream of section 4.3 (file
    download_stream.go is not among the sources).  [ds_cursor] is the
    backing chunk cursor, absent for a zero-length file. *)
Record DownloadStream : Type := mkDownloadStream {
  ds_cursor : option (Cursor Document);
  ds_chunkSize : Z;
  ds_file : File;
  ds_closed : bool;
  ds_expectedChunk : Z;
  ds_produced : Z;
  ds_readDeadline : Time
}.

(** Modelled from the spec: a new stream is open and has produced
    nothing. *)
Definition newDownloadStream (cursor : option (Cursor Document)) (chunkSize : Z)
    (file : File) : DownloadStream :=
  mkDownloadStream cursor chunkSize file false 0 0 zeroTime.

(** Modelled from the spec: the deadline of an open stream can be set. *)
Definition DownloadStream_SetReadDeadline (ds : DownloadStream) (t : Time)
    : DownloadStream * option error :=
  if ds_closed ds then (ds, Some ErrStreamClosed)
  else (mkDownloadStream (ds_cursor ds) (ds_chunkSize ds) (ds_file ds) false
          (ds_expectedChunk ds) (ds_produced ds) t, None).

(** Modelled from the spec: [Close()] releases the cursor; idempotent. *)
Definition DownloadStream_Close (ds : DownloadStream) : M (DownloadStream * option error) :=
  let* _ := emit (EvDownloadClose (ID (ds_file ds))) in
  ret (mkDownloadStream (option_map Cursor_Close (ds_cursor ds)) (ds_chunkSize ds)
         (ds_file ds) true (ds_expectedChunk ds) (ds_produced ds) (ds_readDeadline ds),
       None).

(** An [io.Writer]: the bytes accepted so far and, for each coming call
    of [Write], whether it fails. *)
Record Writer : Type := mkWriter {
  sink_data : list byte;
  sink_script : list (option error)
}.

Definition Writer_Write (dst : Writer) (p : list byte) : M (Writer * Z * option error) :=
  let* _ := emit (EvSinkWrite (length p)) in
  match sink_script dst with
  | Some e :: rest => ret (mkWriter (sink_data dst) rest, 0, Some e)
  | None :: rest => ret (mkWriter (sink_data dst ++ p) rest, Z.of_nat (length p), None)
  | [] => ret (mkWriter (sink_data dst ++ p) [], Z.of_nat (length p), None)
  end.

Definition ds_advance (ds : DownloadStream) (rest : list Document) (len : Z)
    : DownloadStream :=
  mkDownloadStream (option_map (fun c => mkCursor (Current c) rest (cursor_closed c))
                               (ds_cursor ds))
    (ds_chunkSize ds) (ds_file ds) (ds_closed ds)
    (ds_expectedChunk ds + 1) (ds_produced ds + len) (ds_readDeadline ds).

(** Modelled from the spec: reading the stream to its end into a sink.
    The cursor is advanced for every chunk.  When it has no next
    document the stream ends, if the bytes produced equal the declared
    length, and the file is corrupt otherwise.  Each chunk must carry the
    expected sequence number and the expected payload length: the chunk
    size, or what is left of the declared length for the last chunk.  A
    chunk that comes when the declared length has been produced is
    longer than the file allows (or empty, which no chunk is), and the
    file is corrupt.  One chunk is handed to the sink per call of
    [Write]. *)
Fixpoint ds_copy (chunks : list Document) (ds : DownloadStream) (dst : Writer)
    (copied : Z) {struct chunks} : M (DownloadStream * Writer * Z * option error) :=
  match chunks with
  | [] =>
      if ds_produced ds =? Length (ds_file ds) then ret (ds, dst, copied, None)
      else ret (ds, dst, copied, Some ErrCorruptFile)
  | c :: rest =>
      if ds_produced ds =? Length (ds_file ds)
      then ret (ds, dst, copied, Some ErrCorruptFile)
      else
        match Lookup "n" c, Lookup "data" c with
        | Some (VInt32 n), Some (VBinary data) =>
            let want := Z.min (ds_chunkSize ds) (Length (ds_file ds) - ds_produced ds) in
            if (n =? ds_expectedChunk ds) && (Z.of_nat (length data) =? want) then
              let* r := Writer_Write dst data in
              match r with
              | (dst', _, Some e) => ret (ds_advance ds rest want, dst', copied, Some e)
              | (dst', k, None) => ds_copy rest (ds_advance ds rest want) dst' (copied + k)
              end
            else ret (ds, dst, copied, Some ErrCorruptFile)
        | _, _ => ret (ds, dst, copied, Some ErrCorruptFile)
        end
  end.

(** [io.Copy(stream, ds)]: the stream is read to its end into the sink;
    a closed stream cannot be read. *)
Definition io_Copy (dst : Writer) (ds : DownloadStream)
    : M (DownloadStream * Writer * Z * option error) :=
  if ds_closed ds then ret (ds, dst, 0, Some ErrStreamClosed)
  else ds_copy (match ds_cursor ds with Some c => pending c | None => [] end) ds dst 0.

(** ** Sources *)

(** What one call of [Read] yields: the bytes and the error. *)
Record ReadResult : Type := mkReadResult {
  rr_data : list byte;
  rr_err : option error
}.

(** An [io.Reader]: the results of its coming calls of [Read]; once they
    are used up every call returns 0 bytes and [io.EOF]. *)
Definition Reader : Type := list ReadResult.

(** [source.Read(buf)]: at most [len(buf)] bytes are stored at the front
    of [buf]; the result is the reader left, the buffer, [n] and [err]. *)
Definition Reader_Read (source : Reader) (buf : list byte)
    : M (Reader * list byte * Z * option error) :=
  let* _ := emit EvSourceRead in
  match source with
  | [] => ret ([], buf, 0, Some EOF)
  | r :: rest =>
      let data := firstn (length buf) (rr_data r) in
      ret (rest, (data ++ skipn (length data) buf)%list, Z.of_nat (length data), rr_err r)
  end.

(** ** The bucket *)

Record Client : Type := mkClient { Timeout : option Z }.

Record Database : Type := mkDatabase {
  db_Client : Client;
  db_WriteConcern : WriteConcern;
  db_ReadConcern : ReadConcern;
  db_ReadPreference : ReadPref
}.

(** Modelled from the spec: [Database.Collection(name, opts)]. *)
Definition Database_Collection (d : Database) (nm : string) (o : CollectionOptions)
    : Collection :=
  mkCollection nm
    (default (db_WriteConcern d) (co_WriteConcern o))
    (default (db_ReadConcern d) (co_ReadConcern o))
    (default (db_ReadPreference d) (co_ReadPreference o)).

(** DefaultChunkSize is the default size of each file chunk. *)
Definition DefaultChunkSize : Z := 255 * 1024.

(** Bucket represents a GridFS bucket. *)
Record Bucket : Type := mkBucket {
  db : Database;
  chunksColl : Collection;
  filesColl : Collection;
  name : string;
  chunkSize : Z;
  wc : WriteConcern;
  rc : ReadConcern;
  rp : ReadPref;
  firstWriteDone : bool;
  readBuf : list byte;
  writeBuf : list byte;
  readDeadline : Time;
  writeDeadline : Time
}.

(** [make([]byte, n)]: a slice of [n] zero bytes; a negative length
    panics. *)
Definition make_bytes (n : Z) : outcome (list byte) :=
  if n <? 0 then Panics else Returns (repeat x00 (Z.to_nat n)).

(** NewBucket creates a GridFS bucket.  The chunk size of the options is
    taken as it is, so that allocating the buffers panics when it is
    negative. *)
Definition NewBucket (d : Database) (opts : list (option BucketOptions))
    : outcome (result Bucket) :=
  let bo := MergeBucketOptions opts in
  let b_name := default "fs" (bo_Name bo) in
  let b_chunkSize := default DefaultChunkSize (bo_ChunkSizeBytes bo) in
  let b_wc := default (db_WriteConcern d) (bo_WriteConcern bo) in
  let b_rc := default (db_ReadConcern d) (bo_ReadConcern bo) in
  let b_rp := default (db_ReadPreference d) (bo_ReadPreference bo) in
  let collOpts :=
    co_SetReadPreference b_rp
      (co_SetReadConcern b_rc (co_SetWriteConcern b_wc options_Collection)) in
  let b_chunksColl := Database_Collection d (b_name ++ ".chunks")%string collOpts in
  let b_filesColl := Database_Collection d (b_name ++ ".files")%string collOpts in
  match make_bytes b_chunkSize with
  | Panics => Panics
  | Returns b_readBuf =>
      match make_bytes b_chunkSize with
      | Panics => Panics
      | Returns b_writeBuf =>
          Returns (Ok (mkBucket d b_chunksColl b_filesColl
                         b_name b_chunkSize b_wc b_rc b_rp
                         false b_readBuf b_writeBuf
                         zeroTime zeroTime))
      end
  end.

Definition set_firstWriteDone (b : Bucket) (v : bool) : Bucket :=
  mkBucket (db b) (chunksColl b) (filesColl b) (name b) (chunkSize b) (wc b) (rc b)
    (rp b) v (readBuf b) (writeBuf b) (readDeadline b) (writeDeadline b).

Definition set_readBuf (b : Bucket) (buf : list byte) : Bucket :=
  mkBucket (db b) (chunksColl b) (filesColl b) (name b) (chunkSize b) (wc b) (rc b)
    (rp b) (firstWriteDone b) buf (writeBuf b) (readDeadline b) (writeDeadline b).

(** SetWriteDeadline sets the write deadline for this bucket. *)
Definition SetWriteDeadline (b : Bucket) (t : Time) : Bucket * option error :=
  (mkBucket (db b) (chunksColl b) (filesColl b) (name b) (chunkSize b) (wc b) (rc b)
     (rp b) (firstWriteDone b) (readBuf b) (writeBuf b) (readDeadline b) t, None).

(** SetReadDeadline sets the read deadline for this bucket. *)
Definition SetReadDeadline (b : Bucket) (t : Time) : Bucket * option error :=
  (mkBucket (db b) (chunksColl b) (filesColl b) (name b) (chunkSize b) (wc b) (rc b)
     (rp b) (firstWriteDone b) (readBuf b) (writeBuf b) t (writeDeadline b), None).

(** [deadlineContext]: the context and whether there is a cancel
    function to defer. *)
Definition deadlineContext (deadline : Time) : Context * bool :=
  if deadline =? zeroTime then (Background, false)
  else (mkContext (Some deadline) false, true).

(** One iteration body of the loop of [numericalIndexDocsEqual], run over
    the expected elements with the actual element of the same index; the
    two lists have the same length when the loop is entered. *)
Fixpoint numericalElemsEqual (expectedElems actualElems : list Element) : bool :=
  match expectedElems, actualElems with
  | [], _ => true
  | expectedElem :: es, actualElem :: acs =>
      if negb (String.eqb (fst actualElem) (fst expectedElem)) then false
      else
        let (actualInt, actualOK) := AsInt64OK (snd actualElem) in
        let (expectedInt, expectedOK) := AsInt64OK (snd expectedElem) in
        (* GridFS indexes always have numeric values *)
        if negb actualOK || negb expectedOK then false
        else if negb (actualInt =? expectedInt) then false
        else numericalElemsEqual es acs
  | _ :: _, [] => false
  end.

(** returns true if the 2 index documents are equal *)
Definition numericalIndexDocsEqual (expected actual : Document) : bool * option error :=
  if bytes_Equal expected actual then (true, None)
  else
    match Elements actual with
    | Err e => (false, Some e)
    | Ok actualElems =>
        match Elements expected with
        | Err e => (false, Some e)
        | Ok expectedElems =>
            if negb (length actualElems =? length expectedElems)%nat then (false, None)
            else (numericalElemsEqual expectedElems actualElems, None)
        end
    end.

(** The loop [for c.Next(ctx)] of [createNumericalIndexIfNotExists] over
    the index specifications the cursor still holds: an error, or
    whether an equal index was found. *)
Fixpoint scanIndexes (modelKeysDoc : Document) (specs : list IndexSpec) : result bool :=
  match specs with
  | [] => Ok false
  | cur :: rest =>
      match ix_key cur with
      | None => Err ErrKeyNotFound
      | Some keyElemDoc =>
          match numericalIndexDocsEqual modelKeysDoc keyElemDoc with
          | (_, Some e) => Err e
          | (true, None) => Ok true
          | (false, None) => scanIndexes modelKeysDoc rest
          end
      end
  end.

(** Create an index if it doesn't already exist *)
Definition createNumericalIndexIfNotExists (ctx : Context) (iv : IndexView)
    (model : IndexModel) : M (option error) :=
  let* r := IndexView_List iv ctx in
  match r with
  | Err e => ret (Some e)
  | Ok c =>
      match bson_Marshal (Keys model) with
      | Err e => ret (Some e)
      | Ok modelKeysDoc =>
          match scanIndexes modelKeysDoc (pending c) with
          | Err e => ret (Some e)
          | Ok true => ret None
          | Ok false =>
              let* r := IndexView_CreateOne iv ctx model in
              match r with
              | Err e => ret (Some e)
              | Ok _ => ret None
              end
          end
      end
  end.

Definition filesModel : IndexModel :=
  mkIndexModel [("filename", VInt32 1); ("uploadDate", VInt32 1)] false.

Definition chunksModel : IndexModel :=
  mkIndexModel [("files_id", VInt32 1); ("n", VInt32 1)] true.

(** create indexes on the files and chunks collection if needed *)
Definition createIndexes (b : Bucket) (ctx : Context) : M (option error) :=
  (* must use primary read pref mode to check if files coll empty *)
  match Collection_Clone (filesColl b)
          (co_SetReadPreference Primary options_Collection) with
  | Err e => ret (Some e)
  | Ok cloned =>
      let* docRes := Collection_FindOne cloned ctx [] [("_id", VInt32 1)] in
      let err := match SingleResult_Raw docRes with
                 | Ok _ => None
                 | Err e => Some e
                 end in
      if negb (errors_Is_opt err ErrNoDocuments) then
        (* nil, or error that occurred during the FindOne operation *)
        ret err
      else
        let filesIv := Collection_Indexes (filesColl b) in
        let chunksIv := Collection_Indexes (chunksColl b) in
        let* err := createNumericalIndexIfNotExists ctx filesIv filesModel in
        match err with
        | Some e => ret (Some e)
        | None => createNumericalIndexIfNotExists ctx chunksIv chunksModel
        end
  end.

Definition checkFirstWrite (b : Bucket) (ctx : Context) : M (Bucket * option error) :=
  if negb (firstWriteDone b) then
    (* before the first write operation, must determine if files collection
       is empty; if so, create indexes if they do not already exist *)
    let* err := createIndexes b ctx in
    match err with
    | Some e => ret (b, Some e)
    | None => ret (set_firstWriteDone b true, None)
    end
  else ret (b, None).

Definition parseUploadOptions (b : Bucket) (opts : list (option UploadOptions))
    : result Upload :=
  (* upload chunk size defaults to bucket's value *)
  let uo := MergeUploadOptions opts in
  let upload_chunkSize := default (chunkSize b) (uo_ChunkSizeBytes uo) in
  match uo_Metadata uo with
  | Some md =>
      match bson_MarshalWithRegistry md with
      | Err e => Err e
      | Ok raw =>
          match bson_UnmarshalWithRegistry raw with
          | Err e => Err e
          | Ok doc => Ok (mkUpload upload_chunkSize (Some doc))
          end
      end
  | None => Ok (mkUpload upload_chunkSize None)
  end.

(** OpenUploadStreamWithID creates a new upload stream for a file given
    the file ID and filename. *)
Definition OpenUploadStreamWithID (b : Bucket) (fileID : Value) (filename : string)
    (opts : list (option UploadOptions)) : M (Bucket * result UploadStream) :=
  let (ctx, cancel) := deadlineContext (writeDeadline b) in
  let* r := checkFirstWrite b ctx in
  let (b, err) := r in
  match err with
  | Some e => ret (b, Err e)
  | None =>
      match parseUploadOptions b opts with
      | Err e => ret (b, Err e)
      | Ok upload =>
          ret (b, Ok (newUploadStream upload fileID filename (chunksColl b) (filesColl b)))
      end
  end.

(** OpenUploadStream creates a file ID new upload stream for a file given
    the filename. *)
Definition OpenUploadStream (b : Bucket) (filename : string)
    (opts : list (option UploadOptions)) : M (Bucket * result UploadStream) :=
  let* fileID := NewObjectID in
  OpenUploadStreamWithID b fileID filename opts.

Definition is_EOF (err : option error) : bool :=
  match err with
  | Some EOF => true
  | _ => false
  end.

(** The [for] loop of [UploadFromStreamWithID] followed by the final
    [us.Close()].  The loop is run by recursion on the reader: the
    reader that [Read] leaves is the tail [rest], and an exhausted reader
    reports [io.EOF], which ends the loop. *)
Fixpoint uploadLoop (b : Bucket) (us : UploadStream) (source : Reader) {struct source}
    : M (Bucket * UploadStream * Reader * option error) :=
  let* rd := Reader_Read source (readBuf b) in
  match rd with
  | (source', buf, n, err) =>
      let b := set_readBuf b buf in
      if match err with Some e => negb (is_EOF err) | None => false end then
        (* upload considered aborted if source stream returns an error *)
        let* r := UploadStream_Abort us in
        ret (b, fst r, source', err)
      else
        let* w := (if 0 <? n
                   then UploadStream_Write us (firstn (Z.to_nat n) (readBuf b))
                   else ret (us, 0, None)) in
        match w with
        | (us, _, Some e) => ret (b, us, source', Some e)
        | (us, _, None) =>
            if (n =? 0) || is_EOF err then
              let* r := UploadStream_Close us in
              ret (b, fst r, source', snd r)
            else
              match source with
              | [] =>
                  let* r := UploadStream_Close us in
                  ret (b, fst r, source', snd r)
              | _ :: rest => uploadLoop b us rest
              end
        end
  end.

(** UploadFromStreamWithID uploads a file given a source stream.  The
    stream it worked on is returned as well, for its final state. *)
Definition UploadFromStreamWithID_stream (b : Bucket) (fileID : Value)
    (filename : string) (source : Reader) (opts : list (option UploadOptions))
    : M (Bucket * option UploadStream * Reader * option error) :=
  let* r := OpenUploadStreamWithID b fileID filename opts in
  match r with
  | (b, Err e) => ret (b, None, source, Some e)
  | (b, Ok us) =>
      match UploadStream_SetWriteDeadline us (writeDeadline b) with
      | (us, Some e) =>
          let* r := UploadStream_Close us in
          ret (b, Some (fst r), source, Some e)
      | (us, None) =>
          let* r := uploadLoop b us source in
          match r with
          | (b, us, source, err) => ret (b, Some us, source, err)
          end
      end
  end.

Definition UploadFromStreamWithID (b : Bucket) (fileID : Value)
    (filename : string) (source : Reader) (opts : list (option UploadOptions))
    : M (Bucket * Reader * option error) :=
  let* r := UploadFromStreamWithID_stream b fileID filename source opts in
  match r with
  | (b, _, source, err) => ret (b, source, err)
  end.

(** UploadFromStream creates a fileID and uploads a file given a source
    stream. *)
Definition UploadFromStream (b : Bucket) (filename : string) (source : Reader)
    (opts : list (option UploadOptions)) : M (Bucket * Reader * Value * option error) :=
  let* fileID := NewObjectID in
  let* r := UploadFromStreamWithID b fileID filename source opts in
  match r with
  | (b, source, err) => ret (b, source, fileID, err)
  end.

Definition findFile (b : Bucket) (ctx : Context) (filter : Document)
    (opts : list FindOptions) : M (result (Cursor Document)) :=
  let* r := Collection_Find (filesColl b) ctx filter opts in
  match r with
  | Err e => ret (Err e)
  | Ok cursor =>
      let (cursor, has_next) := Cursor_Next cursor in
      if negb has_next then
        let _ := Cursor_Close cursor in
        ret (Err ErrFileNotFound)
      else ret (Ok cursor)
  end.

Definition findChunks (b : Bucket) (ctx : Context) (fileID : Value)
    : M (result (Cursor Document)) :=
  let* r := Collection_Find (chunksColl b) ctx [("files_id", fileID)]
              [SetSort [("n", VInt32 1)] options_Find] in (* sort by chunk index *)
  match r with
  | Err e => ret (Err e)
  | Ok chunksCursor => ret (Ok chunksCursor)
  end.

Definition openDownloadStream (b : Bucket) (filter : Document)
    (opts : list FindOptions) : M (result DownloadStream) :=
  let (ctx, cancel) := deadlineContext (readDeadline b) in
  let* r := findFile b ctx filter opts in
  match r with
  | Err e => ret (Err e)
  | Ok cursor =>
      match Cursor_Decode cursor with
      | Err e => ret (Err (ErrWrap "error decoding files collection document" e))
      | Ok foundFile =>
          if Length foundFile =? 0 then
            ret (Ok (newDownloadStream None (ChunkSize foundFile) foundFile))
          else
            (* For a file with non-zero length, chunkSize must exist so we know
               what size to expect when downloading chunks. *)
            match match Current cursor with
                  | Some cur => LookupErr "chunkSize" cur
                  | None => Err ErrKeyNotFound
                  end with
            | Err _ => ret (Err ErrMissingChunkSize)
            | Ok _ =>
                let* r := findChunks b ctx (ID foundFile) in
                match r with
                | Err e => ret (Err e)
                | Ok chunksCursor =>
                    ret (Ok (newDownloadStream (Some chunksCursor)
                               (ChunkSize foundFile) foundFile))
                end
            end
      end
  end.

(** OpenDownloadStream creates a stream from which the contents of the
    file can be read. *)
Definition OpenDownloadStream (b : Bucket) (fileID : Value) : M (result DownloadStream) :=
  openDownloadStream b [("_id", fileID)] [].

(** The skip count and sort order [OpenDownloadStreamByName] computes. *)
Definition revisionSkipSort (opts : list (option NameOptions)) : Z * Z :=
  let numSkip := -1 in
  let sortOrder := 1 in
  let nameOpts := MergeNameOptions opts in
  let numSkip := match Revision nameOpts with
                 | Some r => r
                 | None => numSkip
                 end in
  if numSkip <? 0
  then (Int32.sub (Int32.mul (-1) numSkip) 1, -1)
  else (numSkip, sortOrder).

(** OpenDownloadStreamByName opens a download stream for the file with
    the given filename. *)
Definition OpenDownloadStreamByName (b : Bucket) (filename : string)
    (opts : list (option NameOptions)) : M (result DownloadStream) :=
  let (numSkip, sortOrder) := revisionSkipSort opts in
  let findOpts := SetSort [("uploadDate", VInt32 sortOrder)]
                    (SetSkip (Int32.to_int64 numSkip) options_Find) in
  openDownloadStream b [("filename", VString filename)] [findOpts].

Definition downloadToStream (b : Bucket) (ds : DownloadStream) (stream : Writer)
    : M (DownloadStream * Writer * Z * option error) :=
  match DownloadStream_SetReadDeadline ds (readDeadline b) with
  | (ds, Some e) =>
      let* r := DownloadStream_Close ds in
      ret (fst r, stream, 0, Some e)
  | (ds, None) =>
      let* c := io_Copy stream ds in
      match c with
      | (ds, stream, copied, Some e) =>
          let* r := DownloadStream_Close ds in
          ret (fst r, stream, 0, Some e)
      | (ds, stream, copied, None) =>
          let* r := DownloadStream_Close ds in
          ret (fst r, stream, copied, snd r)
      end
  end.

(** DownloadToStream downloads the file with the specified fileID and
    writes it to the provided io.Writer. *)
Definition DownloadToStream (b : Bucket) (fileID : Value) (stream : Writer)
    : M (Writer * Z * option error) :=
  let* r := OpenDownloadStream b fileID in
  match r with
  | Err e => ret (stream, 0, Some e)
  | Ok ds =>
      let* r := downloadToStream b ds stream in
      match r with
      | (_, stream, copied, err) => ret (stream, copied, err)
      end
  end.

(** DownloadToStreamByName downloads the file with the given name to the
    given io.Writer. *)
Definition DownloadToStreamByName (b : Bucket) (filename : string) (stream : Writer)
    (opts : list (option NameOptions)) : M (Writer * Z * option error) :=
  let* r := OpenDownloadStreamByName b filename opts in
  match r with
  | Err e => ret (stream, 0, Some e)
  | Ok ds =>
      let* r := downloadToStream b ds stream in
      match r with
      | (_, stream, copied, err) => ret (stream, copied, err)
      end
  end.

Definition deleteChunks (b : Bucket) (ctx : Context) (fileID : Value) : M (option error) :=
  let* r := Collection_DeleteMany (chunksColl b) ctx [("files_id", fileID)] in
  match r with
  | Err e => ret (Some e)
  | Ok _ => ret None
  end.

(** DeleteContext deletes all chunks and metadata associated with the
    file with the given file ID and runs the underlying delete operations
    with the provided context. *)
Definition DeleteContext (b : Bucket) (ctx : Context) (fileID : Value) : M (option error) :=
  (* If Timeout is set on the Client and context is not already a Timeout
     context, honor Timeout in new Timeout context. *)
  let ctx := match Timeout (db_Client (db b)) with
             | Some t => if negb (ctx_is_timeout ctx)
                         then mkContext (ctx_deadline ctx) true
                         else ctx
             | None => ctx
             end in
  (* Delete document in files collection and then chunks to minimize race
     conditions. *)
  let* res := Collection_DeleteOne (filesColl b) ctx [("_id", fileID)] in
  let err := match res with
             | Ok r => if DeletedCount r =? 0 then Some ErrFileNotFound else None
             | Err e => Some e
             end in
  match err with
  | Some e =>
      (* Can attempt to delete chunks even if no docs in files collection
         matched. *)
      let* _ := deleteChunks b ctx fileID in
      ret (Some e)
  | None => deleteChunks b ctx fileID
  end.

(** Delete deletes all chunks and metadata associated with the file with
    the given file ID. *)
Definition Delete (b : Bucket) (fileID : Value) : M (option error) :=
  let (ctx, cancel) := deadlineContext (writeDeadline b) in
  DeleteContext b ctx fileID.

(** ** Vocabulary of the properties *)

(** The files and the chunks collection are different collections. *)
Definition collections_distinct (b : Bucket) : Prop :=
  coll_name (filesColl b) <> coll_name (chunksColl b).

(** The index specification the store keeps for a created index. *)
Definition index_of_model (model : IndexModel) : IndexSpec :=
  mkIndexSpec (index_name (Keys model)) (Some (Keys model)) (Unique model).

(** The number a value denotes, for the kinds that have an int64
    reading. *)
Definition numeric_value (v : Value) : option Q :=
  match v with
  | VDouble q => Some q
  | VInt32 i => Some (inject_Z i)
  | VInt64 i => Some (inject_Z i)
  | _ => None
  end.

Definition values_numerically_equal (e a : Value) : Prop :=
  exists x y : Q, numeric_value e = Some x /\ numeric_value a = Some y /\ (x == y)%Q.

(** The comparison of key specifications in the words of the spec:
    field by field, the same key and numerically equal values. *)
Definition keys_numerically_equal (expected actual : Document) : Prop :=
  Forall2 (fun e a : Element => fst e = fst a /\ values_numerically_equal (snd e) (snd a))
          expected actual.

(** The indexes of a collection after a run are those before it, or
    those before it followed by the index of [model], which then was not
    among them. *)
Definition created_at_most_once (nm : string) (model : IndexModel) (w w' : World) : Prop :=
  indexes (getColl nm w') = indexes (getColl nm w)
  \/ (indexes (getColl nm w') = indexes (getColl nm w) ++ [index_of_model model]
      /\ forall s : IndexSpec,
           In s (indexes (getColl nm w)) -> ix_key s <> Some (Keys model)).

(** [d] was uploaded no later than [d'], in the order a find sorted on
    "uploadDate" uses; for two dates this is the order of the instants
    (lemma [uploaded_no_later_DateTime]). *)
Definition uploaded_no_later (d d' : Document) : Prop :=
  key_leb (sort_key (Lookup "uploadDate" d)) (sort_key (Lookup "uploadDate" d')) = true.

(** The uploads named [filename], sorted on "uploadDate": oldest first
    for [order >= 0], most recent first for [order < 0]. *)
Definition uploads_by_date (filename : string) (order : Z) (l : list Document)
    : list Document :=
  sort_by (doc_leb "uploadDate" order)
          (List.filter (doc_matches [("filename", VString filename)]) l).

(** [us'] is the stream [us] at a later moment: the same file, name,
    collections and upload options. *)
Definition same_stream (us us' : UploadStream) : Prop :=
  FileID us' = FileID us /\ us_filename us' = us_filename us
  /\ us_chunksColl us' = us_chunksColl us /\ us_filesColl us' = us_filesColl us
  /\ us_upload us' = us_upload us.

(** The calls recorded in [w'] are those of [w] followed by more. *)
Definition extends (w w' : World) : Prop :=
  exists tr, trace w' = trace w ++ tr.

(** No failure is injected into any coming call of the store. *)
Definition no_faults (w : World) : Prop :=
  Forall (fun f : option error => f = None) (faults w).

(** A read that signals a failure of the source, not its end. *)
Definition read_fails (r : ReadResult) : Prop :=
  exists e, rr_err r = Some e /\ e <> EOF.

Module Example.
Definition database : Database :=
  mkDatabase (mkClient None) "majority" "local" Secondary.

Definition options : list (option BucketOptions) :=
  [Some (mkBucketOptions None (Some 4) None None None)].

(** The bucket [NewBucket database options] returns. *)
Definition bucket : Bucket :=
  mkBucket database
    (mkCollection "fs.chunks" "majority" "local" Secondary)
    (mkCollection "fs.files" "majority" "local" Secondary)
    "fs" 4 "majority" "local" Secondary false
    [x00; x00; x00; x00] [x00; x00; x00; x00] 0 0.

Definition fileDoc (id : Z) (filename : string) (uploadDate len : Z) : Document :=
  [("_id", VObjectID id); ("length", VInt64 len); ("chunkSize", VInt32 4);
   ("uploadDate", VDateTime uploadDate); ("filename", VString filename)].

Definition chunkDoc (id files_id n : Z) (data : list byte) : Document :=
  [("_id", VObjectID id); ("files_id", VObjectID files_id); ("n", VInt32 n);
   ("data", VBinary data)].

(** A store with three uploads of the same name and their chunks. *)
Definition collections : gmap string CollData :=
  <["fs.files" := mkCollData [fileDoc 1 "a.txt" 20 2; fileDoc 2 "a.txt" 10 1;
                              fileDoc 3 "a.txt" 30 0] []]>
    (<["fs.chunks" := mkCollData [chunkDoc 11 1 0 [x61; x62]; chunkDoc 12 2 0 [x63]] []]>
       ∅).

Definition world (script : list (option error)) : World :=
  mkWorld collections script [] 1000 100.

(** A metadata document of positive length without "chunkSize". *)
Definition brokenDoc : Document :=
  [("_id", VObjectID 4); ("length", VInt64 5); ("filename", VString "b.txt")].

Definition broken (script : list (option error)) : World :=
  mkWorld (<["fs.files" := mkCollData [brokenDoc] []]> ∅) script [] 1000 100.

(** A store without any collection. *)
Definition fresh (script : list (option error)) : World :=
  mkWorld ∅ script [] 1000 100.
End Example.

(** ** Renaming and dropping *)

Record UpdateResult : Type := mkUpdateResult {
  MatchedCount : Z;
  ModifiedCount : Z
}.

(** Set the field [key] of a document: the value of the first element
    with that key is replaced, and a document without the key gets the
    element appended. *)
Fixpoint set_field (key : string) (v : Value) (d : Document) : Document :=
  match d with
  | [] => [(key, v)]
  | (k, x) :: d' => if decide (k = key) then (k, v) :: d' else (k, x) :: set_field key v d'
  end.

(** Modelled from the spec: what an update document does to a document.
    Only the ["$set"] operator is interpreted. *)
Definition apply_update (update d : Document) : Document :=
  fold_left (fun acc op =>
               match op with
               | ("$set", VDocument fields) =>
                   fold_left (fun acc' kv => set_field (fst kv) (snd kv) acc') fields acc
               | _ => acc
               end)
            update d.

Fixpoint update_first (filter update : Document) (l : list Document) : list Document :=
  match l with
  | [] => []
  | d :: l' =>
      if doc_matches filter d then apply_update update d :: l'
      else d :: update_first filter update l'
  end.

(** Modelled from the spec: [updateOne(filter, update) -> matchedCount].
    The first matching document is updated.  The trace has no event for
    an update; the call still consumes an entry of the failure script. *)
Definition Collection_UpdateOne (c : Collection) (ctx : Context)
    (filter update : Document) : M (result UpdateResult) :=
  let* f := fault in
  match f with
  | Some e => ret (Err e)
  | None =>
      let* cd := readColl (coll_name c) in
      if existsb (doc_matches filter) (docs cd) then
        let* _ := writeColl (coll_name c)
                    (mkCollData (update_first filter update (docs cd)) (indexes cd)) in
        ret (Ok (mkUpdateResult 1 1))
      else ret (Ok (mkUpdateResult 0 0))
  end.

Definition drop_coll (nm : string) (w : World) : World :=
  mkWorld (delete nm (store w)) (faults w) (trace w) (now w) (next_oid w).

(** Modelled from the spec: [drop()].  The collection disappears from
    the database with its documents and indexes.  The trace has no event
    for a drop; the call still consumes an entry of the failure script. *)
Definition Collection_Drop (c : Collection) (ctx : Context) : M (option error) :=
  let* f := fault in
  match f with
  | Some e => ret (Some e)
  | None => fun w => (None, drop_coll (coll_name c) w)
  end.

(** RenameContext renames the stored file with the specified file ID and
    runs the underlying update with the provided context. *)
Definition RenameContext (b : Bucket) (ctx : Context) (fileID : Value)
    (newFilename : string) : M (option error) :=
  let* r := Collection_UpdateOne (filesColl b) ctx
              [("_id", fileID)]
              [("$set", VDocument [("filename", VString newFilename)])] in
  match r with
  | Err e => ret (Some e)
  | Ok res =>
      if MatchedCount res =? 0 then ret (Some ErrFileNotFound)
      else ret None
  end.

(** Rename renames the stored file with the specified file ID. *)
Definition Rename (b : Bucket) (fileID : Value) (newFilename : string)
    : M (option error) :=
  let (ctx, cancel) := deadlineContext (writeDeadline b) in
  RenameContext b ctx fileID newFilename.

(** DropContext drops the files and chunks collections associated with
    this bucket and runs the drop operations with the provided context. *)
Definition DropContext (b : Bucket) (ctx : Context) : M (option error) :=
  (* If Timeout is set on the Client and context is not already a Timeout
     context, honor Timeout in new Timeout context. *)
  let ctx := match Timeout (db_Client (db b)) with
             | Some t => if negb (ctx_is_timeout ctx)
                         then mkContext (ctx_deadline ctx) true
                         else ctx
             | None => ctx
             end in
  let* err := Collection_Drop (filesColl b) ctx in
  match err with
  | Some e => ret (Some e)
  | None => Collection_Drop (chunksColl b) ctx
  end.

(** Drop drops the files and chunks collections associated with this
    bucket. *)
Definition Drop (b : Bucket) : M (option error) :=
  let (ctx, cancel) := deadlineContext (writeDeadline b) in
  DropContext b ctx.

(** GetFilesCollection returns a handle to the collection that stores
    the file documents for this bucket. *)
Definition GetFilesCollection (b : Bucket) : Collection := filesColl b.

(** GetChunksCollection returns a handle to the collection that stores
    the file chunks for this bucket. *)
Definition GetChunksCollection (b : Bucket) : Collection := chunksColl b.

(** ** Vocabulary of further properties *)

(** Two elements have the same key and int64 readings that agree. *)
Definition int64_agree (x y : Element) : Prop :=
  fst x = fst y
  /\ exists i : Z, AsInt64OK (snd x) = (i, true) /\ AsInt64OK (snd y) = (i, true).

(** What [numericalIndexDocsEqual] decides: the documents are the same,
    or they agree element by element on keys and int64 readings. *)
Definition index_docs_equal (expected actual : Document) : Prop :=
  expected = actual \/ Forall2 int64_agree expected actual.

(** Collection [nm] has an index whose key document compares equal to
    the one of [model]. *)
Definition has_index (nm : string) (model : IndexModel) (w : World) : Prop :=
  exists (s : IndexSpec) (k : Document),
    In s (indexes (getColl nm w)) /\ ix_key s = Some k
    /\ fst (numericalIndexDocsEqual (Keys model) k) = true.

(** [b'] is the bucket [b] with, at most, another first-write flag and
    other bytes in a read buffer of the same length. *)
Definition same_config (b b' : Bucket) : Prop :=
  db b' = db b /\ chunksColl b' = chunksColl b /\ filesColl b' = filesColl b
  /\ name b' = name b /\ chunkSize b' = chunkSize b
  /\ wc b' = wc b /\ rc b' = rc b /\ rp b' = rp b
  /\ writeBuf b' = writeBuf b
  /\ readDeadline b' = readDeadline b /\ writeDeadline b' = writeDeadline b
  /\ length (readBuf b') = length (readBuf b).

(** Chunk [c] has an index ("n") no greater than that of [c'], in the
    order a find sorted on "n" uses; for two int32 indexes this is the
    order of the numbers (lemma [chunk_index_le_Int32]). *)
Definition chunk_index_le (c c' : Document) : Prop :=
  key_leb (sort_key (Lookup "n" c)) (sort_key (Lookup "n" c')) = true.

(** The calls [w'] records after those of [w] all satisfy [P]. *)
Definition adds (P : Event -> Prop) (w w' : World) : Prop :=
  exists tr, trace w' = trace w ++ tr /\ Forall P tr.

(** Any call but a [Write] on an upload stream. *)
Definition not_write (ev : Event) : Prop :=
  match ev with
  | EvUploadWrite _ _ => False
  | _ => True
  end.

(** Any call; when it is a [Write] on an upload stream, the stream is
    that of file [fileID] and the bytes handed over are at least one and
    at most [bound]. *)
Definition write_within (fileID : Value) (bound : nat) (ev : Event) : Prop :=
  match ev with
  | EvUploadWrite id n => id = fileID /\ (0 < n <= bound)%nat
  | _ => True
  end.

(** A call of index provisioning: the read of the files collection, a
    listing of indexes or the creation of one. *)
Definition provisioning_call (ev : Event) : Prop :=
  match ev with
  | EvFindOne _ _ _ | EvListIndexes _ | EvCreateIndex _ _ _ => True
  | _ => False
  end.

(** The insert of a document. *)
Definition insert_call (ev : Event) : Prop :=
  match ev with
  | EvInsertOne _ _ => True
  | _ => False
  end.

(** Any call but a [Close] or an [Abort] on an upload stream. *)
Definition no_cleanup (ev : Event) : Prop :=
  match ev with
  | EvUploadClose _ | EvUploadAbort _ => False
  | _ => True
  end.

(** The bytes a read hands over when the buffer holds [len] bytes. *)
Definition take_read (len : nat) (r : ReadResult) : list byte :=
  firstn len (rr_data r).

(** The payload of a call when it is the insert of a chunk of file
    [fileID], and no bytes for any other call. *)
Definition chunk_bytes (fileID : Value) (ev : Event) : list byte :=
  match ev with
  | EvInsertOne _ d =>
      match Lookup "files_id" d, Lookup "data" d with
      | Some id, Some (VBinary data) => if Value_eqb id fileID then data else []
      | _, _ => []
      end
  | _ => []
  end.

(** The bytes of the chunks of file [fileID] that the calls [tr] insert,
    in the order of the inserts. *)
Definition uploaded_bytes (fileID : Value) (tr : list Event) : list byte :=
  flat_map (chunk_bytes fileID) tr.

(** The calls [w'] records after those of [w] insert, as chunks of file
    [fileID] and in this order, exactly the bytes [bytes]. *)
Definition uploads (fileID : Value) (bytes : list byte) (w w' : World) : Prop :=
  exists tr, trace w' = trace w ++ tr /\ uploaded_bytes fileID tr = bytes.

(** * Properties *)

(** ** Values *)

Lemma Value_eqb_spec : forall a b, Value_eqb a b = true <-> a = b.
Proof.
  fix IH 1. intros a b.
  destruct a, b; cbn [Value_eqb];
    try (split; [discriminate | congruence]);
    try (rewrite bool_decide_eq_true; split; congruence);
    try (rewrite andb_true_iff, !bool_decide_eq_true;
         split; [intros [-> ->]; reflexivity | intros H; inversion H; auto]).
  revert elems0.
  induction elems as [|[k v] t IHt]; intros [|[k' v'] t'];
    try (split; [discriminate | congruence]).
  - split; reflexivity.
  - rewrite !andb_true_iff, bool_decide_eq_true, IH.
    specialize (IHt t'). split.
    + intros [[-> ->] H]. apply IHt in H. congruence.
    + intros H. inversion H; subst.
      split; [split; reflexivity|]. apply IHt. reflexivity.
Qed.

#[global] Instance Value_eq_dec : EqDecision Value.
Proof.
  intros a b. destruct (Value_eqb a b) eqn:E; [left | right].
  - apply Value_eqb_spec, E.
  - intros H. apply Value_eqb_spec in H. congruence.
Defined.

Lemma Value_eqb_refl (v : Value) : Value_eqb v v = true.
Proof. apply Value_eqb_spec. reflexivity. Qed.

(** ** The two collections of a bucket *)

Lemma append_inj_l (s t u : string) : (s ++ t = s ++ u)%string -> t = u.
Proof.
  induction s as [|a s IH]; cbn; intros H; [exact H|].
  inversion H. auto.
Qed.

Lemma NewBucket_collections_distinct (d : Database) (opts : list (option BucketOptions))
    (b : Bucket) :
  NewBucket d opts = Returns (Ok b) -> collections_distinct b.
Proof.
  unfold NewBucket. destruct (make_bytes _); [|discriminate].
  intros H. inversion H; subst; clear H.
  unfold collections_distinct; cbn. intros E.
  apply append_inj_l in E. discriminate E.
Qed.

Lemma getColl_put_coll_eq (nm : string) (c : CollData) (w : World) :
  getColl nm (put_coll nm c w) = c.
Proof. unfold getColl, put_coll; cbn. rewrite lookup_insert_eq. reflexivity. Qed.

Lemma getColl_put_coll_ne (nm nm' : string) (c : CollData) (w : World) :
  nm <> nm' -> getColl nm' (put_coll nm c w) = getColl nm' w.
Proof.
  intros H. unfold getColl, put_coll; cbn. rewrite lookup_insert_ne by exact H.
  reflexivity.
Qed.

(** ** Worlds *)

Section WorldFacts.
Variables (ev : Event) (nm : string) (c : CollData) (w : World).

Lemma trace_log : trace (log ev w) = trace w ++ [ev].
Proof. reflexivity. Qed.
Lemma trace_pop_fault : trace (pop_fault w) = trace w.
Proof. reflexivity. Qed.
Lemma trace_put_coll : trace (put_coll nm c w) = trace w.
Proof. reflexivity. Qed.
Lemma next_fault_log : next_fault (log ev w) = next_fault w.
Proof. reflexivity. Qed.
Lemma next_fault_put_coll : next_fault (put_coll nm c w) = next_fault w.
Proof. reflexivity. Qed.
Lemma pop_fault_log : pop_fault (log ev w) = log ev (pop_fault w).
Proof. reflexivity. Qed.
Lemma pop_fault_put_coll : pop_fault (put_coll nm c w) = put_coll nm c (pop_fault w).
Proof. reflexivity. Qed.
Lemma getColl_log : getColl nm (log ev w) = getColl nm w.
Proof. reflexivity. Qed.
Lemma getColl_pop_fault : getColl nm (pop_fault w) = getColl nm w.
Proof. reflexivity. Qed.
Lemma store_log : store (log ev w) = store w.
Proof. reflexivity. Qed.
Lemma store_pop_fault : store (pop_fault w) = store w.
Proof. reflexivity. Qed.
Lemma faults_log : faults (log ev w) = faults w.
Proof. reflexivity. Qed.
Lemma faults_put_coll : faults (put_coll nm c w) = faults w.
Proof. reflexivity. Qed.
End WorldFacts.

Create Rewrite HintDb world.
#[local] Hint Rewrite trace_log trace_pop_fault trace_put_coll next_fault_log
  next_fault_put_coll pop_fault_log pop_fault_put_coll getColl_log getColl_pop_fault
  store_log store_pop_fault faults_log faults_put_coll getColl_put_coll_eq : world.

Ltac wsimpl :=
  unfold ret; cbn [fst snd]; autorewrite with world; cbn [fst snd docs indexes].

(** ** Running the store operations *)

Lemma bind_run {A B : Type} (m : M A) (k : A -> M B) (w : World) :
  bind m k w = k (fst (m w)) (snd (m w)).
Proof. unfold bind. destruct (m w). reflexivity. Qed.

Lemma Collection_DeleteOne_run (c : Collection) (ctx : Context) (filter : Document)
    (w : World) :
  Collection_DeleteOne c ctx filter w =
    let w1 := pop_fault (log (EvDeleteOne (coll_name c) filter) w) in
    match next_fault w with
    | Some e => (Err e, w1)
    | None =>
        if existsb (doc_matches filter) (docs (getColl (coll_name c) w))
        then (Ok (mkDeleteResult 1),
              put_coll (coll_name c)
                (mkCollData (remove_first filter (docs (getColl (coll_name c) w)))
                            (indexes (getColl (coll_name c) w))) w1)
        else (Ok (mkDeleteResult 0), w1)
    end.
Proof.
  unfold Collection_DeleteOne, bind, emit, fault, readColl, writeColl, ret; cbn.
  change (next_fault (log _ w)) with (next_fault w).
  destruct (next_fault w); [reflexivity|].
  change (getColl ?n (pop_fault (log _ w))) with (getColl n w).
  destruct (existsb _ _); reflexivity.
Qed.

Lemma Collection_DeleteMany_run (c : Collection) (ctx : Context) (filter : Document)
    (w : World) :
  Collection_DeleteMany c ctx filter w =
    let w1 := pop_fault (log (EvDeleteMany (coll_name c) filter) w) in
    let old := docs (getColl (coll_name c) w) in
    let keep := List.filter (fun d => negb (doc_matches filter d)) old in
    match next_fault w with
    | Some e => (Err e, w1)
    | None =>
        (Ok (mkDeleteResult (Z.of_nat (length old) - Z.of_nat (length keep))),
         put_coll (coll_name c) (mkCollData keep (indexes (getColl (coll_name c) w))) w1)
    end.
Proof.
  unfold Collection_DeleteMany, bind, emit, fault, readColl, writeColl, ret; cbn.
  change (next_fault (log _ w)) with (next_fault w).
  destruct (next_fault w); reflexivity.
Qed.

(** ** Deletion *)

(** C2: [Delete] issues the delete of the metadata document before the
    delete of the chunks, whatever happens.  When the metadata delete
    matches no document the chunks with that [files_id] are deleted all
    the same and [ErrFileNotFound] is returned.  When the metadata delete
    removes the document and the chunk delete then fails, the error of
    the chunk delete is returned and the files collection stays as the
    metadata delete left it. *)
Theorem Delete_files_then_chunks :
  forall (b : Bucket) (fileID : Value) (w : World),
    collections_distinct b ->
    let files := coll_name (filesColl b) in
    let chunks := coll_name (chunksColl b) in
    let out := Delete b fileID w in
    trace (snd out) =
      trace w ++ [EvDeleteOne files [("_id", fileID)];
                  EvDeleteMany chunks [("files_id", fileID)]]
    /\ (next_fault w = None ->
        existsb (doc_matches [("_id", fileID)]) (docs (getColl files w)) = false ->
        fst out = Some ErrFileNotFound
        /\ (next_fault (pop_fault w) = None ->
            docs (getColl chunks (snd out)) =
              List.filter (fun d => negb (doc_matches [("files_id", fileID)] d))
                          (docs (getColl chunks w))))
    /\ (forall e : error,
        next_fault w = None ->
        existsb (doc_matches [("_id", fileID)]) (docs (getColl files w)) = true ->
        next_fault (pop_fault w) = Some e ->
        fst out = Some e
        /\ docs (getColl files (snd out)) =
             remove_first [("_id", fileID)] (docs (getColl files w))).
Proof.
  intros b fileID w Hd files chunks out.
  subst out. unfold Delete. destruct (deadlineContext (writeDeadline b)) as [ctx cancel].
  unfold DeleteContext, deleteChunks.
  set (ctx' := match Timeout (db_Client (db b)) with Some _ => _ | None => _ end).
  rewrite bind_run, Collection_DeleteOne_run. fold files. cbv zeta.
  destruct (next_fault w) as [e0|] eqn:Hf; cbn [fst snd].
  - rewrite !bind_run, Collection_DeleteMany_run. fold chunks. cbv zeta.
    split; [|split; [discriminate|intros; discriminate]].
    wsimpl. destruct (next_fault (pop_fault w)); wsimpl;
      rewrite <- app_assoc; reflexivity.
  - destruct (existsb _ _) eqn:Hex; cbn [fst snd DeletedCount Z.eqb].
    + rewrite !bind_run, Collection_DeleteMany_run. fold chunks. cbv zeta.
      wsimpl. rewrite (getColl_put_coll_ne files chunks) by exact Hd.
      split; [|split; [discriminate|]].
      * destruct (next_fault (pop_fault w)); wsimpl;
          rewrite <- app_assoc; reflexivity.
      * intros e _ _ He. rewrite He. wsimpl. split; reflexivity.
    + rewrite !bind_run, Collection_DeleteMany_run. fold chunks. cbv zeta.
      wsimpl.
      split; [|split; [|intros; discriminate]].
      * destruct (next_fault (pop_fault w)); wsimpl;
          rewrite <- app_assoc; reflexivity.
      * intros _ _. split; [destruct (next_fault (pop_fault w)); reflexivity|].
        intros He. rewrite He. wsimpl. reflexivity.
Qed.

Lemma NewBucket_example :
  NewBucket Example.database Example.options = Returns (Ok Example.bucket).
Proof. reflexivity. Qed.

Lemma Delete_files_then_chunks_witness :
  collections_distinct Example.bucket
  /\ (let out := Delete Example.bucket (VObjectID 1)
                   (Example.world [None; Some (StoreError 7)]) in
      fst out = Some (StoreError 7)
      /\ docs (getColl "fs.files" (snd out)) =
           [Example.fileDoc 2 "a.txt" 10 1; Example.fileDoc 3 "a.txt" 30 0]).
Proof.
  assert (Hd : collections_distinct Example.bucket)
    by (unfold collections_distinct; cbn; discriminate).
  split; [exact Hd|].
  destruct (Delete_files_then_chunks Example.bucket (VObjectID 1)
              (Example.world [None; Some (StoreError 7)]) Hd) as [_ [_ H]].
  specialize (H (StoreError 7) eq_refl eq_refl eq_refl).
  exact H.
Defined.

(** ** Index provisioning *)

Lemma Collection_FindOne_run (c : Collection) (ctx : Context) (filter proj : Document)
    (w : World) :
  Collection_FindOne c ctx filter proj w =
    (match next_fault w with
     | Some e => mkSingleResult (Some e) []
     | None =>
         match List.filter (doc_matches filter) (docs (getColl (coll_name c) w)) with
         | [] => mkSingleResult (Some ErrNoDocuments) []
         | d :: _ => mkSingleResult None (project proj d)
         end
     end,
     log (EvFindOne (coll_name c) (coll_rp c) filter) (pop_fault w)).
Proof.
  unfold Collection_FindOne, bind, emit, fault, readColl, ret; cbn.
  change (next_fault (log _ w)) with (next_fault w).
  destruct (next_fault w); [reflexivity|].
  change (getColl ?n (pop_fault (log _ w))) with (getColl n w).
  destruct (List.filter _ _); reflexivity.
Qed.

Lemma createNumericalIndexIfNotExists_run (ctx : Context) (iv : IndexView)
    (model : IndexModel) (w : World) :
  createNumericalIndexIfNotExists ctx iv model w =
    let nm := coll_name (iv_coll iv) in
    let w1 := log (EvListIndexes nm) (pop_fault w) in
    match next_fault w with
    | Some e => (Some e, w1)
    | None =>
        match scanIndexes (Keys model) (indexes (getColl nm w)) with
        | Err e => (Some e, w1)
        | Ok true => (None, w1)
        | Ok false =>
            let w2 := log (EvCreateIndex nm (Keys model) (Unique model)) (pop_fault w1) in
            match next_fault (pop_fault w) with
            | Some e => (Some e, w2)
            | None =>
                (None,
                 put_coll nm
                   (mkCollData (docs (getColl nm w))
                      (indexes (getColl nm w) ++ [index_of_model model])) w2)
            end
        end
    end.
Proof.
  unfold createNumericalIndexIfNotExists, IndexView_List, IndexView_CreateOne.
  unfold bind, emit, fault, readColl, writeColl, ret; cbn.
  change (next_fault (log _ w)) with (next_fault w).
  destruct (next_fault w); [reflexivity|].
  change (getColl ?n (pop_fault (log _ w))) with (getColl n w).
  destruct (scanIndexes _ _) as [[|]|]; [reflexivity| |reflexivity].
  change (next_fault (log _ (pop_fault (log _ w)))) with (next_fault (pop_fault w)).
  destruct (next_fault (pop_fault w)); reflexivity.
Qed.

(** An index with exactly the wanted key document is always found. *)
Lemma numericalIndexDocsEqual_same (k : Document) :
  numericalIndexDocsEqual k k = (true, None).
Proof.
  unfold numericalIndexDocsEqual, bytes_Equal. rewrite Value_eqb_refl. reflexivity.
Qed.

Lemma scanIndexes_false (k : Document) (specs : list IndexSpec) :
  scanIndexes k specs = Ok false ->
  forall s k', In s specs -> ix_key s = Some k' ->
               numericalIndexDocsEqual k k' = (false, None).
Proof.
  induction specs as [|cur rest IH]; cbn; intros H s k' Hin Hk; [contradiction|].
  destruct (ix_key cur) as [kc|] eqn:Hc; [|discriminate].
  destruct (numericalIndexDocsEqual k kc) as [[|] [e|]] eqn:Hn; try discriminate.
  destruct Hin as [->|Hin].
  - rewrite Hc in Hk. inversion Hk; subst. exact Hn.
  - eapply IH; eauto.
Qed.

Lemma scanIndexes_false_absent (k : Document) (specs : list IndexSpec) :
  scanIndexes k specs = Ok false ->
  forall s, In s specs -> ix_key s <> Some k.
Proof.
  intros H s Hin Hk.
  pose proof (scanIndexes_false k specs H s k Hin Hk) as Hn.
  rewrite numericalIndexDocsEqual_same in Hn. discriminate.
Qed.

(** What one provisioning step does to the collections: nothing, or the
    index of the model is appended to the indexes of its collection,
    which held no index with that key document. *)
Lemma createNumericalIndexIfNotExists_store (ctx : Context) (iv : IndexView)
    (model : IndexModel) (w : World) :
  let nm := coll_name (iv_coll iv) in
  let w' := snd (createNumericalIndexIfNotExists ctx iv model w) in
  store w' = store w
  \/ (store w' = <[nm := mkCollData (docs (getColl nm w))
                          (indexes (getColl nm w) ++ [index_of_model model])]> (store w)
      /\ forall s, In s (indexes (getColl nm w)) -> ix_key s <> Some (Keys model)).
Proof.
  intros nm w'. subst w'. rewrite createNumericalIndexIfNotExists_run. fold nm. cbv zeta.
  destruct (next_fault w); [left; reflexivity|].
  destruct (scanIndexes _ _) as [[|]|] eqn:Hs; try (left; reflexivity).
  destruct (next_fault (pop_fault w)); [left; reflexivity|].
  right. split; [reflexivity|]. apply scanIndexes_false_absent. exact Hs.
Qed.

Lemma getColl_store (nm : string) (w w' : World) :
  store w' = store w -> getColl nm w' = getColl nm w.
Proof. unfold getColl. intros ->. reflexivity. Qed.

Lemma getColl_store_insert_eq (nm : string) (c : CollData) (w w' : World) :
  store w' = <[nm := c]> (store w) -> getColl nm w' = c.
Proof. unfold getColl. intros ->. rewrite lookup_insert_eq. reflexivity. Qed.

Lemma getColl_store_insert_ne (nm nm' : string) (c : CollData) (w w' : World) :
  nm <> nm' -> store w' = <[nm := c]> (store w) -> getColl nm' w' = getColl nm' w.
Proof.
  unfold getColl. intros Hne ->. rewrite lookup_insert_ne by exact Hne. reflexivity.
Qed.

Lemma created_at_most_once_refl (nm : string) (model : IndexModel) (w w' : World) :
  indexes (getColl nm w') = indexes (getColl nm w) ->
  created_at_most_once nm model w w'.
Proof. intros H. left. exact H. Qed.

Lemma created_at_most_once_trans (nm : string) (model : IndexModel) (w w1 w2 : World) :
  created_at_most_once nm model w w1 ->
  created_at_most_once nm model w1 w2 ->
  created_at_most_once nm model w w2.
Proof.
  intros [H1|[H1 N1]] [H2|[H2 N2]].
  - left. congruence.
  - right. rewrite H1 in H2, N2. split; assumption.
  - right. rewrite H1 in H2. split; assumption.
  - exfalso. apply (N2 (index_of_model model)); [|reflexivity].
    rewrite H1. apply in_or_app. right. left. reflexivity.
Qed.

(** One provisioning step on collection [nm] creates its index at most
    once and leaves the indexes of every other collection alone. *)
Lemma createNumericalIndexIfNotExists_indexes (ctx : Context) (iv : IndexView)
    (model : IndexModel) (w : World) :
  let w' := snd (createNumericalIndexIfNotExists ctx iv model w) in
  created_at_most_once (coll_name (iv_coll iv)) model w w'
  /\ (forall nm', coll_name (iv_coll iv) <> nm' -> getColl nm' w' = getColl nm' w).
Proof.
  intros w'.
  destruct (createNumericalIndexIfNotExists_store ctx iv model w) as [H|[H N]];
    fold w' in H.
  - split.
    + left. rewrite (getColl_store _ _ _ H). reflexivity.
    + intros nm' _. apply getColl_store, H.
  - split.
    + right. rewrite (getColl_store_insert_eq _ _ _ _ H). split; [reflexivity|exact N].
    + intros nm' Hne. eapply getColl_store_insert_ne; eauto.
Qed.

Lemma createIndexes_indexes (b : Bucket) (ctx : Context) (w : World) :
  collections_distinct b ->
  let w' := snd (createIndexes b ctx w) in
  created_at_most_once (coll_name (filesColl b)) filesModel w w'
  /\ created_at_most_once (coll_name (chunksColl b)) chunksModel w w'.
Proof.
  intros Hd w'. subst w'. unfold createIndexes. cbn [Collection_Clone].
  rewrite bind_run, Collection_FindOne_run. cbn [fst snd].
  match goal with |- context [if ?c then _ else _] => destruct c end.
  - split; left; reflexivity.
  - set (w1 := log _ (pop_fault w)).
    rewrite bind_run.
    pose proof (createNumericalIndexIfNotExists_indexes ctx
                  (Collection_Indexes (filesColl b)) filesModel w1) as [F1 O1].
    cbv zeta in F1, O1. cbn [Collection_Indexes iv_coll] in F1, O1.
    set (r1 := createNumericalIndexIfNotExists ctx (Collection_Indexes (filesColl b))
                 filesModel w1) in *.
    destruct (fst r1) as [e|].
    + unfold ret; cbn [snd]. split.
      * exact F1.
      * left. rewrite (O1 _ Hd). reflexivity.
    + pose proof (createNumericalIndexIfNotExists_indexes ctx
                    (Collection_Indexes (chunksColl b)) chunksModel (snd r1)) as [F2 O2].
      cbv zeta in F2, O2. cbn [Collection_Indexes iv_coll] in F2, O2.
      split.
      * eapply created_at_most_once_trans; [exact F1|].
        left. rewrite O2 by (intros E; apply Hd; symmetry; exact E). reflexivity.
      * eapply created_at_most_once_trans; [|exact F2].
        left. rewrite (O1 _ Hd). reflexivity.
Qed.

Lemma checkFirstWrite_indexes (b : Bucket) (ctx : Context) (w : World) :
  collections_distinct b ->
  let w' := snd (checkFirstWrite b ctx w) in
  created_at_most_once (coll_name (filesColl b)) filesModel w w'
  /\ created_at_most_once (coll_name (chunksColl b)) chunksModel w w'.
Proof.
  intros Hd w'. subst w'. unfold checkFirstWrite.
  destruct (firstWriteDone b); cbn [negb].
  - split; left; reflexivity.
  - rewrite bind_run.
    pose proof (createIndexes_indexes b ctx w Hd) as H. cbv zeta in H.
    destruct (fst (createIndexes b ctx w)); exact H.
Qed.

(** [checkFirstWrite] changes nothing of the bucket but the flag. *)
Lemma checkFirstWrite_bucket (b : Bucket) (ctx : Context) (w : World) :
  let r := checkFirstWrite b ctx w in
  (snd (fst r) = None -> fst (fst r) = set_firstWriteDone b true)
  /\ (snd (fst r) <> None -> fst (fst r) = b /\ firstWriteDone b = false).
Proof.
  unfold checkFirstWrite. destruct (firstWriteDone b) eqn:Hf; cbn [negb].
  - cbn. split; [|congruence]. intros _. destruct b; cbn in *; subst; reflexivity.
  - rewrite bind_run. destruct (fst (createIndexes b ctx w)); cbn; split.
    + discriminate.
    + intros _. split; reflexivity.
    + reflexivity.
    + congruence.
Qed.

(** *** Numeric comparison of key specifications *)

Lemma Qtrunc_comp (x y : Q) : (x == y)%Q -> Qtrunc x = Qtrunc y.
Proof.
  intros H. unfold Qtrunc.
  assert (Hs : (Qnum x <? 0) = (Qnum y <? 0)).
  { unfold Qeq in H. destruct (Z.ltb_spec (Qnum x) 0), (Z.ltb_spec (Qnum y) 0);
      try reflexivity; exfalso; nia. }
  rewrite <- Hs. destruct (Qnum x <? 0).
  - apply Qceiling_comp, H.
  - apply Qfloor_comp, H.
Qed.

Lemma Qtrunc_inject_Z (i : Z) : Qtrunc (inject_Z i) = i.
Proof.
  unfold Qtrunc. destruct (Qnum (inject_Z i) <? 0).
  - apply Qceiling_Z.
  - apply Qfloor_Z.
Qed.

Lemma AsInt64OK_numeric (v : Value) (x : Q) :
  numeric_value v = Some x -> AsInt64OK v = (Qtrunc x, true).
Proof.
  destruct v; cbn; intros H; inversion H; subst;
    rewrite ?Qtrunc_inject_Z; reflexivity.
Qed.

Lemma numericalElemsEqual_numeric (expected actual : list Element) :
  keys_numerically_equal expected actual ->
  numericalElemsEqual expected actual = true.
Proof.
  induction 1 as [|e a es acs [Hk (x & y & Hx & Hy & Hxy)] _ IH]; cbn; [reflexivity|].
  rewrite Hk, String.eqb_refl. cbn [negb].
  rewrite (AsInt64OK_numeric _ _ Hx), (AsInt64OK_numeric _ _ Hy).
  rewrite (Qtrunc_comp _ _ Hxy), Z.eqb_refl. cbn. exact IH.
Qed.

(** Key specifications that agree field by field under numeric
    comparison are reported equal. *)
Lemma numericalIndexDocsEqual_numeric (expected actual : Document) :
  keys_numerically_equal expected actual ->
  numericalIndexDocsEqual expected actual = (true, None).
Proof.
  intros H. unfold numericalIndexDocsEqual.
  destruct (bytes_Equal expected actual); [reflexivity|].
  cbn [Elements].
  rewrite (Forall2_length _ _ _ H), Nat.eqb_refl. cbn [negb].
  rewrite (numericalElemsEqual_numeric _ _ H). reflexivity.
Qed.

(** C3: index provisioning is idempotent.  Over two consecutive runs of
    the first-write check the index of the files collection and the
    index of the chunks collection are each created at most once,
    whichever calls the store fails; when the first run succeeds the
    second does nothing at all, the flag being set; and inside a run, an
    index whose key specification equals the wanted one field by field
    under numeric comparison, whatever its name, is not created again. *)
Theorem checkFirstWrite_idempotent :
  forall (b : Bucket) (ctx1 ctx2 : Context) (w : World),
    collections_distinct b ->
    let r1 := checkFirstWrite b ctx1 w in
    let b1 := fst (fst r1) in
    let w1 := snd r1 in
    let r2 := checkFirstWrite b1 ctx2 w1 in
    created_at_most_once (coll_name (filesColl b)) filesModel w (snd r2)
    /\ created_at_most_once (coll_name (chunksColl b)) chunksModel w (snd r2)
    /\ (snd (fst r1) = None ->
        firstWriteDone b1 = true /\ r2 = ((b1, None), w1))
    /\ (forall (ctx : Context) (iv : IndexView) (model : IndexModel) (w0 : World)
               (s : IndexSpec) (k : Document),
          In s (indexes (getColl (coll_name (iv_coll iv)) w0)) ->
          ix_key s = Some k ->
          keys_numerically_equal (Keys model) k ->
          let r := createNumericalIndexIfNotExists ctx iv model w0 in
          store (snd r) = store w0
          /\ trace (snd r) = trace w0 ++ [EvListIndexes (coll_name (iv_coll iv))]).
Proof.
  intros b ctx1 ctx2 w Hd r1 b1 w1 r2.
  pose proof (checkFirstWrite_indexes b ctx1 w Hd) as [F1 C1].
  pose proof (checkFirstWrite_bucket b ctx1 w) as [Bok Berr].
  cbv zeta in F1, C1, Bok, Berr. fold r1 in F1, C1, Bok, Berr. fold b1 in Bok, Berr.
  fold w1 in F1, C1.
  assert (Hb1 : filesColl b1 = filesColl b /\ chunksColl b1 = chunksColl b).
  { destruct (snd (fst r1)) as [e|].
    - destruct Berr as [-> _]; [discriminate|]. split; reflexivity.
    - rewrite Bok by reflexivity. split; reflexivity. }
  destruct Hb1 as [Hfc Hcc].
  assert (Hd1 : collections_distinct b1).
  { unfold collections_distinct. rewrite Hfc, Hcc. exact Hd. }
  pose proof (checkFirstWrite_indexes b1 ctx2 w1 Hd1) as [F2 C2].
  cbv zeta in F2, C2. fold r2 in F2, C2. rewrite Hfc in F2. rewrite Hcc in C2.
  split; [eapply created_at_most_once_trans; eassumption|].
  split; [eapply created_at_most_once_trans; eassumption|].
  split.
  - intros Hok. specialize (Bok Hok).
    assert (Hflag : firstWriteDone b1 = true) by (rewrite Bok; reflexivity).
    split; [exact Hflag|].
    subst r2. unfold checkFirstWrite. rewrite Hflag. reflexivity.
  - intros ctx iv model w0 s k Hin Hk Heq r. subst r.
    rewrite createNumericalIndexIfNotExists_run. cbv zeta.
    destruct (next_fault w0); [split; reflexivity|].
    destruct (scanIndexes _ _) as [[|]|] eqn:Hs; try (split; reflexivity).
    pose proof (scanIndexes_false _ _ Hs s k Hin Hk) as Hn.
    rewrite (numericalIndexDocsEqual_numeric _ _ Heq) in Hn. discriminate.
Qed.

Lemma checkFirstWrite_idempotent_witness :
  collections_distinct Example.bucket
  /\ created_at_most_once "fs.files" filesModel (Example.fresh [])
       (snd (checkFirstWrite
               (fst (fst (checkFirstWrite Example.bucket Background (Example.fresh []))))
               Background
               (snd (checkFirstWrite Example.bucket Background (Example.fresh []))))).
Proof.
  assert (Hd : collections_distinct Example.bucket)
    by (unfold collections_distinct; cbn; discriminate).
  split; [exact Hd|].
  apply (checkFirstWrite_idempotent Example.bucket Background Background
           (Example.fresh []) Hd).
Defined.

(** On a store without collections two runs of the first-write check
    leave exactly one index on each collection. *)
Example checkFirstWrite_twice_fresh :
  let r1 := checkFirstWrite Example.bucket Background (Example.fresh []) in
  let r2 := checkFirstWrite (fst (fst r1)) Background (snd r1) in
  indexes (getColl "fs.files" (snd r2)) = [index_of_model filesModel]
  /\ indexes (getColl "fs.chunks" (snd r2)) = [index_of_model chunksModel]
  /\ trace (snd r2) =
       [EvFindOne "fs.files" Primary []; EvListIndexes "fs.files";
        EvCreateIndex "fs.files" (Keys filesModel) false;
        EvListIndexes "fs.chunks"; EvCreateIndex "fs.chunks" (Keys chunksModel) true].
Proof. vm_compute. repeat split; reflexivity. Qed.

Lemma createNumericalIndexIfNotExists_trace (ctx : Context) (iv : IndexView)
    (model : IndexModel) (w : World) :
  exists tr, trace (snd (createNumericalIndexIfNotExists ctx iv model w)) = trace w ++ tr.
Proof.
  rewrite createNumericalIndexIfNotExists_run. cbv zeta.
  destruct (next_fault w); [eexists; reflexivity|].
  destruct (scanIndexes _ _) as [[|]|]; try (eexists; reflexivity).
  destruct (next_fault (pop_fault w)); cbn; rewrite <- app_assoc; eexists; reflexivity.
Qed.

Lemma doc_matches_nil (d : Document) : doc_matches [] d = true.
Proof. reflexivity. Qed.

Lemma filter_all {A : Type} (f : A -> bool) (l : list A) :
  (forall x, f x = true) -> List.filter f l = l.
Proof.
  intros H. induction l as [|x l IH]; cbn; [reflexivity|]. rewrite H, IH. reflexivity.
Qed.

(** Whatever the bucket and the store, the first call [createIndexes]
    makes is the read of the files collection with read preference
    Primary. *)
Lemma createIndexes_starts_with_check (b : Bucket) (ctx : Context) (w : World) :
  exists tr, trace (snd (createIndexes b ctx w)) =
               trace w ++ EvFindOne (coll_name (filesColl b)) Primary [] :: tr.
Proof.
  unfold createIndexes. cbn [Collection_Clone].
  rewrite bind_run, Collection_FindOne_run. cbn [fst snd coll_name coll_rp default].
  set (w1 := log _ (pop_fault w)).
  match goal with |- context [if ?c then _ else _] => destruct c end.
  - exists []. reflexivity.
  - rewrite bind_run.
    destruct (createNumericalIndexIfNotExists_trace ctx
                (Collection_Indexes (filesColl b)) filesModel w1) as [tr1 H1].
    destruct (fst (createNumericalIndexIfNotExists _ _ filesModel w1)).
    + unfold ret; cbn [snd]. rewrite H1. subst w1. cbn. rewrite <- app_assoc.
      eexists; reflexivity.
    + destruct (createNumericalIndexIfNotExists_trace ctx
                  (Collection_Indexes (chunksColl b)) chunksModel
                  (snd (createNumericalIndexIfNotExists ctx
                          (Collection_Indexes (filesColl b)) filesModel w1)))
        as [tr2 H2].
      rewrite H2, H1. subst w1. cbn. rewrite <- !app_assoc.
      eexists; reflexivity.
Qed.

(** C4: whatever read preference the bucket is configured with,
    [createIndexes] starts by reading the files collection with read
    preference Primary; and when that collection holds a document (and
    the read does not report "no documents") this read is the only call
    made: no index is listed or created. *)
Theorem createIndexes_primary_emptiness_check :
  forall (b : Bucket) (ctx : Context) (w : World),
    let r := createIndexes b ctx w in
    (exists tr, trace (snd r) =
                  trace w ++ EvFindOne (coll_name (filesColl b)) Primary [] :: tr)
    /\ (docs (getColl (coll_name (filesColl b)) w) <> [] ->
        errors_Is_opt (next_fault w) ErrNoDocuments = false ->
        trace (snd r) = trace w ++ [EvFindOne (coll_name (filesColl b)) Primary []]
        /\ store (snd r) = store w
        /\ fst r = next_fault w).
Proof.
  intros b ctx w r. subst r. split; [apply createIndexes_starts_with_check|].
  unfold createIndexes. cbn [Collection_Clone].
  rewrite bind_run, Collection_FindOne_run. cbn [fst snd coll_name coll_rp default].
  rewrite filter_all by apply doc_matches_nil.
  set (sr := match next_fault w with Some e => _ | None => _ end).
  set (err := match SingleResult_Raw sr with Ok _ => None | Err e => Some e end).
  intros Hne Hf.
  assert (Herr : err = next_fault w).
  { subst err sr. destruct (next_fault w); [reflexivity|].
    destruct (docs (getColl (coll_name (filesColl b)) w)); [congruence|reflexivity]. }
  rewrite Herr, Hf. cbn [negb]. repeat split; reflexivity.
Qed.

Lemma createIndexes_primary_emptiness_check_witness :
  docs (getColl "fs.files" (Example.world [])) <> []
  /\ trace (snd (createIndexes Example.bucket Background (Example.world []))) =
       [EvFindOne "fs.files" Primary []].
Proof.
  assert (Hne : docs (getColl (coll_name (filesColl Example.bucket)) (Example.world []))
                <> []) by (vm_compute; discriminate).
  split; [exact Hne|].
  destruct (createIndexes_primary_emptiness_check Example.bucket Background
              (Example.world [])) as [_ H].
  destruct (H Hne eq_refl) as [Ht _]. exact Ht.
Defined.

(** C6: when index provisioning fails in the first-write check of
    [OpenUploadStreamWithID], the call returns that error with the bucket
    unchanged, so the flag is still unset, and the next attempt runs
    index provisioning again. *)
Theorem failed_provisioning_leaves_flag_unset :
  forall (b b' : Bucket) (fileID : Value) (filename : string)
         (opts : list (option UploadOptions)) (w w' : World) (e : error),
    checkFirstWrite b (fst (deadlineContext (writeDeadline b))) w = ((b', Some e), w') ->
    OpenUploadStreamWithID b fileID filename opts w = ((b, Err e), w')
    /\ b' = b
    /\ firstWriteDone b' = false
    /\ forall (fileID2 : Value) (filename2 : string)
              (opts2 : list (option UploadOptions)) (w2 : World),
         snd (OpenUploadStreamWithID b' fileID2 filename2 opts2 w2) =
           snd (createIndexes b' (fst (deadlineContext (writeDeadline b'))) w2)
         /\ exists tr,
              trace (snd (OpenUploadStreamWithID b' fileID2 filename2 opts2 w2)) =
                trace w2 ++ EvFindOne (coll_name (filesColl b')) Primary [] :: tr.
Proof.
  intros b b' fileID filename opts w w' e H.
  pose proof (checkFirstWrite_bucket b (fst (deadlineContext (writeDeadline b))) w)
    as [_ Berr].
  cbv zeta in Berr. rewrite H in Berr. cbn [fst snd] in Berr.
  destruct Berr as [Hb Hflag]; [discriminate|]. subst b'.
  split; [|split; [reflexivity|split; [exact Hflag|]]].
  - unfold OpenUploadStreamWithID.
    destruct (deadlineContext (writeDeadline b)) as [ctx cancel]. cbn [fst] in H.
    rewrite bind_run, H. reflexivity.
  - intros fileID2 filename2 opts2 w2.
    assert (Hs : snd (OpenUploadStreamWithID b fileID2 filename2 opts2 w2) =
                 snd (createIndexes b (fst (deadlineContext (writeDeadline b))) w2)).
    { unfold OpenUploadStreamWithID.
      destruct (deadlineContext (writeDeadline b)) as [ctx cancel]. cbn [fst].
      rewrite bind_run. unfold checkFirstWrite. rewrite Hflag. cbn [negb].
      rewrite bind_run.
      destruct (fst (createIndexes b ctx w2)); cbn [fst snd ret]; [reflexivity|].
      unfold ret. destruct (parseUploadOptions _ opts2); reflexivity. }
    split; [exact Hs|]. rewrite Hs.
    apply createIndexes_starts_with_check.
Qed.

Lemma failed_provisioning_leaves_flag_unset_witness :
  let w := Example.fresh [Some (StoreError 3)] in
  let r := checkFirstWrite Example.bucket Background w in
  r = ((Example.bucket, Some (StoreError 3)), snd r)
  /\ OpenUploadStreamWithID Example.bucket (VObjectID 9) "a.txt" [] w =
       ((Example.bucket, Err (StoreError 3)), snd r)
  /\ firstWriteDone Example.bucket = false.
Proof.
  intros w r.
  assert (H : checkFirstWrite Example.bucket
                (fst (deadlineContext (writeDeadline Example.bucket))) w =
              ((Example.bucket, Some (StoreError 3)), snd r))
    by (vm_compute; reflexivity).
  split; [exact H|].
  destruct (failed_provisioning_leaves_flag_unset Example.bucket Example.bucket
              (VObjectID 9) "a.txt" [] w (snd r) (StoreError 3) H) as [H1 [_ [H3 _]]].
  split; [exact H1|exact H3].
Defined.

(** ** Sorting *)

Section SortingFacts.
Context {A : Type} (leb : A -> A -> bool).
Hypothesis leb_total : forall x y, leb x y = true \/ leb y x = true.
Hypothesis leb_trans : forall x y z, leb x y = true -> leb y z = true -> leb x z = true.

Lemma insert_sorted_In (x y : A) (l : list A) :
  In y (insert_sorted leb x l) <-> y = x \/ In y l.
Proof.
  induction l as [|z l IH]; cbn.
  - intuition congruence.
  - destruct (leb x z); cbn; rewrite ?IH; intuition congruence.
Qed.

Lemma sort_by_In (y : A) (l : list A) : In y (sort_by leb l) <-> In y l.
Proof.
  induction l as [|x l IH]; cbn; [tauto|].
  rewrite insert_sorted_In, IH. intuition congruence.
Qed.

Lemma insert_sorted_sorted (x : A) (l : list A) :
  StronglySorted (fun a b => leb a b = true) l ->
  StronglySorted (fun a b => leb a b = true) (insert_sorted leb x l).
Proof using leb_total leb_trans.
  induction 1 as [|z l Hs IH Hz]; cbn.
  - constructor; constructor.
  - destruct (leb x z) eqn:Hxz.
    + constructor; [constructor; assumption|].
      constructor; [exact Hxz|].
      rewrite List.Forall_forall in *. intros y Hy. eapply leb_trans; eauto.
    + constructor; [exact IH|].
      rewrite List.Forall_forall in *. intros y Hy.
      apply insert_sorted_In in Hy. destruct Hy as [->|Hy]; [|auto].
      destruct (leb_total x z) as [H|H]; congruence.
Qed.

Lemma sort_by_sorted (l : list A) :
  StronglySorted (fun a b => leb a b = true) (sort_by leb l).
Proof using leb_total leb_trans.
  induction l as [|x l IH]; cbn; [constructor|].
  apply insert_sorted_sorted, IH.
Qed.

(** The first element of the sorted list comes before every element. *)
Lemma sort_by_head (l : list A) (h : A) :
  nth_error (sort_by leb l) 0 = Some h ->
  In h l /\ forall x, In x l -> leb h x = true.
Proof using leb_total leb_trans.
  intros H. pose proof (sort_by_sorted l) as Hs.
  destruct (sort_by leb l) as [|h' t] eqn:E; [discriminate|].
  cbn in H. inversion H; subst h'. split.
  - apply sort_by_In. rewrite E. left. reflexivity.
  - intros x Hx. apply sort_by_In in Hx. rewrite E in Hx.
    destruct Hx as [<-|Hx].
    + destruct (leb_total h h); assumption.
    + inversion Hs as [|? ? _ Hall]; subst.
      rewrite List.Forall_forall in Hall. auto.
Qed.
End SortingFacts.

Lemma key_leb_total (a b : Z * Q) : key_leb a b = true \/ key_leb b a = true.
Proof.
  unfold key_leb. destruct a as [ca qa], b as [cb qb]; cbn [fst snd].
  destruct (Z.ltb_spec ca cb); [left; reflexivity|].
  destruct (Z.ltb_spec cb ca); [right; reflexivity|].
  assert (ca = cb) by lia. subst. rewrite Z.eqb_refl. cbn.
  destruct (Qlt_le_dec qa qb) as [Hlt|Hle].
  - left. apply Qle_bool_iff, Qlt_le_weak, Hlt.
  - right. apply Qle_bool_iff, Hle.
Qed.

Lemma key_leb_trans (a b c : Z * Q) :
  key_leb a b = true -> key_leb b c = true -> key_leb a c = true.
Proof.
  unfold key_leb. destruct a as [ca qa], b as [cb qb], c as [cc qc]; cbn [fst snd].
  rewrite !orb_true_iff, !andb_true_iff, !Z.ltb_lt, !Z.eqb_eq, !Qle_bool_iff.
  intros [H1|[H1 Q1]] [H2|[H2 Q2]]; try (left; lia).
  right. split; [lia|]. eapply Qle_trans; eauto.
Qed.

Lemma doc_leb_total (key : string) (dir : Z) (x y : Document) :
  doc_leb key dir x y = true \/ doc_leb key dir y x = true.
Proof. unfold doc_leb. destruct (dir <? 0); apply key_leb_total. Qed.

Lemma doc_leb_trans (key : string) (dir : Z) (x y z : Document) :
  doc_leb key dir x y = true -> doc_leb key dir y z = true -> doc_leb key dir x z = true.
Proof.
  unfold doc_leb. destruct (dir <? 0); intros H1 H2; eapply key_leb_trans; eauto.
Qed.

Lemma uploaded_no_later_DateTime (d d' : Document) (t t' : Z) :
  Lookup "uploadDate" d = Some (VDateTime t) ->
  Lookup "uploadDate" d' = Some (VDateTime t') ->
  uploaded_no_later d d' -> t <= t'.
Proof.
  unfold uploaded_no_later, key_leb. intros -> ->. cbn.
  intros H. apply Qle_bool_iff in H. rewrite <- Zle_Qle in H. exact H.
Qed.

(** ** Opening a download stream *)

Lemma Collection_Find_run (c : Collection) (ctx : Context) (filter : Document)
    (opts : list FindOptions) (w : World) :
  Collection_Find c ctx filter opts w =
    let fo := MergeFindOptions opts in
    (match next_fault w with
     | Some e => Err e
     | None =>
         if match fo_Skip fo with Some n => n <? 0 | None => false end
         then Err (StoreError 2)
         else Ok (newCursor (find_results filter fo (docs (getColl (coll_name c) w))))
     end,
     log (EvFind (coll_name c) (coll_rp c) filter (fo_Skip fo) (fo_Sort fo)) (pop_fault w)).
Proof.
  unfold Collection_Find, bind, emit, fault, readColl, ret; cbn.
  change (next_fault (log _ w)) with (next_fault w).
  destruct (next_fault w); [reflexivity|].
  destruct (match fo_Skip _ with Some n => n <? 0 | None => false end); reflexivity.
Qed.

(** [findFile] makes one call, the find on the files collection. *)
Lemma findFile_world (b : Bucket) (ctx : Context) (filter : Document)
    (opts : list FindOptions) (w : World) :
  snd (findFile b ctx filter opts w) =
    log (EvFind (coll_name (filesColl b)) (coll_rp (filesColl b)) filter
           (fo_Skip (MergeFindOptions opts)) (fo_Sort (MergeFindOptions opts)))
        (pop_fault w).
Proof.
  unfold findFile. rewrite bind_run, Collection_Find_run. cbv zeta. cbn [fst snd].
  destruct (next_fault w); [reflexivity|].
  destruct (match fo_Skip _ with Some n => n <? 0 | None => false end); [reflexivity|].
  unfold Cursor_Next, newCursor; cbn [pending].
  destruct (find_results _ _ _); reflexivity.
Qed.

Lemma findChunks_world (b : Bucket) (ctx : Context) (fileID : Value) (w : World) :
  snd (findChunks b ctx fileID w) =
    log (EvFind (coll_name (chunksColl b)) (coll_rp (chunksColl b))
           [("files_id", fileID)] None (Some [("n", VInt32 1)]))
        (pop_fault w).
Proof.
  unfold findChunks. rewrite bind_run, Collection_Find_run. cbv zeta. cbn [fst snd].
  destruct (next_fault w); reflexivity.
Qed.

(** The cursor [findFile] returns stands on the first result of the
    find. *)
Lemma findFile_Ok (b : Bucket) (ctx : Context) (filter : Document)
    (opts : list FindOptions) (w : World) (cursor : Cursor Document) :
  fst (findFile b ctx filter opts w) = Ok cursor ->
  exists d,
    nth_error (find_results filter (MergeFindOptions opts)
                 (docs (getColl (coll_name (filesColl b)) w))) 0 = Some d
    /\ Current cursor = Some d.
Proof.
  unfold findFile. rewrite bind_run, Collection_Find_run. cbv zeta. cbn [fst snd].
  destruct (next_fault w); [discriminate|].
  destruct (match fo_Skip _ with Some n => n <? 0 | None => false end); [discriminate|].
  unfold Cursor_Next, newCursor; cbn [pending].
  destruct (find_results _ _ _) as [|d rest]; cbn; [discriminate|].
  intros H. inversion H; subst. exists d. split; reflexivity.
Qed.

(** A stream that was opened carries the decoded first result. *)
Lemma openDownloadStream_located (b : Bucket) (filter : Document)
    (opts : list FindOptions) (w : World) (ds : DownloadStream) :
  fst (openDownloadStream b filter opts w) = Ok ds ->
  exists d,
    nth_error (find_results filter (MergeFindOptions opts)
                 (docs (getColl (coll_name (filesColl b)) w))) 0 = Some d
    /\ File_UnmarshalBSON d = Ok (ds_file ds).
Proof.
  unfold openDownloadStream. destruct (deadlineContext (readDeadline b)) as [ctx cancel].
  rewrite bind_run.
  destruct (fst (findFile b ctx filter opts w)) as [cursor|e] eqn:Hf; [|discriminate].
  destruct (findFile_Ok _ _ _ _ _ _ Hf) as (d & Hn & Hc).
  unfold Cursor_Decode. rewrite Hc.
  destruct (File_UnmarshalBSON d) as [foundFile|e] eqn:Hd; [|discriminate].
  destruct (Length foundFile =? 0).
  - cbn. intros H. inversion H; subst. exists d. split; [exact Hn|exact Hd].
  - destruct (LookupErr "chunkSize" d); [|discriminate].
    rewrite bind_run.
    destruct (fst (findChunks _ _ _ _)); [|discriminate].
    cbn. intros H. inversion H; subst. exists d. split; [exact Hn|exact Hd].
Qed.

(** C7: when the located metadata document decodes to a file of length
    0, the stream returned has no chunk cursor and the find on the files
    collection is the only call made, so no chunk is queried; when its
    length is positive and it has no "chunkSize" element,
    [ErrMissingChunkSize] is returned instead of a stream, again without
    querying chunks. *)
Theorem openDownloadStream_zero_length_and_missing_chunkSize :
  forall (b : Bucket) (filter : Document) (opts : list FindOptions) (w w1 : World)
         (cursor : Cursor Document) (d : Document) (foundFile : File),
    findFile b (fst (deadlineContext (readDeadline b))) filter opts w = (Ok cursor, w1) ->
    Current cursor = Some d ->
    File_UnmarshalBSON d = Ok foundFile ->
    let r := openDownloadStream b filter opts w in
    trace w1 =
      trace w ++ [EvFind (coll_name (filesColl b)) (coll_rp (filesColl b)) filter
                    (fo_Skip (MergeFindOptions opts)) (fo_Sort (MergeFindOptions opts))]
    /\ (Length foundFile = 0 ->
        exists ds, r = (Ok ds, w1) /\ ds_cursor ds = None /\ ds_file ds = foundFile)
    /\ (Length foundFile > 0 -> Lookup "chunkSize" d = None ->
        r = (Err ErrMissingChunkSize, w1)).
Proof.
  intros b filter opts w w1 cursor d foundFile Hf Hc Hd r. subst r.
  split.
  - pose proof (findFile_world b (fst (deadlineContext (readDeadline b))) filter opts w)
      as Hw.
    rewrite Hf in Hw. cbn [snd] in Hw. rewrite Hw. reflexivity.
  - unfold openDownloadStream.
    destruct (deadlineContext (readDeadline b)) as [ctx cancel]. cbn [fst] in Hf.
    rewrite bind_run, Hf. cbn [fst snd].
    unfold Cursor_Decode. rewrite Hc, Hd. split.
    + intros ->. cbn. eexists. split; [reflexivity|]. split; reflexivity.
    + intros Hpos Hk.
      destruct (Z.eqb_spec (Length foundFile) 0) as [E|_]; [lia|].
      unfold Lookup in Hk. destruct (LookupErr "chunkSize" d); [discriminate|].
      reflexivity.
Qed.

Lemma openDownloadStream_zero_length_and_missing_chunkSize_witness :
  (exists ds,
      OpenDownloadStream Example.bucket (VObjectID 3) (Example.world []) =
        (Ok ds, snd (OpenDownloadStream Example.bucket (VObjectID 3) (Example.world [])))
      /\ ds_cursor ds = None)
  /\ fst (OpenDownloadStream Example.bucket (VObjectID 4) (Example.broken [])) =
       Err ErrMissingChunkSize.
Proof.
  split.
  - set (w := Example.world []).
    set (d := Example.fileDoc 3 "a.txt" 30 0).
    assert (Hf : findFile Example.bucket
                   (fst (deadlineContext (readDeadline Example.bucket)))
                   [("_id", VObjectID 3)] [] w =
                 (Ok (mkCursor (Some d) [] false),
                  snd (OpenDownloadStream Example.bucket (VObjectID 3) w)))
      by (vm_compute; reflexivity).
    destruct (openDownloadStream_zero_length_and_missing_chunkSize Example.bucket
                [("_id", VObjectID 3)] [] w _ _ d
                (mkFile (VObjectID 3) 0 4 30 "a.txt" None) Hf eq_refl eq_refl)
      as [_ [H0 _]].
    destruct (H0 eq_refl) as (ds & Hr & Hc & _).
    exists ds. split; [exact Hr|exact Hc].
  - set (w := Example.broken []).
    assert (Hf : findFile Example.bucket
                   (fst (deadlineContext (readDeadline Example.bucket)))
                   [("_id", VObjectID 4)] [] w =
                 (Ok (mkCursor (Some Example.brokenDoc) [] false),
                  snd (OpenDownloadStream Example.bucket (VObjectID 4) w)))
      by (vm_compute; reflexivity).
    destruct (openDownloadStream_zero_length_and_missing_chunkSize Example.bucket
                [("_id", VObjectID 4)] [] w _ _ Example.brokenDoc
                (mkFile (VObjectID 4) 5 0 0 "b.txt" None) Hf eq_refl eq_refl)
      as [_ [_ H1]].
    unfold OpenDownloadStream. rewrite (H1 eq_refl eq_refl). reflexivity.
Defined.

(** ** Revision selection *)

Lemma Int32_negate_minus_one (r : Z) :
  Int32.in_range r -> r < 0 -> Int32.sub (Int32.mul (-1) r) 1 = - r - 1.
Proof.
  unfold Int32.in_range, Int32.min_int, Int32.max_int, Int32.sub, Int32.mul, Int32.wrap.
  intros Hr Hneg.
  replace ((-1 * r + 2 ^ 31) mod 2 ^ 32 - 2 ^ 31 - 1 + 2 ^ 31)
    with ((-1 * r + 2 ^ 31) mod 2 ^ 32 - 1) by lia.
  rewrite Zminus_mod_idemp_l.
  rewrite Z.mod_small by lia. lia.
Qed.

(** The skip count and sort order for a revision: [r] and ascending for
    [r >= 0], [-r - 1] and descending for [r < 0]. *)
Lemma revisionSkipSort_revision (opts : list (option NameOptions)) (r : Z) :
  Int32.in_range r ->
  Revision (MergeNameOptions opts) = Some r ->
  revisionSkipSort opts = if r <? 0 then (- r - 1, -1) else (r, 1).
Proof.
  intros Hr Hrev. unfold revisionSkipSort. rewrite Hrev.
  destruct (Z.ltb_spec r 0); [|reflexivity].
  rewrite Int32_negate_minus_one by assumption. reflexivity.
Qed.

Lemma revisionSkipSort_default (opts : list (option NameOptions)) :
  Revision (MergeNameOptions opts) = None ->
  revisionSkipSort opts = (0, -1).
Proof. intros Hrev. unfold revisionSkipSort. rewrite Hrev. reflexivity. Qed.

(** The files a lookup by name ranges over, in the order of the sort. *)
Lemma find_results_by_name (filename : string) (skip order : Z) (l : list Document) :
  find_results [("filename", VString filename)]
    (MergeFindOptions [SetSort [("uploadDate", VInt32 order)]
                         (SetSkip (Int32.to_int64 skip) options_Find)]) l =
  skipn (Z.to_nat skip) (uploads_by_date filename order l).
Proof. reflexivity. Qed.

Lemma nth_error_skipn_0 {A : Type} (n : nat) (l : list A) :
  nth_error (skipn n l) 0 = nth_error l n.
Proof.
  revert l. induction n as [|n IH]; intros [|x l]; cbn; try reflexivity. apply IH.
Qed.

(** What [OpenDownloadStreamByName] does for a skip count and an order:
    its first call is the find on the files collection with that skip
    and sort, and a stream it opens is for the document at position
    [skip] among the uploads of that name in that order. *)
Lemma OpenDownloadStreamByName_lookup (b : Bucket) (filename : string)
    (opts : list (option NameOptions)) (skip order : Z) (w : World) :
  revisionSkipSort opts = (skip, order) ->
  let r := OpenDownloadStreamByName b filename opts w in
  (exists tr,
      trace (snd r) =
        trace w ++ EvFind (coll_name (filesColl b)) (coll_rp (filesColl b))
                     [("filename", VString filename)] (Some skip)
                     (Some [("uploadDate", VInt32 order)]) :: tr)
  /\ (forall ds, fst r = Ok ds ->
        exists d,
          nth_error (uploads_by_date filename order
                       (docs (getColl (coll_name (filesColl b)) w)))
                    (Z.to_nat skip) = Some d
          /\ File_UnmarshalBSON d = Ok (ds_file ds)).
Proof.
  intros Hrs r. subst r. unfold OpenDownloadStreamByName. rewrite Hrs.
  split.
  - unfold openDownloadStream.
    destruct (deadlineContext (readDeadline b)) as [ctx cancel].
    rewrite bind_run.
    pose proof (findFile_world b ctx [("filename", VString filename)]
                  [SetSort [("uploadDate", VInt32 order)]
                     (SetSkip (Int32.to_int64 skip) options_Find)] w) as Hw.
    destruct (findFile b ctx _ _ w) as [res w1]. cbn [fst snd] in *. subst w1.
    destruct res as [cursor|e]; [|exists []; reflexivity].
    destruct (Cursor_Decode cursor) as [foundFile|e]; [|exists []; reflexivity].
    destruct (Length foundFile =? 0); [exists []; reflexivity|].
    destruct (match Current cursor with Some cur => _ | None => _ end);
      [|exists []; reflexivity].
    rewrite bind_run.
    pose proof (findChunks_world b ctx (ID foundFile) (log (EvFind (coll_name (filesColl b))
                  (coll_rp (filesColl b)) [("filename", VString filename)]
                  (Some skip) (Some [("uploadDate", VInt32 order)])) (pop_fault w)))
      as Hc.
    cbn [MergeFindOptions fold_left fo_Skip fo_Sort SetSort SetSkip options_Find].
    unfold Int32.to_int64.
    destruct (findChunks b ctx (ID foundFile) _) as [res w2]. cbn [fst snd] in *.
    subst w2. eexists.
    destruct res; cbn; rewrite <- app_assoc; reflexivity.
  - intros ds Hds.
    destruct (openDownloadStream_located _ _ _ _ _ Hds) as (d & Hn & Hd).
    rewrite find_results_by_name, nth_error_skipn_0 in Hn.
    exists d. split; assumption.
Qed.

(** The first of the uploads in ascending order was uploaded no later
    than any upload of that name. *)
Lemma uploads_by_date_first_oldest (filename : string) (l : list Document) (d : Document) :
  nth_error (uploads_by_date filename 1 l) 0 = Some d ->
  In d l /\ doc_matches [("filename", VString filename)] d = true
  /\ forall d', In d' l -> doc_matches [("filename", VString filename)] d' = true ->
                uploaded_no_later d d'.
Proof.
  intros H.
  destruct (sort_by_head (doc_leb "uploadDate" 1) (doc_leb_total _ _) (doc_leb_trans _ _)
              _ _ H) as [Hin Hle].
  apply filter_In in Hin. destruct Hin as [Hin Hm].
  split; [exact Hin|]. split; [exact Hm|].
  intros d' Hin' Hm'. apply (Hle d'). apply filter_In. split; assumption.
Qed.

(** The first of the uploads in descending order was uploaded no earlier
    than any upload of that name. *)
Lemma uploads_by_date_first_latest (filename : string) (l : list Document) (d : Document) :
  nth_error (uploads_by_date filename (-1) l) 0 = Some d ->
  In d l /\ doc_matches [("filename", VString filename)] d = true
  /\ forall d', In d' l -> doc_matches [("filename", VString filename)] d' = true ->
                uploaded_no_later d' d.
Proof.
  intros H.
  destruct (sort_by_head (doc_leb "uploadDate" (-1)) (doc_leb_total _ _)
              (doc_leb_trans _ _) _ _ H) as [Hin Hle].
  apply filter_In in Hin. destruct Hin as [Hin Hm].
  split; [exact Hin|]. split; [exact Hm|].
  intros d' Hin' Hm'. apply (Hle d'). apply filter_In. split; assumption.
Qed.

(** C1: with revision option [r], the lookup of [OpenDownloadStreamByName]
    sorts ascending on "uploadDate" and skips [r] documents when
    [r >= 0], and sorts descending and skips [-r - 1] documents when
    [r < 0]; a stream it opens is for the document at that position, so
    revision 0 opens the upload of that name made first and revision -1
    the one made last. *)
Theorem OpenDownloadStreamByName_revision :
  forall (b : Bucket) (filename : string) (opts : list (option NameOptions))
         (r : Z) (w : World),
    Int32.in_range r ->
    Revision (MergeNameOptions opts) = Some r ->
    let skip := if r <? 0 then - r - 1 else r in
    let order := if r <? 0 then -1 else 1 in
    let files := docs (getColl (coll_name (filesColl b)) w) in
    let out := OpenDownloadStreamByName b filename opts w in
    (exists tr,
        trace (snd out) =
          trace w ++ EvFind (coll_name (filesColl b)) (coll_rp (filesColl b))
                       [("filename", VString filename)] (Some skip)
                       (Some [("uploadDate", VInt32 order)]) :: tr)
    /\ (forall ds, fst out = Ok ds ->
          exists d,
            nth_error (uploads_by_date filename order files) (Z.to_nat skip) = Some d
            /\ File_UnmarshalBSON d = Ok (ds_file ds)
            /\ (r = 0 ->
                forall d', In d' files ->
                           doc_matches [("filename", VString filename)] d' = true ->
                           uploaded_no_later d d')
            /\ (r = -1 ->
                forall d', In d' files ->
                           doc_matches [("filename", VString filename)] d' = true ->
                           uploaded_no_later d' d)).
Proof.
  intros b filename opts r w Hr Hrev skip order files out.
  assert (Hrs : revisionSkipSort opts = (skip, order)).
  { rewrite (revisionSkipSort_revision opts r Hr Hrev). subst skip order.
    destruct (r <? 0); reflexivity. }
  destruct (OpenDownloadStreamByName_lookup b filename opts skip order w Hrs)
    as [Htr Hsel].
  split; [exact Htr|].
  intros ds Hds. destruct (Hsel ds Hds) as (d & Hn & Hd).
  exists d. split; [exact Hn|]. split; [exact Hd|]. split.
  - intros ->. subst skip order. cbn in Hn.
    apply uploads_by_date_first_oldest in Hn. apply Hn.
  - intros ->. subst skip order. cbn in Hn.
    apply uploads_by_date_first_latest in Hn. apply Hn.
Qed.

Lemma OpenDownloadStreamByName_revision_witness :
  Int32.in_range 0
  /\ exists ds d,
       fst (OpenDownloadStreamByName Example.bucket "a.txt"
              [Some (mkNameOptions (Some 0))] (Example.world [])) = Ok ds
       /\ File_UnmarshalBSON d = Ok (ds_file ds)
       /\ forall d', In d' (docs (getColl "fs.files" (Example.world []))) ->
                     doc_matches [("filename", VString "a.txt")] d' = true ->
                     uploaded_no_later d d'.
Proof.
  assert (Hr : Int32.in_range 0) by (vm_compute; split; discriminate).
  split; [exact Hr|].
  destruct (OpenDownloadStreamByName_revision Example.bucket "a.txt"
              [Some (mkNameOptions (Some 0))] 0 (Example.world []) Hr eq_refl)
    as [_ H].
  set (out := OpenDownloadStreamByName Example.bucket "a.txt"
                [Some (mkNameOptions (Some 0))] (Example.world [])) in *.
  assert (Hout : exists ds, fst out = Ok ds) by (vm_compute; eexists; reflexivity).
  destruct Hout as [ds Hds].
  destruct (H ds Hds) as (d & _ & Hd & H0 & _).
  exists ds, d. split; [exact Hds|]. split; [exact Hd|]. exact (H0 eq_refl).
Defined.

Lemma MergeNameOptions_no_revision (opts : list (option NameOptions)) :
  Forall (fun o => match o with
                   | Some o => Revision o = None
                   | None => True
                   end) opts ->
  Revision (MergeNameOptions opts) = None.
Proof.
  unfold MergeNameOptions.
  assert (G : forall acc, Revision acc = None ->
                Forall (fun o => match o with
                                 | Some o => Revision o = None
                                 | None => True
                                 end) opts ->
                Revision (fold_left (fun acc o =>
                            match o with
                            | None => acc
                            | Some o => mkNameOptions (later (Revision o) (Revision acc))
                            end) opts acc) = None).
  { induction opts as [|o opts IH]; intros acc Hacc Hall; cbn; [exact Hacc|].
    inversion Hall as [|? ? Ho Hrest]; subst. apply IH; [|exact Hrest].
    destruct o as [o|]; [|exact Hacc]. cbn. rewrite Ho. exact Hacc. }
  apply G. reflexivity.
Qed.

(** C9: called without a revision option, [OpenDownloadStreamByName]
    looks the file up sorted descending on "uploadDate" with skip 0, as
    for revision -1, so a stream it opens is for the upload of that name
    made last. *)
Theorem OpenDownloadStreamByName_default_revision :
  forall (b : Bucket) (filename : string) (opts : list (option NameOptions))
         (w : World),
    Forall (fun o => match o with
                     | Some o => Revision o = None
                     | None => True
                     end) opts ->
    let files := docs (getColl (coll_name (filesColl b)) w) in
    let out := OpenDownloadStreamByName b filename opts w in
    revisionSkipSort opts = revisionSkipSort [Some (mkNameOptions (Some (-1)))]
    /\ (exists tr,
          trace (snd out) =
            trace w ++ EvFind (coll_name (filesColl b)) (coll_rp (filesColl b))
                         [("filename", VString filename)] (Some 0)
                         (Some [("uploadDate", VInt32 (-1))]) :: tr)
    /\ (forall ds, fst out = Ok ds ->
          exists d,
            In d files
            /\ doc_matches [("filename", VString filename)] d = true
            /\ File_UnmarshalBSON d = Ok (ds_file ds)
            /\ forall d', In d' files ->
                          doc_matches [("filename", VString filename)] d' = true ->
                          uploaded_no_later d' d).
Proof.
  intros b filename opts w Hno files out.
  pose proof (revisionSkipSort_default opts (MergeNameOptions_no_revision opts Hno))
    as Hrs.
  split; [rewrite Hrs; reflexivity|].
  destruct (OpenDownloadStreamByName_lookup b filename opts 0 (-1) w Hrs) as [Htr Hsel].
  split; [exact Htr|].
  intros ds Hds. destruct (Hsel ds Hds) as (d & Hn & Hd).
  cbn in Hn. apply uploads_by_date_first_latest in Hn.
  destruct Hn as (Hin & Hm & Hlast).
  exists d. repeat split; assumption.
Qed.

Lemma OpenDownloadStreamByName_default_revision_witness :
  exists ds,
    fst (OpenDownloadStreamByName Example.bucket "a.txt" [] (Example.world [])) = Ok ds
    /\ ID (ds_file ds) = VObjectID 3
    /\ exists d,
         File_UnmarshalBSON d = Ok (ds_file ds)
         /\ forall d', In d' (docs (getColl "fs.files" (Example.world []))) ->
                       doc_matches [("filename", VString "a.txt")] d' = true ->
                       uploaded_no_later d' d.
Proof.
  destruct (OpenDownloadStreamByName_default_revision Example.bucket "a.txt" []
              (Example.world []) (List.Forall_nil _)) as [_ [_ H]].
  set (out := OpenDownloadStreamByName Example.bucket "a.txt" [] (Example.world [])) in *.
  assert (Hout : exists ds, fst out = Ok ds /\ ID (ds_file ds) = VObjectID 3)
    by (vm_compute; eexists; split; reflexivity).
  destruct Hout as (ds & Hds & Hid).
  destruct (H ds Hds) as (d & _ & _ & Hd & Hlast).
  exists ds. split; [exact Hds|]. split; [exact Hid|].
  exists d. split; [exact Hd|exact Hlast].
Defined.

(** ** Uploading from a source *)

Lemma Collection_InsertOne_run (c : Collection) (ctx : Context) (d : Document)
    (w : World) :
  Collection_InsertOne c ctx d w =
    let w1 := log (EvInsertOne (coll_name c) d) (pop_fault w) in
    match next_fault w with
    | Some e => (Some e, w1)
    | None =>
        (None,
         put_coll (coll_name c)
           (mkCollData (docs (getColl (coll_name c) w) ++ [d])
                       (indexes (getColl (coll_name c) w))) w1)
    end.
Proof.
  unfold Collection_InsertOne, bind, emit, fault, readColl, writeColl, ret; cbn.
  change (next_fault (log _ w)) with (next_fault w).
  destruct (next_fault w); reflexivity.
Qed.

(** One pass of the read loop, for a reader that has a result left. *)
Lemma uploadLoop_cons (b : Bucket) (us : UploadStream) (r : ReadResult) (rest : Reader)
    (w : World) :
  uploadLoop b us (r :: rest) w =
    let w1 := log EvSourceRead w in
    let data := firstn (length (readBuf b)) (rr_data r) in
    let buf := data ++ skipn (length data) (readBuf b) in
    let n := Z.of_nat (length data) in
    let b1 := set_readBuf b buf in
    if match rr_err r with Some _ => negb (is_EOF (rr_err r)) | None => false end then
      let a := UploadStream_Abort us w1 in
      ((b1, fst (fst a), rest, rr_err r), snd a)
    else
      let wr := (if 0 <? n then UploadStream_Write us (firstn (Z.to_nat n) buf)
                 else ret (us, 0, None)) w1 in
      match snd (fst wr) with
      | Some e => ((b1, fst (fst (fst wr)), rest, Some e), snd wr)
      | None =>
          if (n =? 0) || is_EOF (rr_err r) then
            let c := UploadStream_Close (fst (fst (fst wr))) (snd wr) in
            ((b1, fst (fst c), rest, snd (fst c)), snd c)
          else uploadLoop b1 (fst (fst (fst wr))) rest (snd wr)
      end.
Proof.
  cbn [uploadLoop]. unfold Reader_Read. rewrite !bind_run. cbn [emit fst snd ret].
  cbv zeta.
  destruct (match rr_err r with Some _ => negb (is_EOF (rr_err r)) | None => false end).
  - rewrite bind_run. reflexivity.
  - rewrite bind_run. cbn [readBuf set_readBuf].
    match goal with |- context [(if ?c then UploadStream_Write _ _ else _) ?w1] =>
      destruct ((if c then UploadStream_Write us
                             (firstn (Z.to_nat (Z.of_nat (length
                                (firstn (length (readBuf b)) (rr_data r)))))
                                (firstn (length (readBuf b)) (rr_data r) ++
                                 skipn (length (firstn (length (readBuf b)) (rr_data r)))
                                   (readBuf b)))
                 else ret (us, 0, None)) w1) as [[[us' k] werr] w2] eqn:E
    end.
    cbn [fst snd]. destruct werr; [reflexivity|].
    destruct ((_ =? 0) || is_EOF (rr_err r)); [|reflexivity].
    rewrite bind_run. reflexivity.
Qed.

(** Reading an exhausted reader ends the loop: the stream is closed. *)
Lemma uploadLoop_nil (b : Bucket) (us : UploadStream) (w : World) :
  uploadLoop b us [] w =
    let c := UploadStream_Close us (log EvSourceRead w) in
    ((set_readBuf b (readBuf b), fst (fst c), [], snd (fst c)), snd c).
Proof.
  cbn [uploadLoop]. unfold Reader_Read. rewrite !bind_run. cbn. rewrite bind_run.
  reflexivity.
Qed.

Lemma extends_refl (w : World) : extends w w.
Proof. exists []. rewrite app_nil_r. reflexivity. Qed.

Lemma extends_trans (w w1 w2 : World) : extends w w1 -> extends w1 w2 -> extends w w2.
Proof.
  intros [t1 H1] [t2 H2]. exists (t1 ++ t2). rewrite H2, H1, app_assoc. reflexivity.
Qed.

Lemma extends_log (ev : Event) (w w' : World) : extends (log ev w) w' -> extends w w'.
Proof.
  intros [t H]. exists (ev :: t). rewrite H. cbn. rewrite <- app_assoc. reflexivity.
Qed.

Lemma same_stream_refl (us : UploadStream) : same_stream us us.
Proof. repeat split. Qed.

Lemma same_stream_trans (us us1 us2 : UploadStream) :
  same_stream us us1 -> same_stream us1 us2 -> same_stream us us2.
Proof. unfold same_stream. intuition congruence. Qed.

Lemma no_faults_next (w : World) : no_faults w -> next_fault w = None.
Proof.
  unfold no_faults, next_fault. destruct (faults w) as [|f fs]; [reflexivity|].
  intros H. inversion H; subst. reflexivity.
Qed.

Lemma no_faults_pop (w : World) : no_faults w -> no_faults (pop_fault w).
Proof.
  unfold no_faults, pop_fault; cbn. destruct (faults w) as [|f fs]; cbn; [auto|].
  intros H. inversion H; assumption.
Qed.

Lemma us_uploadChunk_run (us : UploadStream) (w : World) :
  us_uploadChunk us w =
    let chunk := [("_id", VObjectID (next_oid w)); ("files_id", FileID us);
                  ("n", VInt32 (us_n us)); ("data", VBinary (us_buffer us))] in
    let w1 := log (EvInsertOne (coll_name (us_chunksColl us)) chunk)
                  (pop_fault (snd (NewObjectID w))) in
    match next_fault w with
    | Some e => ((us, Some e), w1)
    | None =>
        ((us_set us (us_state us) [] (us_n us + 1) (us_length us), None),
         put_coll (coll_name (us_chunksColl us))
           (mkCollData (docs (getColl (coll_name (us_chunksColl us)) w) ++ [chunk])
                       (indexes (getColl (coll_name (us_chunksColl us)) w))) w1)
    end.
Proof.
  unfold us_uploadChunk. rewrite !bind_run, Collection_InsertOne_run. cbv zeta.
  cbn [NewObjectID fst snd].
  change (next_fault (mkWorld (store w) (faults w) (trace w) (now w) (next_oid w + 1)))
    with (next_fault w).
  destruct (next_fault w); reflexivity.
Qed.

(** Persisting a chunk keeps the stream's identity and state, only adds
    calls to the trace, and succeeds when no failure is injected. *)
Lemma us_uploadChunk_props (us : UploadStream) (w : World) :
  let r := us_uploadChunk us w in
  same_stream us (fst (fst r))
  /\ us_state (fst (fst r)) = us_state us
  /\ extends w (snd r)
  /\ (no_faults w -> snd (fst r) = None /\ no_faults (snd r)).
Proof.
  cbv zeta. rewrite us_uploadChunk_run. cbv zeta.
  destruct (next_fault w) eqn:Hf; cbn [fst snd].
  - repeat split.
    + eexists; reflexivity.
    + apply no_faults_next in H. congruence.
    + apply no_faults_next in H. congruence.
  - repeat split.
    + eexists; reflexivity.
    + apply no_faults_pop in H. exact H.
Qed.

Lemma us_append_props (p : list byte) (us : UploadStream) (w : World) :
  let r := us_append us p w in
  same_stream us (fst (fst r))
  /\ us_state (fst (fst r)) = us_state us
  /\ extends w (snd r)
  /\ (no_faults w -> snd (fst r) = None /\ no_faults (snd r)).
Proof.
  cbv zeta. revert us w. induction p as [|x p IH]; intros us w; cbn [us_append].
  - cbn. repeat split; auto using extends_refl.
  - set (us1 := us_set us (us_state us) (us_buffer us ++ [x]) (us_n us)
                  (us_length us + 1)).
    assert (S1 : same_stream us us1) by (repeat split).
    assert (T1 : us_state us1 = us_state us) by reflexivity.
    destruct (Z.of_nat (length (us_buffer us1)) =? up_chunkSize (us_upload us1)).
    + rewrite bind_run.
      destruct (us_uploadChunk_props us1 w) as (S2 & T2 & E2 & F2).
      cbv zeta in S2, T2, E2, F2.
      destruct (us_uploadChunk us1 w) as [[us2 err] w2]. cbn [fst snd] in *.
      destruct err as [e|].
      * unfold ret; cbn [fst snd]. split; [exact (same_stream_trans _ _ _ S1 S2)|].
        split; [congruence|]. split; [exact E2|].
        intros H. destruct (F2 H) as [? _]. discriminate.
      * destruct (IH us2 w2) as (S3 & T3 & E3 & F3).
        split; [exact (same_stream_trans _ _ _ (same_stream_trans _ _ _ S1 S2) S3)|].
        split; [congruence|]. split; [eapply extends_trans; eauto|].
        intros H. apply F3. apply F2. exact H.
    + destruct (IH us1 w) as (S3 & T3 & E3 & F3).
      split; [exact (same_stream_trans _ _ _ S1 S3)|].
      split; [congruence|]. split; [exact E3|exact F3].
Qed.

(** [Write] keeps the stream's identity and state, only adds calls to
    the trace, and on an open stream succeeds when no failure is
    injected. *)
Lemma UploadStream_Write_props (us : UploadStream) (p : list byte) (w : World) :
  let r := UploadStream_Write us p w in
  same_stream us (fst (fst (fst r)))
  /\ us_state (fst (fst (fst r))) = us_state us
  /\ extends w (snd r)
  /\ (us_state us = Open -> no_faults w -> snd (fst r) = None /\ no_faults (snd r)).
Proof.
  cbv zeta. unfold UploadStream_Write. rewrite bind_run. cbn [emit fst snd].
  destruct (us_state us) eqn:Hst.
  - rewrite bind_run.
    destruct (us_append_props p us (log (EvUploadWrite (FileID us) (length p)) w))
      as (S & T & E & F).
    cbv zeta in S, T, E, F.
    destruct (us_append us p _) as [[us' err] w']. cbn [fst snd] in *.
    destruct err; unfold ret; cbn [fst snd]; (split; [exact S|split; [congruence|split;
      [apply extends_log in E; exact E|]]]).
    + intros _ H. destruct (F H). discriminate.
    + intros _ H. destruct (F H). split; [reflexivity|assumption].
  - unfold ret; cbn [fst snd]. split; [apply same_stream_refl|].
    split; [exact Hst|]. split; [eexists; reflexivity|]. discriminate.
  - unfold ret; cbn [fst snd]. split; [apply same_stream_refl|].
    split; [exact Hst|]. split; [eexists; reflexivity|]. discriminate.
Qed.

Lemma no_faults_log (ev : Event) (w : World) : no_faults w -> no_faults (log ev w).
Proof. intros H. exact H. Qed.

(** [Close] is recorded first of all it does. *)
Lemma UploadStream_Close_trace (us : UploadStream) (w : World) :
  exists tr, trace (snd (UploadStream_Close us w)) =
               trace w ++ EvUploadClose (FileID us) :: tr.
Proof.
  unfold UploadStream_Close. rewrite bind_run. cbn [emit fst snd].
  set (w0 := log (EvUploadClose (FileID us)) w).
  assert (E0 : forall w', extends w0 w' ->
                 exists tr, trace w' = trace w ++ EvUploadClose (FileID us) :: tr).
  { intros w' [tr H]. exists tr. rewrite H. subst w0. cbn. rewrite <- app_assoc.
    reflexivity. }
  destruct (us_state us); try (apply E0, extends_refl).
  rewrite bind_run.
  assert (E1 : extends w0 (snd (match us_buffer us with
                                | [] => ret (us, None)
                                | _ :: _ => us_uploadChunk us
                                end w0))).
  { destruct (us_buffer us); [apply extends_refl|]. apply us_uploadChunk_props. }
  destruct (match us_buffer us with [] => ret (us, None) | _ :: _ => us_uploadChunk us end
              w0) as [[us1 err] w1]. cbn [fst snd] in *.
  destruct err; [apply E0, E1|].
  rewrite !bind_run, Collection_InsertOne_run. cbv zeta. cbn [clock fst snd].
  apply E0. eapply extends_trans; [exact E1|].
  destruct (next_fault w1); cbn; eexists; reflexivity.
Qed.

(** A [Close] that succeeds leaves the stream Closed and has, as its
    last call, inserted the metadata document of the file. *)
Lemma UploadStream_Close_success (us us' : UploadStream) (w w' : World) :
  UploadStream_Close us w = ((us', None), w') ->
  us_state us' = Closed
  /\ same_stream us us'
  /\ exists tr d,
       trace w' = trace w ++ EvUploadClose (FileID us) :: tr
                    ++ [EvInsertOne (coll_name (us_filesColl us)) d]
       /\ In d (docs (getColl (coll_name (us_filesColl us)) w'))
       /\ Lookup "_id" d = Some (FileID us)
       /\ Lookup "filename" d = Some (VString (us_filename us)).
Proof.
  unfold UploadStream_Close. rewrite bind_run. cbn [emit fst snd].
  set (w0 := log (EvUploadClose (FileID us)) w).
  destruct (us_state us); try (unfold ret; discriminate).
  rewrite bind_run.
  assert (P1 : let r := match us_buffer us with
                        | [] => ret (us, None)
                        | _ :: _ => us_uploadChunk us
                        end w0 in
               same_stream us (fst (fst r)) /\ extends w0 (snd r)).
  { cbv zeta. destruct (us_buffer us).
    - split; [apply same_stream_refl|apply extends_refl].
    - destruct (us_uploadChunk_props us w0) as (S & _ & E & _). split; assumption. }
  cbv zeta in P1.
  destruct (match us_buffer us with [] => ret (us, None) | _ :: _ => us_uploadChunk us end
              w0) as [[us1 err] w1]. cbn [fst snd] in *.
  destruct P1 as [S1 [tr1 E1]].
  destruct err; [unfold ret; discriminate|].
  rewrite !bind_run, Collection_InsertOne_run. cbv zeta. cbn [clock fst snd].
  destruct (next_fault w1); unfold ret; [discriminate|].
  intros H. inversion H; subst us' w'; clear H.
  destruct S1 as (Sid & Sname & Schunks & Sfiles & Sup).
  split; [reflexivity|]. split; [repeat split; assumption|].
  exists tr1, (us_filesDoc us1 (now w1)). rewrite Sfiles. split; [|split; [|split]].
  - cbn. rewrite E1. subst w0. cbn. rewrite <- !app_assoc. reflexivity.
  - rewrite getColl_put_coll_eq. cbn. apply in_or_app. right. left.
    reflexivity.
  - cbn. rewrite Sid. reflexivity.
  - cbn. rewrite Sname. reflexivity.
Qed.

(** On an open stream [Close] succeeds when no failure is injected. *)
Lemma UploadStream_Close_no_faults (us : UploadStream) (w : World) :
  us_state us = Open -> no_faults w ->
  snd (fst (UploadStream_Close us w)) = None.
Proof.
  intros Hst Hnf. unfold UploadStream_Close. rewrite bind_run. cbn [emit fst snd].
  rewrite Hst. rewrite bind_run.
  set (w0 := log (EvUploadClose (FileID us)) w).
  assert (P1 : let r := match us_buffer us with
                        | [] => ret (us, None)
                        | _ :: _ => us_uploadChunk us
                        end w0 in
               snd (fst r) = None /\ no_faults (snd r)).
  { cbv zeta. destruct (us_buffer us).
    - split; [reflexivity|exact Hnf].
    - apply us_uploadChunk_props. exact Hnf. }
  cbv zeta in P1.
  destruct (match us_buffer us with [] => ret (us, None) | _ :: _ => us_uploadChunk us end
              w0) as [[us1 err] w1]. cbn [fst snd] in *.
  destruct P1 as [-> Hnf1].
  rewrite !bind_run, Collection_InsertOne_run. cbv zeta. cbn [clock fst snd].
  rewrite (no_faults_next _ Hnf1). reflexivity.
Qed.

(** [Abort] on an open stream: the call is recorded, then the chunks of
    the file are deleted. *)
Lemma UploadStream_Abort_Open (us : UploadStream) (w : World) :
  us_state us = Open ->
  trace (snd (UploadStream_Abort us w)) =
    trace w ++ [EvUploadAbort (FileID us);
                EvDeleteMany (coll_name (us_chunksColl us)) [("files_id", FileID us)]]
  /\ us_state (fst (fst (UploadStream_Abort us w))) = Aborted.
Proof.
  intros Hst. unfold UploadStream_Abort. rewrite bind_run. cbn [emit fst snd].
  rewrite Hst. rewrite bind_run, Collection_DeleteMany_run. cbv zeta.
  rewrite next_fault_log.
  destruct (next_fault w); cbn; rewrite <- app_assoc; split; reflexivity.
Qed.

(** The write of one pass of the loop, made only for a read that
    brought bytes. *)
Lemma write_step_props (c : bool) (us : UploadStream) (p : list byte) (w : World) :
  let wr := (if c then UploadStream_Write us p else ret (us, 0, None)) w in
  same_stream us (fst (fst (fst wr)))
  /\ us_state (fst (fst (fst wr))) = us_state us
  /\ (us_state us = Open -> no_faults w -> snd (fst wr) = None /\ no_faults (snd wr)).
Proof.
  destruct c; cbv zeta.
  - destruct (UploadStream_Write_props us p w) as (S & T & _ & F). auto.
  - cbn. split; [apply same_stream_refl|]. auto.
Qed.

Lemma app_cons_not_tail {A : Type} (pre : list A) (r : A) (rest : list A) :
  pre ++ r :: rest <> rest.
Proof.
  intros H. apply (f_equal (@length A)) in H. rewrite length_app in H. cbn in H. lia.
Qed.

Lemma read_fails_cond (r : ReadResult) :
  read_fails r ->
  match rr_err r with Some _ => negb (is_EOF (rr_err r)) | None => false end = true.
Proof. intros (e & -> & Hne). destruct e; try reflexivity. congruence. Qed.

Lemma not_read_fails_cond (r : ReadResult) :
  ~ read_fails r ->
  match rr_err r with Some _ => negb (is_EOF (rr_err r)) | None => false end = false.
Proof.
  intros H. destruct (rr_err r) as [e|] eqn:E; [|reflexivity].
  destruct e; try reflexivity; exfalso; apply H; eexists; split; eauto; discriminate.
Qed.

(** When the loop stops right after a read that failed, it has aborted
    the stream after that read and returns the error of the read. *)
Lemma uploadLoop_read_fails (pre : list ReadResult) :
  forall (b : Bucket) (us : UploadStream) (w : World) (r : ReadResult) (rest : Reader),
    read_fails r -> us_state us = Open ->
    let out := uploadLoop b us (pre ++ r :: rest) w in
    snd (fst (fst out)) = rest ->
    snd (fst out) = rr_err r
    /\ exists tr0,
         trace (snd out) =
           tr0 ++ [EvSourceRead; EvUploadAbort (FileID us);
                   EvDeleteMany (coll_name (us_chunksColl us)) [("files_id", FileID us)]].
Proof.
  induction pre as [|p pre IH]; intros b us w r rest Hr Hst; cbv zeta.
  - cbn [app]. rewrite uploadLoop_cons. cbv zeta. rewrite (read_fails_cond r Hr).
    cbn [fst snd]. intros _. split; [reflexivity|].
    destruct (UploadStream_Abort_Open us (log EvSourceRead w) Hst) as [Ht _].
    rewrite Ht. exists (trace w). cbn. rewrite <- app_assoc. reflexivity.
  - cbn [app]. rewrite uploadLoop_cons. cbv zeta.
    destruct (match rr_err p with Some _ => _ | None => false end).
    + cbn [fst snd]. intros H. exfalso. exact (app_cons_not_tail _ _ _ H).
    + match goal with |- context [(if ?c then UploadStream_Write us ?q else _) ?w1] =>
        destruct (write_step_props c us q w1) as (S & T & _);
        destruct ((if c then UploadStream_Write us q else ret (us, 0, None)) w1)
          as [[[us' k] werr] w2]
      end.
      cbn [fst snd] in *. destruct werr.
      * cbn [fst snd]. intros H. exfalso. exact (app_cons_not_tail _ _ _ H).
      * destruct (_ || is_EOF (rr_err p)).
        -- cbn [fst snd]. intros H. exfalso. exact (app_cons_not_tail _ _ _ H).
        -- intros H. destruct S as (Sid & _ & Schunks & _).
           rewrite <- Sid, <- Schunks. apply IH; [exact Hr|congruence|exact H].
Qed.

(** When the loop returns without error it has closed the stream, and
    the metadata document of the file is in the files collection. *)
Lemma uploadLoop_success (source : Reader) :
  forall (b : Bucket) (us : UploadStream) (w : World),
    let out := uploadLoop b us source w in
    snd (fst out) = None ->
    us_state (snd (fst (fst (fst out)))) = Closed
    /\ exists tr0 tr1 d,
         trace (snd out) =
           tr0 ++ EvUploadClose (FileID us) :: tr1
               ++ [EvInsertOne (coll_name (us_filesColl us)) d]
         /\ In d (docs (getColl (coll_name (us_filesColl us)) (snd out)))
         /\ Lookup "_id" d = Some (FileID us)
         /\ Lookup "filename" d = Some (VString (us_filename us)).
Proof.
  assert (Hclose : forall (b : Bucket) (us0 us : UploadStream) (rest : Reader) (w : World),
            same_stream us0 us ->
            let c := UploadStream_Close us w in
            let out := ((b, fst (fst c), rest, snd (fst c)), snd c) in
            snd (fst out) = None ->
            us_state (snd (fst (fst (fst out)))) = Closed
            /\ exists tr0 tr1 d,
                 trace (snd out) =
                   tr0 ++ EvUploadClose (FileID us0) :: tr1
                       ++ [EvInsertOne (coll_name (us_filesColl us0)) d]
                 /\ In d (docs (getColl (coll_name (us_filesColl us0)) (snd out)))
                 /\ Lookup "_id" d = Some (FileID us0)
                 /\ Lookup "filename" d = Some (VString (us_filename us0))).
  { intros b us0 us rest w (Sid & Sname & _ & Sfiles & _). cbv zeta. cbn [fst snd].
    destruct (UploadStream_Close us w) as [[us' err] w'] eqn:E. cbn [fst snd].
    intros ->. destruct (UploadStream_Close_success _ _ _ _ E)
      as (Hc & _ & tr & d & Ht & Hin & Hid & Hname).
    split; [exact Hc|]. exists (trace w), tr, d.
    rewrite <- Sid, <- Sname, <- Sfiles. repeat split; assumption. }
  induction source as [|p source IH]; intros b us w; cbv zeta.
  - rewrite uploadLoop_nil. apply (Hclose b us us [] _ (same_stream_refl us)).
  - rewrite uploadLoop_cons. cbv zeta.
    destruct (match rr_err p with Some _ => _ | None => false end) eqn:Hc.
    + cbn [fst snd]. intros H. destruct (rr_err p); discriminate.
    + match goal with |- context [(if ?c then UploadStream_Write us ?q else _) ?w1] =>
        destruct (write_step_props c us q w1) as (S & T & _);
        destruct ((if c then UploadStream_Write us q else ret (us, 0, None)) w1)
          as [[[us' k] werr] w2]
      end.
      cbn [fst snd] in *. destruct werr; [cbn [fst snd]; discriminate|].
      destruct (_ || is_EOF (rr_err p)).
      * apply (Hclose b us us' source w2 S).
      * intros H. destruct (IH _ us' w2 H) as (Hcl & tr0 & tr1 & d & Hd).
        destruct S as (Sid & Sname & _ & Sfiles & _).
        rewrite Sid, Sname, Sfiles in Hd.
        split; [exact Hcl|]. exists tr0, tr1, d. exact Hd.
Qed.

(** With an open stream, no failure injected and no failing read, the
    loop returns without error. *)
Lemma uploadLoop_no_faults (source : Reader) :
  forall (b : Bucket) (us : UploadStream) (w : World),
    us_state us = Open -> no_faults w ->
    Forall (fun r => ~ read_fails r) source ->
    snd (fst (uploadLoop b us source w)) = None.
Proof.
  induction source as [|p source IH]; intros b us w Hst Hnf Hsrc.
  - rewrite uploadLoop_nil. cbv zeta. cbn [fst snd].
    apply UploadStream_Close_no_faults; assumption.
  - inversion Hsrc as [|? ? Hp Hrest]; subst.
    rewrite uploadLoop_cons. cbv zeta. rewrite (not_read_fails_cond p Hp).
    match goal with |- context [(if ?c then UploadStream_Write us ?q else _) ?w1] =>
      destruct (write_step_props c us q w1) as (S & T & F);
      destruct ((if c then UploadStream_Write us q else ret (us, 0, None)) w1)
        as [[[us' k] werr] w2]
    end.
    cbn [fst snd] in *. destruct (F Hst (no_faults_log _ _ Hnf)) as [-> Hnf2].
    destruct (_ || is_EOF (rr_err p)).
    + cbn [fst snd]. apply UploadStream_Close_no_faults; [congruence|assumption].
    + apply IH; [congruence|assumption|assumption].
Qed.

(** The stream [OpenUploadStreamWithID] returns is open and bound to the
    file, the name and the two collections of the bucket. *)
Lemma OpenUploadStreamWithID_Ok (b b1 : Bucket) (fileID : Value) (filename : string)
    (opts : list (option UploadOptions)) (w w1 : World) (us : UploadStream) :
  OpenUploadStreamWithID b fileID filename opts w = ((b1, Ok us), w1) ->
  us_state us = Open /\ FileID us = fileID /\ us_filename us = filename
  /\ us_chunksColl us = chunksColl b /\ us_filesColl us = filesColl b
  /\ readBuf b1 = readBuf b.
Proof.
  unfold OpenUploadStreamWithID.
  destruct (deadlineContext (writeDeadline b)) as [ctx cancel].
  rewrite bind_run.
  pose proof (checkFirstWrite_bucket b ctx w) as [Bok Berr]. cbv zeta in Bok, Berr.
  destruct (checkFirstWrite b ctx w) as [[b' err] w']. cbn [fst snd] in *.
  destruct err; [unfold ret; discriminate|].
  rewrite (Bok eq_refl).
  destruct (parseUploadOptions _ opts); unfold ret; [|discriminate].
  intros H. inversion H; subst. repeat split.
Qed.

Lemma empty_read_cond (r : ReadResult) :
  rr_err r = None ->
  match rr_err r with Some _ => negb (is_EOF (rr_err r)) | None => false end = false.
Proof. intros ->. reflexivity. Qed.

(** The loop never reads past a read of 0 bytes without error, and when
    it stops there it has invoked [Close] right after that read. *)
Lemma uploadLoop_stops_at_empty_read (pre : list ReadResult) :
  forall (b : Bucket) (us : UploadStream) (w : World) (rest : Reader),
    let out := uploadLoop b us (pre ++ mkReadResult [] None :: rest) w in
    (length rest <= length (snd (fst (fst out))))%nat
    /\ (snd (fst (fst out)) = rest ->
        exists tr0 tr1,
          trace (snd out) = tr0 ++ EvSourceRead :: EvUploadClose (FileID us) :: tr1).
Proof.
  induction pre as [|p pre IH]; intros b us w rest; cbv zeta.
  - cbn [app]. rewrite uploadLoop_cons. cbv zeta.
    cbn [rr_err rr_data]. rewrite firstn_nil. cbn [length].
    change (Z.of_nat 0) with 0. cbn [Z.ltb Z.eqb orb Z.compare fst snd ret].
    unfold ret; cbn [fst snd].
    split; [lia|]. intros _.
    destruct (UploadStream_Close_trace us (log EvSourceRead w)) as [tr Ht].
    exists (trace w), tr. rewrite Ht. cbn. rewrite <- app_assoc. reflexivity.
  - cbn [app]. rewrite uploadLoop_cons. cbv zeta.
    assert (Hlen : (length rest <= length (pre ++ mkReadResult [] None :: rest))%nat)
      by (rewrite length_app; cbn; lia).
    destruct (match rr_err p with Some _ => _ | None => false end).
    + cbn [fst snd]. split; [exact Hlen|].
      intros H. exfalso. exact (app_cons_not_tail _ _ _ H).
    + match goal with |- context [(if ?c then UploadStream_Write us ?q else _) ?w1] =>
        destruct (write_step_props c us q w1) as (S & T & _);
        destruct ((if c then UploadStream_Write us q else ret (us, 0, None)) w1)
          as [[[us' k] werr] w2]
      end.
      cbn [fst snd] in *. destruct werr.
      * cbn [fst snd]. split; [exact Hlen|].
        intros H. exfalso. exact (app_cons_not_tail _ _ _ H).
      * destruct (_ || is_EOF (rr_err p)).
        -- cbn [fst snd]. split; [exact Hlen|].
           intros H. exfalso. exact (app_cons_not_tail _ _ _ H).
        -- destruct S as (Sid & _). rewrite <- Sid. apply IH.
Qed.

Lemma length_read_buffer (buf data : list byte) :
  length (firstn (length buf) data ++ skipn (length (firstn (length buf) data)) buf) =
  length buf.
Proof.
  rewrite length_app, length_skipn, length_firstn. lia.
Qed.

(** With an open stream, a non-empty buffer and no failure injected, the
    loop gets through reads that bring bytes without error, stops at the
    read of 0 bytes without error and returns without error. *)
Lemma uploadLoop_reaches_empty_read (pre : list ReadResult) :
  forall (b : Bucket) (us : UploadStream) (w : World) (rest : Reader),
    us_state us = Open -> no_faults w -> readBuf b <> [] ->
    Forall (fun p => rr_err p = None /\ rr_data p <> []) pre ->
    let out := uploadLoop b us (pre ++ mkReadResult [] None :: rest) w in
    snd (fst (fst out)) = rest /\ snd (fst out) = None.
Proof.
  induction pre as [|p pre IH]; intros b us w rest Hst Hnf Hbuf Hpre; cbv zeta.
  - cbn [app]. rewrite uploadLoop_cons. cbv zeta.
    cbn [rr_err rr_data]. rewrite firstn_nil. cbn [length].
    change (Z.of_nat 0) with 0. cbn [Z.ltb Z.eqb orb Z.compare fst snd ret].
    unfold ret; cbn [fst snd].
    split; [reflexivity|]. apply UploadStream_Close_no_faults; assumption.
  - inversion Hpre as [|? ? [Hperr Hpdata] Hrest]; subst.
    cbn [app]. rewrite uploadLoop_cons. cbv zeta.
    rewrite (empty_read_cond p Hperr), Hperr.
    assert (Hn : (0 < length (firstn (length (readBuf b)) (rr_data p)))%nat).
    { rewrite length_firstn. destruct (readBuf b); [congruence|].
      destruct (rr_data p); [congruence|]. cbn. lia. }
    match goal with |- context [(if ?c then UploadStream_Write us ?q else _) ?w1] =>
      destruct (write_step_props c us q w1) as (S & T & F);
      destruct ((if c then UploadStream_Write us q else ret (us, 0, None)) w1)
        as [[[us' k] werr] w2]
    end.
    cbn [fst snd] in *. destruct (F Hst (no_faults_log _ _ Hnf)) as [-> Hnf2].
    destruct (Z.eqb_spec (Z.of_nat (length (firstn (length (readBuf b)) (rr_data p)))) 0)
      as [E|_]; [lia|].
    cbn [orb is_EOF]. apply IH; [congruence|exact Hnf2| |exact Hrest].
    cbn [set_readBuf readBuf]. intros E.
    apply (f_equal (@length byte)) in E. rewrite length_read_buffer in E.
    destruct (readBuf b); [congruence|discriminate].
Qed.

(** [UploadFromStreamWithID] in terms of its parts: the opening of the
    stream, then the loop on the stream with its deadline set. *)
Lemma UploadFromStreamWithID_stream_run (b : Bucket) (fileID : Value) (filename : string)
    (source : Reader) (opts : list (option UploadOptions)) (w : World) :
  UploadFromStreamWithID_stream b fileID filename source opts w =
    match OpenUploadStreamWithID b fileID filename opts w with
    | ((b1, Err e), w1) => ((b1, None, source, Some e), w1)
    | ((b1, Ok us), w1) =>
        match UploadStream_SetWriteDeadline us (writeDeadline b1) with
        | (us1, Some e) =>
            let c := UploadStream_Close us1 w1 in
            ((b1, Some (fst (fst c)), source, Some e), snd c)
        | (us1, None) =>
            let out := uploadLoop b1 us1 source w1 in
            ((fst (fst (fst (fst out))), Some (snd (fst (fst (fst out)))),
              snd (fst (fst out)), snd (fst out)), snd out)
        end
    end.
Proof.
  unfold UploadFromStreamWithID_stream. rewrite bind_run.
  destruct (OpenUploadStreamWithID b fileID filename opts w) as [[b1 [us|e]] w1];
    cbn [fst snd]; [|reflexivity].
  destruct (UploadStream_SetWriteDeadline us (writeDeadline b1)) as [us1 [e|]].
  - rewrite bind_run. reflexivity.
  - rewrite bind_run. destruct (uploadLoop b1 us1 source w1) as [[[[b2 us2] left] err] w2].
    reflexivity.
Qed.

Lemma UploadFromStreamWithID_run (b : Bucket) (fileID : Value) (filename : string)
    (source : Reader) (opts : list (option UploadOptions)) (w : World) :
  UploadFromStreamWithID b fileID filename source opts w =
    let out := UploadFromStreamWithID_stream b fileID filename source opts w in
    ((fst (fst (fst (fst out))), snd (fst (fst out)), snd (fst out)), snd out).
Proof.
  unfold UploadFromStreamWithID. rewrite bind_run. cbv zeta.
  destruct (UploadFromStreamWithID_stream b fileID filename source opts w)
    as [[[[b1 us] left] err] w1]. reflexivity.
Qed.

Lemma SetWriteDeadline_Open (us : UploadStream) (t : Time) :
  us_state us = Open ->
  exists us1, UploadStream_SetWriteDeadline us t = (us1, None)
              /\ us_state us1 = Open /\ same_stream us us1.
Proof.
  intros H. unfold UploadStream_SetWriteDeadline. rewrite H.
  eexists. split; [reflexivity|]. split; [reflexivity|]. repeat split.
Qed.

(** C8: whenever [UploadFromStreamWithID] stops at a read of the source
    that returned an error other than [io.EOF], it has invoked [Abort] on
    the stream right after that read, deleting the chunks written, and
    returns the error of the read.  Whenever it returns without error it
    has invoked [Close], the stream is Closed and the metadata document
    is in the files collection.  And when the stream was opened, the
    source has no failing read and the store fails no call, it does
    return without error. *)
Theorem UploadFromStreamWithID_abort_or_close :
  forall (b : Bucket) (fileID : Value) (filename : string) (source : Reader)
         (opts : list (option UploadOptions)) (w : World),
    let out := UploadFromStreamWithID b fileID filename source opts w in
    let err := snd (fst out) in
    let left := snd (fst (fst out)) in
    (forall pre r rest,
        source = pre ++ r :: rest -> read_fails r -> left = rest ->
        err = rr_err r
        /\ exists tr0,
             trace (snd out) =
               tr0 ++ [EvSourceRead; EvUploadAbort fileID;
                       EvDeleteMany (coll_name (chunksColl b)) [("files_id", fileID)]])
    /\ (err = None ->
        (exists us,
            snd (fst (fst (fst (UploadFromStreamWithID_stream b fileID filename source
                                  opts w)))) = Some us
            /\ us_state us = Closed)
        /\ exists tr0 tr1 d,
             trace (snd out) =
               tr0 ++ EvUploadClose fileID :: tr1
                   ++ [EvInsertOne (coll_name (filesColl b)) d]
             /\ In d (docs (getColl (coll_name (filesColl b)) (snd out)))
             /\ Lookup "_id" d = Some fileID
             /\ Lookup "filename" d = Some (VString filename))
    /\ (forall b1 us w1,
          OpenUploadStreamWithID b fileID filename opts w = ((b1, Ok us), w1) ->
          no_faults w1 ->
          Forall (fun r => ~ read_fails r) source ->
          err = None).
Proof.
  intros b fileID filename source opts w out err left. subst out err left.
  rewrite UploadFromStreamWithID_run. cbv zeta. cbn [fst snd].
  rewrite UploadFromStreamWithID_stream_run.
  destruct (OpenUploadStreamWithID b fileID filename opts w) as [[b1 [us|e]] w1] eqn:Ho.
  - destruct (OpenUploadStreamWithID_Ok _ _ _ _ _ _ _ _ Ho)
      as (Hst & Hid & Hname & Hchunks & Hfiles & _).
    destruct (SetWriteDeadline_Open us (writeDeadline b1) Hst)
      as (us1 & -> & Hst1 & (Sid & Sname & Schunks & Sfiles & _)).
    cbv zeta. cbn [fst snd].
    rewrite <- Hid, <- Hname, <- Hchunks, <- Hfiles.
    rewrite <- Sid, <- Sname, <- Schunks, <- Sfiles.
    split; [|split].
    + intros pre r rest -> Hr Hleft.
      apply (uploadLoop_read_fails pre b1 us1 w1 r rest Hr Hst1 Hleft).
    + intros Herr.
      destruct (uploadLoop_success source b1 us1 w1 Herr) as (Hcl & Htr).
      split; [|exact Htr]. eexists. split; [reflexivity|exact Hcl].
    + intros b1' us' w1' H Hnf Hsrc. inversion H; subst b1' us' w1'.
      apply uploadLoop_no_faults; assumption.
  - cbn [fst snd]. split; [|split].
    + intros pre r rest -> _ H. exfalso. exact (app_cons_not_tail _ _ _ H).
    + discriminate.
    + intros b1' us' w1' H. discriminate.
Qed.

Lemma UploadFromStreamWithID_abort_or_close_witness :
  let failing := [mkReadResult [x61; x62] None; mkReadResult [] (Some (SourceError 5));
                  mkReadResult [x63] None] in
  let out := UploadFromStreamWithID Example.bucket (VObjectID 9) "a.txt" failing []
               (Example.fresh []) in
  let good := [mkReadResult [x61; x62] None; mkReadResult [x63] (Some EOF)] in
  let out' := UploadFromStreamWithID Example.bucket (VObjectID 9) "a.txt" good []
                (Example.fresh []) in
  (read_fails (mkReadResult [] (Some (SourceError 5)))
   /\ snd (fst out) = Some (SourceError 5)
   /\ exists tr0,
        trace (snd out) =
          tr0 ++ [EvSourceRead; EvUploadAbort (VObjectID 9);
                  EvDeleteMany "fs.chunks" [("files_id", VObjectID 9)]])
  /\ (snd (fst out') = None
      /\ exists d,
           In d (docs (getColl "fs.files" (snd out')))
           /\ Lookup "_id" d = Some (VObjectID 9)
           /\ Lookup "filename" d = Some (VString "a.txt")).
Proof.
  intros failing out good out'. split.
  - assert (Hr : read_fails (mkReadResult [] (Some (SourceError 5))))
      by (exists (SourceError 5); split; [reflexivity|discriminate]).
    split; [exact Hr|].
    destruct (UploadFromStreamWithID_abort_or_close Example.bucket (VObjectID 9) "a.txt"
                failing [] (Example.fresh [])) as [H _].
    apply (H [mkReadResult [x61; x62] None] (mkReadResult [] (Some (SourceError 5)))
             [mkReadResult [x63] None] eq_refl Hr).
    vm_compute. reflexivity.
  - destruct (UploadFromStreamWithID_abort_or_close Example.bucket (VObjectID 9) "a.txt"
                good [] (Example.fresh [])) as (_ & Hclose & Hok).
    cbv zeta in Hclose, Hok. fold out' in Hclose, Hok.
    assert (Hopen : exists b1 us w1,
              OpenUploadStreamWithID Example.bucket (VObjectID 9) "a.txt" []
                (Example.fresh []) = ((b1, Ok us), w1) /\ no_faults w1).
    { eexists _, _, _. split; [vm_compute; reflexivity|]. constructor. }
    destruct Hopen as (b1 & us & w1 & Ho & Hnf).
    assert (Hsrc : Forall (fun r => ~ read_fails r) good).
    { repeat constructor; intros (e & He & Hne); cbn in He; congruence. }
    pose proof (Hok b1 us w1 Ho Hnf Hsrc) as Herr.
    split; [exact Herr|].
    destruct (Hclose Herr) as (_ & tr0 & tr1 & d & _ & Hd). exists d. exact Hd.
Defined.

(** C10: a read of the source that returns 0 bytes and a nil error ends
    the upload.  [UploadFromStreamWithID] never reads past such a read;
    when it stops there it has invoked [Close] right after the read, and
    if it returns without error the stream is Closed and the metadata
    document is in the files collection.  And when the stream was
    opened, the reads before bring bytes without error and the store
    fails no call, it does stop there and returns without error. *)
Theorem UploadFromStreamWithID_empty_read_ends_upload :
  forall (b : Bucket) (fileID : Value) (filename : string)
         (opts : list (option UploadOptions)) (w : World)
         (pre : list ReadResult) (rest : Reader),
    let source := pre ++ mkReadResult [] None :: rest in
    let out := UploadFromStreamWithID b fileID filename source opts w in
    let err := snd (fst out) in
    let left := snd (fst (fst out)) in
    (length rest <= length left)%nat
    /\ (left = rest ->
        (exists tr0 tr1,
            trace (snd out) = tr0 ++ EvSourceRead :: EvUploadClose fileID :: tr1)
        /\ (err = None ->
            (exists us,
                snd (fst (fst (fst (UploadFromStreamWithID_stream b fileID filename
                                      source opts w)))) = Some us
                /\ us_state us = Closed)
            /\ exists d,
                 In d (docs (getColl (coll_name (filesColl b)) (snd out)))
                 /\ Lookup "_id" d = Some fileID
                 /\ Lookup "filename" d = Some (VString filename)))
    /\ (forall b1 us w1,
          OpenUploadStreamWithID b fileID filename opts w = ((b1, Ok us), w1) ->
          no_faults w1 -> readBuf b <> [] ->
          Forall (fun p => rr_err p = None /\ rr_data p <> []) pre ->
          left = rest /\ err = None).
Proof.
  intros b fileID filename opts w pre rest source out err left.
  subst out err left.
  rewrite UploadFromStreamWithID_run. cbv zeta. cbn [fst snd].
  rewrite UploadFromStreamWithID_stream_run.
  destruct (OpenUploadStreamWithID b fileID filename opts w) as [[b1 [us|e]] w1] eqn:Ho.
  - destruct (OpenUploadStreamWithID_Ok _ _ _ _ _ _ _ _ Ho)
      as (Hst & Hid & Hname & Hchunks & Hfiles & Hbuf).
    destruct (SetWriteDeadline_Open us (writeDeadline b1) Hst)
      as (us1 & -> & Hst1 & (Sid & Sname & Schunks & Sfiles & _)).
    cbv zeta. cbn [fst snd].
    rewrite <- Hid, <- Hname, <- Hfiles, <- Sid, <- Sname, <- Sfiles.
    destruct (uploadLoop_stops_at_empty_read pre b1 us1 w1 rest) as [Hlen Hstop].
    cbv zeta in Hlen, Hstop. fold source in Hlen, Hstop.
    split; [exact Hlen|]. split.
    + intros Hleft. split; [exact (Hstop Hleft)|].
      intros Herr.
      destruct (uploadLoop_success source b1 us1 w1 Herr)
        as (Hcl & tr0 & tr1 & d & _ & Hin & Hd).
      split; [eexists; split; [reflexivity|exact Hcl]|].
      exists d. split; [exact Hin|exact Hd].
    + intros b1' us' w1' H Hnf Hb Hpre. inversion H; subst b1' us' w1'.
      apply uploadLoop_reaches_empty_read; try assumption. congruence.
  - cbn [fst snd]. split; [subst source; rewrite length_app; cbn; lia|]. split.
    + intros H. exfalso. exact (app_cons_not_tail _ _ _ H).
    + intros b1' us' w1' H. discriminate.
Qed.

Lemma UploadFromStreamWithID_empty_read_ends_upload_witness :
  let pre := [mkReadResult [x61; x62; x63; x64; x65] None] in
  let rest := [mkReadResult [x66] None] in
  let out := UploadFromStreamWithID Example.bucket (VObjectID 9) "a.txt"
               (pre ++ mkReadResult [] None :: rest) [] (Example.fresh []) in
  snd (fst (fst out)) = rest
  /\ snd (fst out) = None
  /\ exists d,
       In d (docs (getColl "fs.files" (snd out)))
       /\ Lookup "_id" d = Some (VObjectID 9)
       /\ Lookup "filename" d = Some (VString "a.txt").
Proof.
  intros pre rest out.
  destruct (UploadFromStreamWithID_empty_read_ends_upload Example.bucket (VObjectID 9)
              "a.txt" [] (Example.fresh []) pre rest) as (_ & Hstop & Hreach).
  cbv zeta in Hstop, Hreach. fold out in Hstop, Hreach.
  assert (Hopen : exists b1 us w1,
            OpenUploadStreamWithID Example.bucket (VObjectID 9) "a.txt" []
              (Example.fresh []) = ((b1, Ok us), w1) /\ no_faults w1).
  { eexists _, _, _. split; [vm_compute; reflexivity|]. constructor. }
  destruct Hopen as (b1 & us & w1 & Ho & Hnf).
  assert (Hbuf : readBuf Example.bucket <> []) by discriminate.
  assert (Hpre : Forall (fun p => rr_err p = None /\ rr_data p <> []) pre)
    by (repeat constructor; discriminate).
  destruct (Hreach b1 us w1 Ho Hnf Hbuf Hpre) as [Hleft Herr].
  split; [exact Hleft|]. split; [exact Herr|].
  destruct (Hstop Hleft) as [_ Hc]. destruct (Hc Herr) as [_ Hd]. exact Hd.
Defined.

(** ** Streams left open *)

Lemma Writer_Write_run (dst : Writer) (p : list byte) (w : World) :
  Writer_Write dst p w =
    (match sink_script dst with
     | Some e :: rest => (mkWriter (sink_data dst) rest, 0, Some e)
     | None :: rest => (mkWriter (sink_data dst ++ p) rest, Z.of_nat (length p), None)
     | [] => (mkWriter (sink_data dst ++ p) [], Z.of_nat (length p), None)
     end,
     log (EvSinkWrite (length p)) w).
Proof.
  unfold Writer_Write. rewrite bind_run. cbn [emit fst snd].
  destruct (sink_script dst) as [|[e|] rest]; reflexivity.
Qed.

Lemma ds_copy_props (chunks : list Document) :
  forall (ds : DownloadStream) (dst : Writer) (copied : Z) (w : World),
    let r := ds_copy chunks ds dst copied w in
    ds_file (fst (fst (fst (fst r)))) = ds_file ds /\ extends w (snd r).
Proof.
  induction chunks as [|c chunks IH]; intros ds dst copied w; cbv zeta; cbn [ds_copy].
  - destruct (ds_produced ds =? Length (ds_file ds)); cbn;
      (split; [reflexivity|apply extends_refl]).
  - destruct (ds_produced ds =? Length (ds_file ds));
      [cbn; split; [reflexivity|apply extends_refl]|].
    destruct (Lookup "n" c) as [[]|]; try (cbn; split; [reflexivity|apply extends_refl]).
    destruct (Lookup "data" c) as [[]|];
      try (cbn; split; [reflexivity|apply extends_refl]).
    destruct (_ && _); [|cbn; split; [reflexivity|apply extends_refl]].
    rewrite bind_run, Writer_Write_run.
    destruct (sink_script dst) as [|[e|] script]; unfold ret; cbn [fst snd].
    + match goal with |- context [ds_copy chunks ?d ?s ?k ?w0] =>
        destruct (IH d s k w0) as [F E] end.
      split; [rewrite F; reflexivity|]. eapply extends_log; exact E.
    + split; [reflexivity|]. eexists; reflexivity.
    + match goal with |- context [ds_copy chunks ?d ?s ?k ?w0] =>
        destruct (IH d s k w0) as [F E] end.
      split; [rewrite F; reflexivity|]. eapply extends_log; exact E.
Qed.

(** [downloadToStream] closes the stream as the last thing it does,
    whether it returns an error or not. *)
Lemma downloadToStream_closes (b : Bucket) (ds : DownloadStream) (stream : Writer)
    (w : World) :
  exists tr,
    trace (snd (downloadToStream b ds stream w)) =
      trace w ++ tr ++ [EvDownloadClose (ID (ds_file ds))].
Proof.
  unfold downloadToStream, DownloadStream_SetReadDeadline.
  destruct (ds_closed ds) eqn:Hc.
  - rewrite bind_run. exists []. reflexivity.
  - rewrite bind_run. unfold io_Copy. cbn [ds_closed].
    match goal with |- context [ds_copy ?l ?d ?s ?k w] =>
      destruct (ds_copy_props l d s k w) as [F [tr E]];
      destruct (ds_copy l d s k w) as [[[[ds' stream'] copied] err] w']
    end.
    cbn [fst snd ds_file] in *.
    destruct err; rewrite bind_run; cbn; rewrite F, E, <- app_assoc;
      exists tr; reflexivity.
Qed.


(** ** The calls a run adds to the trace *)

Lemma adds_refl (P : Event -> Prop) (w : World) : adds P w w.
Proof. exists []. rewrite app_nil_r. split; [reflexivity|constructor]. Qed.

Lemma adds_trans (P : Event -> Prop) (w w1 w2 : World) :
  adds P w w1 -> adds P w1 w2 -> adds P w w2.
Proof.
  intros (t1 & H1 & F1) (t2 & H2 & F2). exists (t1 ++ t2).
  rewrite H2, H1, app_assoc. split; [reflexivity|]. apply Forall_app. auto.
Qed.

Lemma adds_same (P : Event -> Prop) (w w' : World) : trace w' = trace w -> adds P w w'.
Proof. intros H. exists []. rewrite app_nil_r. split; [exact H|constructor]. Qed.

Lemma adds_log (P : Event -> Prop) (ev : Event) (w w' : World) :
  P ev -> adds P (log ev w) w' -> adds P w w'.
Proof.
  intros Hev (tr & H & F). exists (ev :: tr). split.
  - rewrite H. cbn. rewrite <- app_assoc. reflexivity.
  - constructor; assumption.
Qed.

Lemma adds_mono (P Q : Event -> Prop) (w w' : World) :
  (forall ev, P ev -> Q ev) -> adds P w w' -> adds Q w w'.
Proof.
  intros HPQ (tr & H & F). exists tr. split; [exact H|].
  eapply List.Forall_impl; [|exact F]. exact HPQ.
Qed.

(** The bytes handed to [Write] are those the read stored at the front
    of the buffer. *)
Lemma take_read_buffer (data buf : list byte) :
  firstn (Z.to_nat (Z.of_nat (length data))) (data ++ skipn (length data) buf) = data.
Proof.
  rewrite Nat2Z.id, firstn_app, firstn_all, Nat.sub_diag, firstn_0, app_nil_r.
  reflexivity.
Qed.

Ltac adds_events :=
  unfold adds; eexists;
  split; [wsimpl; cbn [trace]; rewrite <- ?app_assoc; reflexivity|repeat constructor].

(** Index provisioning reads the files collection, lists indexes and
    creates indexes, and makes no other call. *)
Lemma createNumericalIndexIfNotExists_calls (ctx : Context) (iv : IndexView)
    (model : IndexModel) (w : World) :
  adds provisioning_call w (snd (createNumericalIndexIfNotExists ctx iv model w)).
Proof.
  rewrite createNumericalIndexIfNotExists_run. cbv zeta.
  destruct (next_fault w); [adds_events|].
  destruct (scanIndexes _ _) as [[|]|]; [adds_events| |adds_events].
  destruct (next_fault (pop_fault w)); adds_events.
Qed.

Lemma createIndexes_calls (b : Bucket) (ctx : Context) (w : World) :
  adds provisioning_call w (snd (createIndexes b ctx w)).
Proof.
  unfold createIndexes. cbn [Collection_Clone].
  rewrite bind_run, Collection_FindOne_run. cbn [fst snd].
  apply (adds_log _ (EvFindOne (coll_name (filesColl b)) Primary []) (pop_fault w));
    [exact I|].
  set (w1 := log _ (pop_fault w)).
  match goal with |- context [if ?c then _ else _] => destruct c end;
    [apply adds_trans with w1; [apply adds_same; reflexivity|apply adds_refl]|].
  apply adds_trans with w1; [apply adds_same; reflexivity|].
  rewrite bind_run.
  pose proof (createNumericalIndexIfNotExists_calls ctx
                (Collection_Indexes (filesColl b)) filesModel w1) as A1.
  destruct (fst (createNumericalIndexIfNotExists _ _ filesModel w1)); [exact A1|].
  eapply adds_trans; [exact A1|]. apply createNumericalIndexIfNotExists_calls.
Qed.

Lemma OpenUploadStreamWithID_calls (b : Bucket) (fileID : Value) (filename : string)
    (opts : list (option UploadOptions)) (w : World) :
  adds provisioning_call w (snd (OpenUploadStreamWithID b fileID filename opts w)).
Proof.
  unfold OpenUploadStreamWithID.
  destruct (deadlineContext (writeDeadline b)) as [ctx cancel]. rewrite bind_run.
  assert (A : adds provisioning_call w (snd (checkFirstWrite b ctx w))).
  { unfold checkFirstWrite. destruct (negb (firstWriteDone b)); [|apply adds_refl].
    rewrite bind_run. pose proof (createIndexes_calls b ctx w) as A.
    destruct (fst (createIndexes b ctx w)); exact A. }
  destruct (checkFirstWrite b ctx w) as [[b' [e|]] w']; cbn [fst snd] in *;
    [exact A|].
  destruct (parseUploadOptions b' opts); exact A.
Qed.

(** Persisting chunks makes inserts and no other call. *)
Lemma us_uploadChunk_calls (us : UploadStream) (w : World) :
  adds insert_call w (snd (us_uploadChunk us w)).
Proof.
  rewrite us_uploadChunk_run. cbv zeta. cbn [NewObjectID snd].
  destruct (next_fault w); adds_events.
Qed.

Lemma us_append_calls (p : list byte) :
  forall (us : UploadStream) (w : World), adds insert_call w (snd (us_append us p w)).
Proof.
  induction p as [|x p IH]; intros us w; cbn [us_append]; [apply adds_refl|].
  match goal with |- context [if ?c then _ else _] => destruct c end; [|apply IH].
  rewrite bind_run. pose proof (us_uploadChunk_calls
    (us_set us (us_state us) (us_buffer us ++ [x]) (us_n us) (us_length us + 1)) w) as A.
  destruct (us_uploadChunk _ w) as [[us2 [e|]] w2]; cbn [fst snd] in *; [exact A|].
  eapply adds_trans; [exact A|apply IH].
Qed.

Lemma provisioning_no_cleanup (ev : Event) : provisioning_call ev -> no_cleanup ev.
Proof. destruct ev; cbn; tauto. Qed.

Lemma insert_no_cleanup (ev : Event) : insert_call ev -> no_cleanup ev.
Proof. destruct ev; cbn; tauto. Qed.

(** [Write] invokes neither [Close] nor [Abort]. *)
Lemma UploadStream_Write_no_cleanup (us : UploadStream) (p : list byte) (w : World) :
  adds no_cleanup w (snd (UploadStream_Write us p w)).
Proof.
  unfold UploadStream_Write. rewrite bind_run. cbn [emit fst snd].
  apply (adds_log _ (EvUploadWrite (FileID us) (length p))); [exact I|].
  destruct (us_state us); try apply adds_refl.
  rewrite bind_run.
  pose proof (us_append_calls p us (log (EvUploadWrite (FileID us) (length p)) w)) as A.
  apply (adds_mono insert_call); [apply insert_no_cleanup|].
  destruct (us_append us p _) as [[us' [e|]] w']; exact A.
Qed.

(** ** Streams left open *)

(** A loop that has a read to make hands back a reader that is shorter
    than its source. *)
Lemma uploadLoop_reader_shorter (source : Reader) :
  forall (b : Bucket) (us : UploadStream) (w : World),
    (length (snd (fst (fst (uploadLoop b us source w)))) <= Nat.pred (length source))%nat.
Proof.
  induction source as [|p source IH]; intros b us w.
  - rewrite uploadLoop_nil. cbn. lia.
  - rewrite uploadLoop_cons. cbv zeta. cbn [length Nat.pred].
    destruct (match rr_err p with Some _ => _ | None => false end); [cbn; lia|].
    match goal with |- context [(if ?c then UploadStream_Write us ?q else _) ?w1] =>
      destruct ((if c then UploadStream_Write us q else ret (us, 0, None)) w1)
        as [[[us' k] werr] w2]
    end.
    cbn [fst snd]. destruct werr; [cbn; lia|].
    destruct (_ || is_EOF (rr_err p)); [cbn; lia|].
    match goal with |- context [uploadLoop ?b1 us' source w2] =>
      specialize (IH b1 us' w2) end.
    lia.
Qed.

(** When the loop stops right after a read that brought bytes and no
    error, with more of the source to come, the [Write] of those bytes
    has failed: the loop returns the error of that [Write] in the world
    that [Write] left, and from the start of the loop neither [Close]
    nor [Abort] has been invoked. *)
Lemma uploadLoop_write_fails (pre : list ReadResult) :
  forall (b : Bucket) (us : UploadStream) (w : World) (r : ReadResult) (rest : Reader),
    us_state us = Open ->
    rr_err r = None ->
    (0 < length (take_read (length (readBuf b)) r))%nat ->
    rest <> [] ->
    let out := uploadLoop b us (pre ++ r :: rest) w in
    snd (fst (fst out)) = rest ->
    exists (us0 : UploadStream) (w0 : World) (k : Z) (e : error),
      UploadStream_Write us0 (take_read (length (readBuf b)) r) (log EvSourceRead w0) =
        ((snd (fst (fst (fst out))), k, Some e), snd out)
      /\ same_stream us us0 /\ us_state us0 = Open
      /\ snd (fst out) = Some e
      /\ adds no_cleanup w w0.
Proof.
  induction pre as [|p pre IH]; intros b us w r rest Hst Hr Hn Hrest; cbv zeta.
  - cbn [app]. rewrite uploadLoop_cons. cbv zeta. rewrite (empty_read_cond r Hr).
    rewrite take_read_buffer. fold (take_read (length (readBuf b)) r).
    destruct (Z.ltb_spec 0 (Z.of_nat (length (take_read (length (readBuf b)) r))))
      as [_|Hle]; [|lia].
    destruct (UploadStream_Write us (take_read (length (readBuf b)) r)
                (log EvSourceRead w)) as [[[us' k] werr] w2] eqn:Hw.
    cbn [fst snd]. destruct werr as [e|].
    + cbn [fst snd]. intros _. exists us, w, k, e.
      split; [exact Hw|]. split; [apply same_stream_refl|]. split; [exact Hst|].
      split; [reflexivity|apply adds_refl].
    + rewrite Hr. cbn [is_EOF orb].
      destruct (Z.eqb_spec (Z.of_nat (length (take_read (length (readBuf b)) r))) 0)
        as [E|_]; [lia|]. cbn [orb].
      intros H. exfalso.
      match goal with H : snd (fst (fst (uploadLoop ?b1 ?u rest ?w1))) = rest |- _ =>
        pose proof (uploadLoop_reader_shorter rest b1 u w1) as L end.
      rewrite H in L. destruct rest; [congruence|cbn in L; lia].
  - cbn [app]. rewrite uploadLoop_cons. cbv zeta.
    destruct (match rr_err p with Some _ => _ | None => false end).
    + cbn [fst snd]. intros H. exfalso. exact (app_cons_not_tail _ _ _ H).
    + set (w1 := log EvSourceRead w).
      match goal with |- context [(if ?c then UploadStream_Write us ?q else _) w1] =>
        destruct (write_step_props c us q w1) as (S & T & _);
        assert (A : adds no_cleanup w1
                      (snd ((if c then UploadStream_Write us q
                             else ret (us, 0, None)) w1)))
          by (destruct c; [apply UploadStream_Write_no_cleanup|apply adds_refl]);
        destruct ((if c then UploadStream_Write us q else ret (us, 0, None)) w1)
          as [[[us' k] werr] w2]
      end.
      cbn [fst snd] in *. destruct werr.
      * cbn [fst snd]. intros H. exfalso. exact (app_cons_not_tail _ _ _ H).
      * destruct (_ || is_EOF (rr_err p)).
        -- cbn [fst snd]. intros H. exfalso. exact (app_cons_not_tail _ _ _ H).
        -- intros H.
           match type of H with snd (fst (fst (uploadLoop ?b1 _ _ _))) = _ =>
             assert (Hb : length (readBuf b1) = length (readBuf b))
               by (cbn [readBuf set_readBuf]; apply length_read_buffer);
             destruct (IH b1 us' w2 r rest) as (us0 & w0 & k0 & e & Hw & S0 & T0 & He & A0)
           end; [congruence|exact Hr|rewrite Hb; exact Hn|exact Hrest|exact H|].
           rewrite Hb in Hw.
           exists us0, w0, k0, e. split; [exact Hw|].
           split; [exact (same_stream_trans _ _ _ S S0)|]. split; [exact T0|].
           split; [exact He|].
           apply (adds_log _ EvSourceRead); [exact I|].
           eapply adds_trans; [exact A|exact A0].
Qed.

(** C5: the error path of [UploadFromStreamWithID] on which [us.Write]
    fails, whatever makes it fail.  Whenever the upload stops right
    after a read that brought bytes and no error, while the source has
    more to give, it returns the error of the [Write] of those bytes at
    once: that [Write] is the last call, neither [Close] nor [Abort] has
    been invoked on any stream during the run, and the stream is left
    Open. *)
Theorem UploadFromStreamWithID_write_error_leaves_stream_open :
  forall (b : Bucket) (fileID : Value) (filename : string)
         (opts : list (option UploadOptions)) (w : World)
         (pre : list ReadResult) (r : ReadResult) (rest : Reader),
    rr_err r = None ->
    (0 < length (take_read (length (readBuf b)) r))%nat ->
    rest <> [] ->
    let source := pre ++ r :: rest in
    let out := UploadFromStreamWithID_stream b fileID filename source opts w in
    snd (fst (fst out)) = rest ->
    exists (us : UploadStream) (e : error),
      snd (fst (fst (fst out))) = Some us
      /\ snd (fst out) = Some e
      /\ snd (fst (UploadFromStreamWithID b fileID filename source opts w)) = Some e
      /\ us_state us = Open
      /\ adds no_cleanup w (snd out)
      /\ exists (us0 : UploadStream) (w0 : World) (k : Z),
           UploadStream_Write us0 (take_read (length (readBuf b)) r)
             (log EvSourceRead w0) = ((us, k, Some e), snd out)
           /\ FileID us0 = fileID /\ us_state us0 = Open.
Proof.
  intros b fileID filename opts w pre r rest Hr Hn Hrest source out. subst out source.
  rewrite UploadFromStreamWithID_run. cbv zeta. cbn [fst snd].
  rewrite UploadFromStreamWithID_stream_run.
  pose proof (OpenUploadStreamWithID_calls b fileID filename opts w) as A.
  apply (adds_mono _ no_cleanup) in A; [|apply provisioning_no_cleanup].
  destruct (OpenUploadStreamWithID b fileID filename opts w) as [[b1 [us|e]] w1] eqn:Ho;
    cbn [fst snd] in *.
  - destruct (OpenUploadStreamWithID_Ok _ _ _ _ _ _ _ _ Ho)
      as (Hst & Hid & _ & _ & _ & Hbuf).
    destruct (SetWriteDeadline_Open us (writeDeadline b1) Hst)
      as (us1 & -> & Hst1 & (Sid & _)).
    cbv zeta. cbn [fst snd]. intros Hleft.
    rewrite <- Hbuf in Hn.
    destruct (uploadLoop_write_fails pre b1 us1 w1 r rest Hst1 Hr Hn Hrest Hleft)
      as (us0 & w0 & k & e & Hw & (S0id & _) & T0 & He & A0).
    rewrite Hbuf in Hw.
    exists (snd (fst (fst (fst (uploadLoop b1 us1 (pre ++ r :: rest) w1))))), e.
    split; [reflexivity|]. split; [exact He|]. split; [exact He|].
    pose proof (UploadStream_Write_props us0 (take_read (length (readBuf b)) r)
                  (log EvSourceRead w0)) as (_ & T & _).
    cbv zeta in T. rewrite Hw in T. cbn [fst snd] in T.
    split; [congruence|]. split.
    + eapply adds_trans; [exact A|]. eapply adds_trans; [exact A0|].
      apply (adds_log _ EvSourceRead); [exact I|].
      pose proof (UploadStream_Write_no_cleanup us0 (take_read (length (readBuf b)) r)
                    (log EvSourceRead w0)) as Aw.
      rewrite Hw in Aw. exact Aw.
    + exists us0, w0, k. split; [exact Hw|]. split; [congruence|exact T0].
  - intros H. exfalso. exact (app_cons_not_tail _ _ _ H).
Qed.

(** *** A [Write] that fails *)

(** Bytes that fill the buffer of the stream up to a chunk size of
    16 MiB make [Write] persist them, and the error of that insert is
    the error of [Write]. *)
Lemma us_append_fills (data : list byte) :
  forall (us : UploadStream) (w : World) (e : error),
    data <> [] ->
    up_chunkSize (us_upload us) = 16 * 1024 * 1024 ->
    Z.of_nat (length (us_buffer us) + length data) = up_chunkSize (us_upload us) ->
    next_fault w = Some e ->
    snd (fst (us_append us data w)) = Some e.
Proof.
  induction data as [|x p IH]; intros us w e Hne Hsize Hlen Hf; [congruence|].
  cbn [us_append].
  set (us1 := us_set us (us_state us) (us_buffer us ++ [x]) (us_n us)
                (us_length us + 1)).
  assert (Hb : length (us_buffer us1) = S (length (us_buffer us)))
    by (cbn; rewrite length_app; cbn; lia).
  assert (Hu : up_chunkSize (us_upload us1) = up_chunkSize (us_upload us))
    by reflexivity.
  cbn [length] in Hlen.
  match goal with |- context [if ?c then _ else _] => destruct c eqn:E end.
  - rewrite bind_run, us_uploadChunk_run. cbv zeta. rewrite Hf. reflexivity.
  - apply Z.eqb_neq in E. rewrite ?Hu, Hb in E.
    apply IH; [|rewrite Hu; exact Hsize|rewrite Hb, Hu; lia|exact Hf].
    intros ->. apply E. cbn [length] in Hlen. lia.
Qed.

Lemma UploadStream_Write_fills (us : UploadStream) (data : list byte) (w : World)
    (e : error) :
  us_state us = Open -> us_buffer us = [] -> data <> [] ->
  up_chunkSize (us_upload us) = 16 * 1024 * 1024 ->
  Z.of_nat (length data) = up_chunkSize (us_upload us) ->
  next_fault w = Some e ->
  snd (fst (UploadStream_Write us data w)) = Some e.
Proof.
  intros Hst Hbuf Hne Hsize Hlen Hf. unfold UploadStream_Write.
  rewrite bind_run. cbn [emit fst snd]. rewrite Hst, bind_run.
  rewrite (us_append_fills data us (log (EvUploadWrite (FileID us) (length data)) w) e Hne);
    [reflexivity|exact Hsize|rewrite Hbuf; cbn; exact Hlen|exact Hf].
Qed.

(** A bucket that has written before opens the stream without a call. *)
Lemma OpenUploadStreamWithID_flag_set (b : Bucket) (fileID : Value) (filename : string)
    (w : World) :
  firstWriteDone b = true ->
  OpenUploadStreamWithID b fileID filename [] w =
    ((b, Ok (newUploadStream (mkUpload (chunkSize b) None) fileID filename
               (chunksColl b) (filesColl b))), w).
Proof.
  intros H. unfold OpenUploadStreamWithID.
  destruct (deadlineContext (writeDeadline b)) as [ctx cancel].
  rewrite bind_run. unfold checkFirstWrite. rewrite H. reflexivity.
Qed.

(** When the first read fills the read buffer, the buffer holds one
    chunk of 16 MiB and the store fails the insert of that chunk, the
    upload stops at that read. *)
Lemma UploadFromStreamWithID_first_write_fails (b : Bucket) (fileID : Value)
    (filename : string) (w : World) (data : list byte) (rest : Reader) (e : error) :
  firstWriteDone b = true ->
  data <> [] ->
  length data = length (readBuf b) ->
  chunkSize b = 16 * 1024 * 1024 ->
  Z.of_nat (length data) = chunkSize b ->
  next_fault w = Some e ->
  snd (fst (fst (UploadFromStreamWithID_stream b fileID filename
                   (mkReadResult data None :: rest) [] w))) = rest.
Proof.
  intros Hflag Hne Hlen Hchunk Hsize Hf.
  rewrite UploadFromStreamWithID_stream_run, (OpenUploadStreamWithID_flag_set _ _ _ _ Hflag).
  cbn [UploadStream_SetWriteDeadline newUploadStream us_state].
  cbv zeta. cbn [fst snd]. rewrite uploadLoop_cons. cbv zeta. cbn [rr_err rr_data].
  rewrite take_read_buffer, <- Hlen, firstn_all.
  destruct (Z.ltb_spec 0 (Z.of_nat (length data))) as [_|Hz];
    [|destruct data; [congruence|cbn in Hz; lia]].
  match goal with |- context [UploadStream_Write ?u data ?w1] =>
    pose proof (UploadStream_Write_fills u data w1 e eq_refl eq_refl Hne) as F
  end.
  cbn [us_upload up_chunkSize] in F. specialize (F Hchunk Hsize Hf).
  rewrite F. reflexivity.
Qed.

Lemma UploadFromStreamWithID_write_error_leaves_stream_open_witness :
  let size := 16 * 1024 * 1024 in
  let b := mkBucket Example.database
             (mkCollection "fs.chunks" "majority" "local" Secondary)
             (mkCollection "fs.files" "majority" "local" Secondary)
             "fs" size "majority" "local" Secondary true
             (repeat x00 (Z.to_nat size)) (repeat x00 (Z.to_nat size)) 0 0 in
  let source := [mkReadResult (repeat x61 (Z.to_nat size)) None;
                 mkReadResult [x62] None] in
  let w := Example.fresh [Some (StoreError 1)] in
  let out := UploadFromStreamWithID_stream b (VObjectID 9) "a.txt" source [] w in
  exists (us : UploadStream) (e : error),
    snd (fst (fst (fst out))) = Some us
    /\ snd (fst out) = Some e
    /\ us_state us = Open
    /\ adds no_cleanup w (snd out).
Proof.
  intros size b source w out.
  assert (Hsize : 0 < size) by (subst size; lia).
  assert (Hdata : length (repeat x61 (Z.to_nat size)) = length (readBuf b))
    by (subst b; cbn [readBuf]; rewrite !repeat_length; reflexivity).
  assert (Hlen : Z.of_nat (length (repeat x61 (Z.to_nat size))) = chunkSize b)
    by (subst b; cbn [chunkSize]; rewrite repeat_length; lia).
  assert (Hne : repeat x61 (Z.to_nat size) <> []).
  { intros E. rewrite E in Hlen. subst b. cbn [chunkSize length] in Hlen. lia. }
  assert (Hn : (0 < length (take_read (length (readBuf b))
                              (mkReadResult (repeat x61 (Z.to_nat size)) None)))%nat).
  { unfold take_read. cbn [rr_data]. rewrite <- Hdata, firstn_all.
    destruct (repeat x61 (Z.to_nat size)); [congruence|cbn; lia]. }
  assert (Hrest : [mkReadResult [x62] None] <> []) by discriminate.
  pose proof (UploadFromStreamWithID_first_write_fails b (VObjectID 9) "a.txt" w
                (repeat x61 (Z.to_nat size)) [mkReadResult [x62] None] (StoreError 1)
                eq_refl Hne Hdata eq_refl Hlen eq_refl) as Hleft.
  destruct (UploadFromStreamWithID_write_error_leaves_stream_open b (VObjectID 9)
              "a.txt" [] w [] (mkReadResult (repeat x61 (Z.to_nat size)) None)
              [mkReadResult [x62] None] eq_refl Hn Hrest Hleft)
    as (us & e & Hus & He & _ & Hst & Hadds & _).
  exists us, e. split; [exact Hus|]. split; [exact He|]. split; [exact Hst|exact Hadds].
Defined.

(** * Further properties *)

(** ** Comparison of index key documents *)

Lemma bytes_Equal_eq (a b : Document) : bytes_Equal a b = true <-> a = b.
Proof.
  unfold bytes_Equal. rewrite Value_eqb_spec. split; [|congruence].
  intros H. inversion H. reflexivity.
Qed.

Lemma numericalElemsEqual_agree (expected actual : list Element) :
  length actual = length expected ->
  numericalElemsEqual expected actual = true <-> Forall2 int64_agree expected actual.
Proof.
  revert actual. induction expected as [|e es IH]; intros [|a acs] Hlen;
    try discriminate Hlen; cbn [numericalElemsEqual].
  - split; [constructor|reflexivity].
  - cbn in Hlen. specialize (IH acs ltac:(lia)).
    destruct (String.eqb_spec (fst a) (fst e)) as [Hk|Hk]; cbn [negb].
    + destruct (AsInt64OK (snd a)) as [ai aok] eqn:Ha.
      destruct (AsInt64OK (snd e)) as [ei eok] eqn:He.
      destruct aok, eok; cbn [negb orb];
        try (split; [discriminate|];
             intros H; inversion H as [|? ? ? ? [_ (i & H1 & H2)]]; subst; congruence).
      destruct (Z.eqb_spec ai ei) as [->|Hne]; cbn [negb].
      * rewrite IH. split.
        -- intros H. constructor; [|exact H]. split; [congruence|].
           exists ei. split; assumption.
        -- intros H. inversion H; subst. assumption.
      * split; [discriminate|].
        intros H. inversion H as [|? ? ? ? [_ (i & H1 & H2)]]; subst. congruence.
    + split; [discriminate|].
      intros H. inversion H as [|? ? ? ? [Hk' _]]; subst. congruence.
Qed.

Lemma numericalIndexDocsEqual_decides (expected actual : Document) :
  snd (numericalIndexDocsEqual expected actual) = None
  /\ (fst (numericalIndexDocsEqual expected actual) = true
      <-> index_docs_equal expected actual).
Proof.
  unfold numericalIndexDocsEqual, index_docs_equal.
  destruct (bytes_Equal expected actual) eqn:Hb.
  - cbn. split; [reflexivity|]. split; [|reflexivity].
    intros _. left. apply bytes_Equal_eq, Hb.
  - cbn [Elements].
    assert (Hne : expected <> actual).
    { intros E. apply bytes_Equal_eq in E. congruence. }
    destruct (Nat.eqb_spec (length actual) (length expected)) as [Hlen|Hlen]; cbn [negb].
    + cbn [fst snd]. split; [reflexivity|].
      rewrite (numericalElemsEqual_agree _ _ Hlen). tauto.
    + cbn [fst snd]. split; [reflexivity|]. split; [discriminate|].
      intros [E|F]; [contradiction|]. apply Forall2_length in F. congruence.
Qed.

(** X1: [numericalIndexDocsEqual] never reports an error on parsed
    documents, and answers true exactly when the two documents are the
    same or have the same number of elements with, position by position,
    the same key and values that both have an int64 reading, the same
    one.  A value without an int64 reading makes the documents unequal
    unless they are the same document. *)
Theorem numericalIndexDocsEqual_characterised :
  forall expected actual : Document,
    snd (numericalIndexDocsEqual expected actual) = None
    /\ (fst (numericalIndexDocsEqual expected actual) = true
        <-> expected = actual \/ Forall2 int64_agree expected actual)
    /\ (forall (k : string) (v : Value) (pre post : Document),
          expected = pre ++ (k, v) :: post ->
          snd (AsInt64OK v) = false ->
          expected <> actual ->
          fst (numericalIndexDocsEqual expected actual) = false).
Proof.
  intros expected actual.
  destruct (numericalIndexDocsEqual_decides expected actual) as [He Hd].
  split; [exact He|]. split; [exact Hd|].
  intros k v pre post -> Hv Hne.
  apply not_true_is_false. intros E.
  apply Hd in E. destruct E as [E|F]; [contradiction|].
  apply Forall2_app_inv_l in F. destruct F as (l1 & l2 & _ & F2 & _).
  inversion F2 as [|? y ? ? [_ (i & H1 & _)]]; subst.
  cbn [snd] in H1. rewrite H1 in Hv. discriminate.
Qed.

Lemma int64_agree_sym (x y : Element) : int64_agree x y -> int64_agree y x.
Proof. intros [Hk (i & H1 & H2)]. split; [congruence|]. exists i. auto. Qed.

Lemma int64_agree_trans (x y z : Element) :
  int64_agree x y -> int64_agree y z -> int64_agree x z.
Proof.
  intros [Hk (i & H1 & H2)] [Hk' (j & H3 & H4)]. split; [congruence|].
  exists i. split; [exact H1|]. congruence.
Qed.

Lemma Forall2_int64_agree_sym (a b : Document) :
  Forall2 int64_agree a b -> Forall2 int64_agree b a.
Proof. induction 1; constructor; auto using int64_agree_sym. Qed.

Lemma Forall2_int64_agree_trans (a b c : Document) :
  Forall2 int64_agree a b -> Forall2 int64_agree b c -> Forall2 int64_agree a c.
Proof.
  intros H. revert c. induction H as [|x y a b Hxy _ IH]; intros c Hbc;
    inversion Hbc; subst; constructor; eauto using int64_agree_trans.
Qed.

(** X2: the comparison of index key documents is an equivalence: every
    document equals itself, also one with non-numeric values; the answer
    does not depend on which document is the expected one; and two
    documents equal to a third are equal. *)
Theorem numericalIndexDocsEqual_equivalence :
  (forall a : Document, numericalIndexDocsEqual a a = (true, None))
  /\ (forall a b : Document, numericalIndexDocsEqual a b = numericalIndexDocsEqual b a)
  /\ (forall a b c : Document,
        fst (numericalIndexDocsEqual a b) = true ->
        fst (numericalIndexDocsEqual b c) = true ->
        fst (numericalIndexDocsEqual a c) = true).
Proof.
  split; [|split].
  - intros a. unfold numericalIndexDocsEqual.
    destruct (bytes_Equal a a) eqn:E; [reflexivity|].
    assert (H : bytes_Equal a a = true) by (apply bytes_Equal_eq; reflexivity).
    congruence.
  - intros a b.
    destruct (numericalIndexDocsEqual_decides a b) as [Ea Da].
    destruct (numericalIndexDocsEqual_decides b a) as [Eb Db].
    destruct (numericalIndexDocsEqual a b) as [x ex].
    destruct (numericalIndexDocsEqual b a) as [y ey].
    cbn [fst snd] in *. subst ex ey. f_equal.
    assert (Hiff : x = true <-> y = true).
    { rewrite Da, Db. unfold index_docs_equal.
      split; (intros [E|F]; [left; congruence|right; apply Forall2_int64_agree_sym, F]). }
    destruct x, y; try reflexivity; destruct Hiff as [H1 H2];
      [discriminate (H1 eq_refl)|discriminate (H2 eq_refl)].
  - intros a b c Hab Hbc.
    apply (proj2 (numericalIndexDocsEqual_decides a b)) in Hab.
    apply (proj2 (numericalIndexDocsEqual_decides b c)) in Hbc.
    apply (proj2 (numericalIndexDocsEqual_decides a c)).
    destruct Hab as [->|Fab]; [exact Hbc|].
    destruct Hbc as [<-|Fbc]; [right; exact Fab|].
    right. eapply Forall2_int64_agree_trans; eauto.
Qed.

(** ** What index provisioning leaves behind *)

Lemma scanIndexes_true (k : Document) (specs : list IndexSpec) :
  scanIndexes k specs = Ok true ->
  exists s k', In s specs /\ ix_key s = Some k'
               /\ fst (numericalIndexDocsEqual k k') = true.
Proof.
  induction specs as [|cur rest IH]; cbn; [discriminate|].
  destruct (ix_key cur) as [kc|] eqn:Hc; [|discriminate].
  destruct (numericalIndexDocsEqual k kc) as [[|] [e|]] eqn:Hn; try discriminate.
  - intros _. exists cur, kc. rewrite Hn. auto.
  - intros H. destruct (IH H) as (s & k' & Hin & Hk & He). exists s, k'. auto.
Qed.

Lemma createNumericalIndexIfNotExists_present (ctx : Context) (iv : IndexView)
    (model : IndexModel) (w : World) :
  fst (createNumericalIndexIfNotExists ctx iv model w) = None ->
  has_index (coll_name (iv_coll iv)) model
    (snd (createNumericalIndexIfNotExists ctx iv model w)).
Proof.
  rewrite createNumericalIndexIfNotExists_run. cbv zeta.
  destruct (next_fault w); [discriminate|].
  destruct (scanIndexes _ _) as [[|]|] eqn:Hs; [| |discriminate].
  - intros _. destruct (scanIndexes_true _ _ Hs) as (s & k & Hin & Hk & He).
    exists s, k. cbn [snd]. rewrite getColl_log, getColl_pop_fault. auto.
  - destruct (next_fault (pop_fault w)); [discriminate|]. intros _. cbn [snd].
    exists (index_of_model model), (Keys model).
    rewrite getColl_put_coll_eq. cbn [indexes]. split; [|split].
    + apply in_or_app. right. left. reflexivity.
    + reflexivity.
    + rewrite numericalIndexDocsEqual_same. reflexivity.
Qed.

(** One provisioning step leaves every document where it was and keeps
    every index there was, in every collection. *)
Lemma createNumericalIndexIfNotExists_keeps (ctx : Context) (iv : IndexView)
    (model : IndexModel) (w : World) (nm : string) :
  let w' := snd (createNumericalIndexIfNotExists ctx iv model w) in
  docs (getColl nm w') = docs (getColl nm w)
  /\ exists added, indexes (getColl nm w') = indexes (getColl nm w) ++ added.
Proof.
  cbv zeta.
  destruct (createNumericalIndexIfNotExists_store ctx iv model w) as [H|[H _]].
  - rewrite (getColl_store _ _ _ H). split; [reflexivity|].
    exists []. rewrite app_nil_r. reflexivity.
  - destruct (decide (coll_name (iv_coll iv) = nm)) as [<-|Hne].
    + rewrite (getColl_store_insert_eq _ _ _ _ H). cbn. split; [reflexivity|].
      eexists; reflexivity.
    + rewrite (getColl_store_insert_ne _ _ _ _ _ Hne H). split; [reflexivity|].
      exists []. rewrite app_nil_r. reflexivity.
Qed.

Lemma createIndexes_keeps (b : Bucket) (ctx : Context) (w : World) (nm : string) :
  let w' := snd (createIndexes b ctx w) in
  docs (getColl nm w') = docs (getColl nm w)
  /\ exists added, indexes (getColl nm w') = indexes (getColl nm w) ++ added.
Proof.
  cbv zeta. unfold createIndexes. cbn [Collection_Clone].
  rewrite bind_run, Collection_FindOne_run. cbn [fst snd].
  set (w1 := log _ (pop_fault w)).
  assert (K0 : docs (getColl nm w1) = docs (getColl nm w)
               /\ indexes (getColl nm w1) = indexes (getColl nm w))
    by (split; reflexivity).
  destruct K0 as [D0 I0].
  match goal with |- context [if ?c then _ else _] => destruct c end.
  - unfold ret; cbn [snd]. split; [exact D0|]. exists []. rewrite app_nil_r. exact I0.
  - rewrite bind_run.
    destruct (createNumericalIndexIfNotExists_keeps ctx
                (Collection_Indexes (filesColl b)) filesModel w1 nm) as [D1 [a1 I1]].
    set (r1 := createNumericalIndexIfNotExists ctx (Collection_Indexes (filesColl b))
                 filesModel w1) in *.
    destruct (fst r1).
    + unfold ret; cbn [snd]. split; [congruence|]. exists a1. congruence.
    + destruct (createNumericalIndexIfNotExists_keeps ctx
                  (Collection_Indexes (chunksColl b)) chunksModel (snd r1) nm)
        as [D2 [a2 I2]].
      split; [congruence|]. exists (a1 ++ a2). rewrite I2, I1, I0, app_assoc.
      reflexivity.
Qed.

(** X3: the first-write check never removes or changes anything: in
    every collection the documents stay as they were and the indexes
    that existed stay, in their order, whatever the store fails. *)
Theorem checkFirstWrite_only_adds_indexes :
  forall (b : Bucket) (ctx : Context) (w : World) (nm : string),
    let w' := snd (checkFirstWrite b ctx w) in
    docs (getColl nm w') = docs (getColl nm w)
    /\ exists added, indexes (getColl nm w') = indexes (getColl nm w) ++ added.
Proof.
  intros b ctx w nm. cbv zeta. unfold checkFirstWrite.
  destruct (firstWriteDone b); cbn [negb].
  - cbn. split; [reflexivity|]. exists []. rewrite app_nil_r. reflexivity.
  - rewrite bind_run.
    destruct (createIndexes_keeps b ctx w nm) as [D I].
    destruct (fst (createIndexes b ctx w)); exact (conj D I).
Qed.

Lemma has_index_getColl (nm : string) (model : IndexModel) (w w' : World) :
  getColl nm w' = getColl nm w -> has_index nm model w -> has_index nm model w'.
Proof. unfold has_index. intros ->. auto. Qed.

(** X4: when the first-write check succeeds on a bucket whose flag is
    unset and whose files collection is empty, the flag is set and both
    collections hold an index whose key document compares equal to the
    wanted one: (filename, uploadDate) on the files collection and
    (files_id, n) on the chunks collection. *)
Theorem checkFirstWrite_provisions_both_indexes :
  forall (b : Bucket) (ctx : Context) (w : World),
    collections_distinct b ->
    firstWriteDone b = false ->
    docs (getColl (coll_name (filesColl b)) w) = [] ->
    let r := checkFirstWrite b ctx w in
    snd (fst r) = None ->
    firstWriteDone (fst (fst r)) = true
    /\ has_index (coll_name (filesColl b)) filesModel (snd r)
    /\ has_index (coll_name (chunksColl b)) chunksModel (snd r).
Proof.
  intros b ctx w Hd Hflag Hempty r. subst r. unfold checkFirstWrite.
  rewrite Hflag. cbn [negb]. rewrite bind_run.
  destruct (createIndexes b ctx w) as [err w'] eqn:Hc. cbn [fst snd].
  destruct err; [unfold ret; discriminate|]. unfold ret; cbn [fst snd]. intros _.
  split; [reflexivity|].
  revert Hc. unfold createIndexes. cbn [Collection_Clone].
  rewrite bind_run, Collection_FindOne_run. cbn [fst snd coll_name].
  rewrite filter_all by apply doc_matches_nil. rewrite Hempty.
  set (w1 := log _ (pop_fault w)).
  match goal with |- context [if ?c then _ else _] => destruct c eqn:Hcond end.
  - unfold ret. intros H. inversion H as [[He Hw]].
    destruct (next_fault w); cbn in He, Hcond; discriminate.
  - rewrite bind_run.
    pose proof (createNumericalIndexIfNotExists_present ctx
                  (Collection_Indexes (filesColl b)) filesModel w1) as P1.
    pose proof (createNumericalIndexIfNotExists_indexes ctx
                  (Collection_Indexes (chunksColl b)) chunksModel) as O2.
    destruct (createNumericalIndexIfNotExists ctx (Collection_Indexes (filesColl b))
                filesModel w1) as [e1 w2]. cbn [fst snd] in *.
    destruct e1; [unfold ret; discriminate|].
    pose proof (createNumericalIndexIfNotExists_present ctx
                  (Collection_Indexes (chunksColl b)) chunksModel w2) as P2.
    specialize (O2 w2). cbv zeta in O2. destruct O2 as [_ O2].
    intros H. rewrite H in P2, O2. cbn [fst snd Collection_Indexes iv_coll] in *.
    split.
    + eapply has_index_getColl; [|exact (P1 eq_refl)].
      apply O2. intros E. apply Hd. symmetry. exact E.
    + exact (P2 eq_refl).
Qed.

Lemma checkFirstWrite_provisions_both_indexes_witness :
  let r := checkFirstWrite Example.bucket Background (Example.fresh []) in
  has_index "fs.files" filesModel (snd r) /\ has_index "fs.chunks" chunksModel (snd r).
Proof.
  intros r.
  assert (Hd : collections_distinct Example.bucket)
    by (unfold collections_distinct; cbn; discriminate).
  destruct (checkFirstWrite_provisions_both_indexes Example.bucket Background
              (Example.fresh []) Hd eq_refl eq_refl) as (_ & H1 & H2).
  - vm_compute. reflexivity.
  - split; [exact H1|exact H2].
Defined.

Lemma numericalIndexDocsEqual_characterised_witness :
  fst (numericalIndexDocsEqual [("title", VString "text")] [("title", VInt32 1)]) = false.
Proof.
  destruct (numericalIndexDocsEqual_characterised [("title", VString "text")]
              [("title", VInt32 1)]) as (_ & _ & H).
  apply (H "title" (VString "text") [] []); [reflexivity|reflexivity|discriminate].
Defined.

Lemma numericalIndexDocsEqual_equivalence_witness :
  fst (numericalIndexDocsEqual [("n", VInt32 1)] [("n", VDouble 1)]) = true.
Proof.
  destruct numericalIndexDocsEqual_equivalence as (_ & _ & H).
  apply (H [("n", VInt32 1)] [("n", VInt64 1)] [("n", VDouble 1)]); reflexivity.
Defined.

(** ** Opening an upload stream *)

(** X5: [OpenUploadStreamWithID] hands out a stream only with the
    first-write flag set.  The stream is new and open, bound to the file
    id, the name and the two collections of the bucket, and its chunk
    size is the one of the upload options when they set one and the
    bucket's otherwise.  Nothing of the bucket but the flag changes, and
    with the flag already set the call does not touch the store. *)
Theorem OpenUploadStreamWithID_stream_and_flag :
  forall (b : Bucket) (fileID : Value) (filename : string)
         (opts : list (option UploadOptions)) (w : World),
    let r := OpenUploadStreamWithID b fileID filename opts w in
    (fst (fst r) = b \/ fst (fst r) = set_firstWriteDone b true)
    /\ (forall us, snd (fst r) = Ok us ->
          firstWriteDone (fst (fst r)) = true
          /\ exists md,
               us = newUploadStream
                      (mkUpload (default (chunkSize b)
                                   (uo_ChunkSizeBytes (MergeUploadOptions opts))) md)
                      fileID filename (chunksColl b) (filesColl b))
    /\ (firstWriteDone b = true -> snd r = w /\ fst (fst r) = b).
Proof.
  intros b fileID filename opts w r. subst r. unfold OpenUploadStreamWithID.
  destruct (deadlineContext (writeDeadline b)) as [ctx cancel].
  rewrite bind_run.
  pose proof (checkFirstWrite_bucket b ctx w) as [Bok Berr]. cbv zeta in Bok, Berr.
  assert (Hset : firstWriteDone b = true ->
                 checkFirstWrite b ctx w = ((b, None), w)).
  { intros H. unfold checkFirstWrite. rewrite H. reflexivity. }
  destruct (checkFirstWrite b ctx w) as [[b' err] w'] eqn:Hc. cbn [fst snd] in *.
  destruct err as [e|].
  - destruct Berr as [-> Hf]; [discriminate|].
    unfold ret; cbn [fst snd]. split; [left; reflexivity|]. split; [discriminate|].
    intros H. specialize (Hset H). discriminate.
  - rewrite (Bok eq_refl).
    destruct (parseUploadOptions (set_firstWriteDone b true) opts) as [upload|e] eqn:Hu;
      unfold ret; cbn [fst snd].
    + split; [right; reflexivity|]. split.
      * intros us H. inversion H; subst us. split; [reflexivity|].
        revert Hu. unfold parseUploadOptions. cbn [chunkSize set_firstWriteDone].
        destruct (uo_Metadata (MergeUploadOptions opts)) as [md|].
        -- destruct (bson_MarshalWithRegistry md) as [raw|]; [|discriminate].
           cbn. intros Hu. inversion Hu; subst. eexists; reflexivity.
        -- intros Hu. inversion Hu; subst. eexists; reflexivity.
      * intros H. specialize (Hset H). inversion Hset; subst.
        split; [reflexivity|]. destruct b; cbn in *; subst; reflexivity.
    + split; [right; reflexivity|]. split; [discriminate|].
      intros H. specialize (Hset H). inversion Hset; subst.
      split; [reflexivity|]. destruct b; cbn in *; subst; reflexivity.
Qed.

Lemma OpenUploadStreamWithID_stream_and_flag_witness :
  let b := set_firstWriteDone Example.bucket true in
  snd (OpenUploadStreamWithID b (VObjectID 9) "a.txt"
         [Some (mkUploadOptions (Some 2) None)] (Example.world [])) = Example.world [].
Proof.
  intros b.
  destruct (OpenUploadStreamWithID_stream_and_flag b (VObjectID 9) "a.txt"
              [Some (mkUploadOptions (Some 2) None)] (Example.world [])) as (_ & _ & H).
  destruct (H eq_refl) as [Hw _]. exact Hw.
Defined.

(** ** The bucket and the reader across an upload *)

Lemma same_config_refl (b : Bucket) : same_config b b.
Proof. repeat split. Qed.

Lemma same_config_trans (b b1 b2 : Bucket) :
  same_config b b1 -> same_config b1 b2 -> same_config b b2.
Proof. unfold same_config. intuition congruence. Qed.

Lemma same_config_set_readBuf (b : Bucket) (data : list byte) :
  same_config b
    (set_readBuf b (firstn (length (readBuf b)) data
                    ++ skipn (length (firstn (length (readBuf b)) data)) (readBuf b))).
Proof.
  unfold same_config. cbn. rewrite length_read_buffer. repeat split.
Qed.

(** The loop keeps the bucket but for the bytes in its read buffer, and
    the reader it leaves is what remains of the source after the reads
    it made. *)
Lemma uploadLoop_bucket_reader (source : Reader) :
  forall (b : Bucket) (us : UploadStream) (w : World),
    let out := uploadLoop b us source w in
    same_config b (fst (fst (fst (fst out))))
    /\ firstWriteDone (fst (fst (fst (fst out)))) = firstWriteDone b
    /\ exists consumed, source = consumed ++ snd (fst (fst out)).
Proof.
  induction source as [|p source IH]; intros b us w; cbv zeta.
  - rewrite uploadLoop_nil. cbv zeta. cbn [fst snd].
    split; [repeat split|]. split; [reflexivity|]. exists []. reflexivity.
  - rewrite uploadLoop_cons. cbv zeta.
    pose proof (same_config_set_readBuf b (rr_data p)) as Hb.
    set (b1 := set_readBuf b _) in *.
    assert (Hf : firstWriteDone b1 = firstWriteDone b) by reflexivity.
    assert (Hc : exists consumed, p :: source = consumed ++ source)
      by (exists [p]; reflexivity).
    destruct (match rr_err p with Some _ => _ | None => false end).
    + cbn [fst snd]. auto.
    + match goal with |- context [(if ?c then UploadStream_Write us ?q else _) ?w1] =>
        destruct ((if c then UploadStream_Write us q else ret (us, 0, None)) w1)
          as [[[us' k] werr] w2]
      end.
      cbn [fst snd]. destruct werr; [cbn [fst snd]; auto|].
      destruct (_ || is_EOF (rr_err p)); [cbn [fst snd]; auto|].
      destruct (IH b1 us' w2) as (S & F & consumed & Hs).
      split; [exact (same_config_trans _ _ _ Hb S)|]. split; [congruence|].
      exists (p :: consumed). cbn. f_equal. exact Hs.
Qed.

(** X6: an upload changes nothing of the bucket's configuration: the
    database, the two collections, the name, the chunk size, the
    concerns, the deadlines and the write buffer stay, and the read
    buffer keeps its length.  A flag that was set stays set.  The reader
    is only ever advanced: what it has left is a suffix of the source. *)
Theorem UploadFromStreamWithID_keeps_bucket :
  forall (b : Bucket) (fileID : Value) (filename : string) (source : Reader)
         (opts : list (option UploadOptions)) (w : World),
    let out := UploadFromStreamWithID b fileID filename source opts w in
    same_config b (fst (fst (fst out)))
    /\ (firstWriteDone b = true -> firstWriteDone (fst (fst (fst out))) = true)
    /\ exists consumed, source = consumed ++ snd (fst (fst out)).
Proof.
  intros b fileID filename source opts w out. subst out.
  rewrite UploadFromStreamWithID_run. cbv zeta. cbn [fst snd].
  rewrite UploadFromStreamWithID_stream_run.
  assert (Hopen : let r := OpenUploadStreamWithID b fileID filename opts w in
                  same_config b (fst (fst r))
                  /\ (firstWriteDone b = true -> firstWriteDone (fst (fst r)) = true)).
  { cbv zeta. unfold OpenUploadStreamWithID.
    destruct (deadlineContext (writeDeadline b)) as [ctx cancel]. rewrite bind_run.
    pose proof (checkFirstWrite_bucket b ctx w) as [Bok Berr]. cbv zeta in Bok, Berr.
    destruct (checkFirstWrite b ctx w) as [[b' err] w']. cbn [fst snd] in *.
    destruct err as [e|].
    - destruct Berr as [-> _]; [discriminate|]. unfold ret; cbn [fst snd].
      split; [apply same_config_refl|auto].
    - rewrite (Bok eq_refl).
      destruct (parseUploadOptions _ opts); unfold ret; cbn [fst snd];
        (split; [repeat split|reflexivity]). }
  cbv zeta in Hopen.
  destruct (OpenUploadStreamWithID b fileID filename opts w) as [[b1 [us|e]] w1].
  - cbn [fst snd] in Hopen. destruct Hopen as [S1 F1].
    destruct (UploadStream_SetWriteDeadline us (writeDeadline b1)) as [us1 [e|]].
    + cbv zeta. cbn [fst snd]. split; [exact S1|]. split; [exact F1|].
      exists []. reflexivity.
    + cbv zeta. cbn [fst snd].
      destruct (uploadLoop_bucket_reader source b1 us1 w1) as (S2 & F2 & Hs).
      split; [exact (same_config_trans _ _ _ S1 S2)|]. split; [|exact Hs].
      intros H. rewrite F2. exact (F1 H).
  - cbn [fst snd] in *. destruct Hopen as [S1 F1].
    split; [exact S1|]. split; [exact F1|]. exists []. reflexivity.
Qed.

Lemma UploadFromStreamWithID_keeps_bucket_witness :
  let b := set_firstWriteDone Example.bucket true in
  firstWriteDone
    (fst (fst (fst (UploadFromStreamWithID b (VObjectID 9) "a.txt"
                      [mkReadResult [x61] None] [] (Example.world []))))) = true.
Proof.
  intros b.
  destruct (UploadFromStreamWithID_keeps_bucket b (VObjectID 9) "a.txt"
              [mkReadResult [x61] None] [] (Example.world [])) as (_ & H & _).
  exact (H eq_refl).
Defined.

(** ** Bytes that come with the end of the source *)

Lemma UploadStream_Write_trace (us : UploadStream) (p : list byte) (w : World) :
  exists tr, trace (snd (UploadStream_Write us p w)) =
               trace w ++ EvUploadWrite (FileID us) (length p) :: tr.
Proof.
  unfold UploadStream_Write. rewrite bind_run. cbn [emit fst snd].
  set (w0 := log (EvUploadWrite (FileID us) (length p)) w).
  assert (E0 : forall w', extends w0 w' ->
                 exists tr, trace w' = trace w ++ EvUploadWrite (FileID us) (length p) :: tr).
  { intros w' [tr H]. exists tr. rewrite H. subst w0. cbn. rewrite <- app_assoc.
    reflexivity. }
  destruct (us_state us); try (apply E0, extends_refl).
  rewrite bind_run.
  destruct (us_append_props p us w0) as (_ & _ & E & _). cbv zeta in E.
  destruct (us_append us p w0) as [[us' err] w']. cbn [fst snd] in *.
  destruct err; apply E0, E.
Qed.

Lemma eof_read_cond (r : ReadResult) :
  rr_err r = Some EOF ->
  match rr_err r with Some _ => negb (is_EOF (rr_err r)) | None => false end = false.
Proof. intros ->. reflexivity. Qed.

(** The loop never reads past a read that reports [io.EOF]; when it
    stops there and the read brought bytes, they are written right after
    the read, and a run without error closed the stream after that. *)
Lemma uploadLoop_eof_read (pre : list ReadResult) :
  forall (b : Bucket) (us : UploadStream) (w : World) (r : ReadResult) (rest : Reader),
    rr_err r = Some EOF ->
    let n := length (firstn (length (readBuf b)) (rr_data r)) in
    let out := uploadLoop b us (pre ++ r :: rest) w in
    (length rest <= length (snd (fst (fst out))))%nat
    /\ (snd (fst (fst out)) = rest -> (0 < n)%nat ->
        exists tr0 tr1,
          trace (snd out) =
            tr0 ++ EvSourceRead :: EvUploadWrite (FileID us) n :: tr1
          /\ (snd (fst out) = None ->
              exists tr2 tr3, tr1 = tr2 ++ EvUploadClose (FileID us) :: tr3)).
Proof.
  induction pre as [|p pre IH]; intros b us w r rest Hr; cbv zeta.
  - cbn [app]. rewrite uploadLoop_cons. cbv zeta. rewrite (eof_read_cond r Hr).
    set (data := firstn (length (readBuf b)) (rr_data r)).
    rewrite take_read_buffer.
    destruct (Z.ltb_spec 0 (Z.of_nat (length data))) as [Hpos|Hzero].
    + destruct (UploadStream_Write_trace us data (log EvSourceRead w)) as [tr Ht].
      destruct (UploadStream_Write_props us data (log EvSourceRead w))
        as ((Sid & _) & _).
      destruct (UploadStream_Write us data (log EvSourceRead w))
        as [[[us' k] werr] w2]. cbn [fst snd] in *.
      destruct werr.
      * cbn [fst snd]. split; [lia|]. intros _ _.
        exists (trace w), tr. split; [|discriminate].
        rewrite Ht. cbn. rewrite <- app_assoc. reflexivity.
      * rewrite Hr. cbn [is_EOF]. rewrite orb_true_r. cbn [fst snd].
        split; [lia|]. intros _ _.
        destruct (UploadStream_Close_trace us' w2) as [tr' Ht'].
        exists (trace w), (tr ++ EvUploadClose (FileID us) :: tr'). split.
        -- rewrite Ht', Ht, Sid. cbn. rewrite <- !app_assoc. reflexivity.
        -- intros _. exists tr, tr'. reflexivity.
    + unfold ret; cbn [fst snd]. rewrite Hr. cbn [is_EOF]. rewrite orb_true_r.
      cbn [fst snd]. split; [lia|]. intros _ Hn. lia.
  - cbn [app]. rewrite uploadLoop_cons. cbv zeta.
    assert (Hlen : (length rest <= length (pre ++ r :: rest))%nat)
      by (rewrite length_app; cbn; lia).
    destruct (match rr_err p with Some _ => _ | None => false end).
    + cbn [fst snd]. split; [exact Hlen|].
      intros H. exfalso. exact (app_cons_not_tail _ _ _ H).
    + match goal with |- context [(if ?c then UploadStream_Write us ?q else _) ?w1] =>
        destruct (write_step_props c us q w1) as (S & T & _);
        destruct ((if c then UploadStream_Write us q else ret (us, 0, None)) w1)
          as [[[us' k] werr] w2]
      end.
      cbn [fst snd] in *. destruct werr.
      * cbn [fst snd]. split; [exact Hlen|].
        intros H. exfalso. exact (app_cons_not_tail _ _ _ H).
      * destruct (_ || is_EOF (rr_err p)).
        -- cbn [fst snd]. split; [exact Hlen|].
           intros H. exfalso. exact (app_cons_not_tail _ _ _ H).
        -- destruct S as (Sid & _). rewrite <- Sid.
           match goal with |- context [uploadLoop ?b1 us' _ w2] =>
             pose proof (IH b1 us' w2 r rest Hr) as IH' end.
           cbv zeta in IH'. cbn [set_readBuf readBuf] in IH'.
           rewrite length_read_buffer in IH'. exact IH'.
Qed.

(** *** The bytes of the chunks inserted *)

Lemma uploaded_bytes_app (fileID : Value) (tr1 tr2 : list Event) :
  uploaded_bytes fileID (tr1 ++ tr2) =
  uploaded_bytes fileID tr1 ++ uploaded_bytes fileID tr2.
Proof. unfold uploaded_bytes. apply flat_map_app. Qed.

Lemma uploads_refl (fileID : Value) (w : World) : uploads fileID [] w w.
Proof. exists []. rewrite app_nil_r. split; reflexivity. Qed.

Lemma uploads_trans (fileID : Value) (x y : list byte) (w w1 w2 : World) :
  uploads fileID x w w1 -> uploads fileID y w1 w2 -> uploads fileID (x ++ y) w w2.
Proof.
  intros (t1 & H1 & B1) (t2 & H2 & B2). exists (t1 ++ t2).
  rewrite H2, H1, app_assoc, uploaded_bytes_app, B1, B2. split; reflexivity.
Qed.

Lemma uploads_log (fileID : Value) (x : list byte) (ev : Event) (w w' : World) :
  chunk_bytes fileID ev = [] -> uploads fileID x (log ev w) w' -> uploads fileID x w w'.
Proof.
  intros Hev (tr & H & B). exists (ev :: tr). split.
  - rewrite H. cbn. rewrite <- app_assoc. reflexivity.
  - cbn. rewrite Hev. exact B.
Qed.

Lemma uploads_eq (fileID : Value) (x y : list byte) (w w' : World) :
  x = y -> uploads fileID x w w' -> uploads fileID y w w'.
Proof. intros ->. auto. Qed.

(** Calls that insert no chunk insert no bytes. *)
Lemma adds_uploads (P : Event -> Prop) (fileID : Value) (w w' : World) :
  (forall ev, P ev -> chunk_bytes fileID ev = []) ->
  adds P w w' -> uploads fileID [] w w'.
Proof.
  intros HP (tr & H & F). exists tr. split; [exact H|]. clear H.
  induction F as [|ev tr Hev _ IH]; [reflexivity|].
  unfold uploaded_bytes in *. cbn [flat_map]. rewrite (HP ev Hev). exact IH.
Qed.

Lemma provisioning_no_bytes (fileID : Value) (ev : Event) :
  provisioning_call ev -> chunk_bytes fileID ev = [].
Proof. destruct ev; cbn; tauto. Qed.

Lemma chunk_bytes_chunk (fileID oid n : Value) (nm : string) (data : list byte) :
  chunk_bytes fileID
    (EvInsertOne nm [("_id", oid); ("files_id", fileID); ("n", n);
                     ("data", VBinary data)]) = data.
Proof.
  unfold chunk_bytes.
  change (Lookup "files_id" [("_id", oid); ("files_id", fileID); ("n", n);
                             ("data", VBinary data)]) with (Some fileID).
  change (Lookup "data" [("_id", oid); ("files_id", fileID); ("n", n);
                         ("data", VBinary data)]) with (Some (VBinary data)).
  cbv beta iota. rewrite Value_eqb_refl. reflexivity.
Qed.

(** A chunk that is persisted carries the bytes of the buffer. *)
Lemma us_uploadChunk_bytes (us : UploadStream) (w : World) :
  let r := us_uploadChunk us w in
  snd (fst r) = None ->
  uploads (FileID us) (us_buffer us) w (snd r) /\ us_buffer (fst (fst r)) = [].
Proof.
  cbv zeta. rewrite us_uploadChunk_run. cbv zeta. cbn [NewObjectID snd].
  destruct (next_fault w); cbn [fst snd]; [discriminate|]. intros _.
  split; [|reflexivity].
  eexists. split; [wsimpl; cbn [trace]; reflexivity|].
  unfold uploaded_bytes. cbn [flat_map]. rewrite chunk_bytes_chunk. apply app_nil_r.
Qed.

(** After a [Write] that succeeded, the bytes inserted followed by the
    bytes still in the buffer are the bytes that were in the buffer
    followed by the bytes written. *)
Lemma us_append_bytes (p : list byte) :
  forall (us : UploadStream) (w : World),
    let r := us_append us p w in
    snd (fst r) = None ->
    exists x, uploads (FileID us) x w (snd r)
              /\ x ++ us_buffer (fst (fst r)) = us_buffer us ++ p.
Proof.
  induction p as [|b p IH]; intros us w; cbv zeta; cbn [us_append].
  - intros _. exists []. split; [apply uploads_refl|]. cbn. rewrite app_nil_r.
    reflexivity.
  - set (us1 := us_set us (us_state us) (us_buffer us ++ [b]) (us_n us)
                  (us_length us + 1)).
    match goal with |- context [if ?c then _ else _] => destruct c end.
    + rewrite bind_run.
      pose proof (us_uploadChunk_bytes us1 w) as C. cbv zeta in C.
      pose proof (us_uploadChunk_props us1 w) as ((Sid & _) & _). cbv zeta in Sid.
      destruct (us_uploadChunk us1 w) as [[us2 [e|]] w2]; cbn [fst snd] in *;
        [discriminate|].
      destruct (C eq_refl) as [U B]. intros H.
      destruct (IH us2 w2 H) as (x & Ux & Hx).
      rewrite Sid in Ux. rewrite B in Hx. cbn in Hx.
      exists ((us_buffer us ++ [b]) ++ x). split.
      * exact (uploads_trans _ _ _ _ _ _ U Ux).
      * rewrite <- app_assoc, Hx, <- app_assoc. reflexivity.
    + intros H. destruct (IH us1 w H) as (x & Ux & Hx).
      exists x. split; [exact Ux|]. rewrite Hx. cbn. rewrite <- app_assoc. reflexivity.
Qed.

Lemma UploadStream_Write_bytes (us : UploadStream) (p : list byte) (w : World) :
  let r := UploadStream_Write us p w in
  snd (fst r) = None ->
  exists x, uploads (FileID us) x w (snd r)
            /\ x ++ us_buffer (fst (fst (fst r))) = us_buffer us ++ p.
Proof.
  cbv zeta. unfold UploadStream_Write. rewrite bind_run. cbn [emit fst snd].
  destruct (us_state us); [|discriminate|discriminate].
  rewrite bind_run.
  pose proof (us_append_bytes p us (log (EvUploadWrite (FileID us) (length p)) w)) as A.
  cbv zeta in A.
  destruct (us_append us p _) as [[us' [e|]] w']; cbn [fst snd] in *; [discriminate|].
  intros _. destruct (A eq_refl) as (x & U & Hx). exists x. split; [|exact Hx].
  apply (uploads_log _ _ (EvUploadWrite (FileID us) (length p))); [reflexivity|exact U].
Qed.

Lemma us_filesDoc_no_bytes (fileID : Value) (nm : string) (us : UploadStream) (t : Time) :
  chunk_bytes fileID (EvInsertOne nm (us_filesDoc us t)) = [].
Proof. unfold us_filesDoc. destruct (up_metadata (us_upload us)); reflexivity. Qed.

(** A [Close] that succeeded has inserted what was left in the buffer,
    and no other bytes. *)
Lemma UploadStream_Close_bytes (us : UploadStream) (w : World) :
  let r := UploadStream_Close us w in
  snd (fst r) = None ->
  uploads (FileID us) (us_buffer us) w (snd r).
Proof.
  cbv zeta. unfold UploadStream_Close. rewrite bind_run. cbn [emit fst snd].
  destruct (us_state us); [|discriminate|discriminate].
  rewrite bind_run.
  set (w0 := log (EvUploadClose (FileID us)) w).
  assert (F : let r1 := match us_buffer us with
                        | [] => ret (us, None)
                        | _ :: _ => us_uploadChunk us
                        end w0 in
              snd (fst r1) = None ->
              uploads (FileID us) (us_buffer us) w0 (snd r1)
              /\ FileID (fst (fst r1)) = FileID us).
  { cbv zeta. destruct (us_buffer us) as [|x l] eqn:E.
    - intros _. split; [apply uploads_refl|reflexivity].
    - intros H. pose proof (us_uploadChunk_bytes us w0 H) as [U _].
      pose proof (us_uploadChunk_props us w0) as ((Sid & _) & _). cbv zeta in Sid.
      rewrite E in U. split; [exact U|exact Sid]. }
  cbv zeta in F.
  destruct (match us_buffer us with [] => ret (us, None) | _ :: _ => us_uploadChunk us end
              w0) as [[us1 [e|]] w1]; cbn [fst snd] in *; [discriminate|].
  destruct (F eq_refl) as [U Sid].
  rewrite !bind_run, Collection_InsertOne_run. cbv zeta. cbn [clock fst snd].
  destruct (next_fault w1); cbn [fst snd]; [discriminate|]. intros _.
  apply (uploads_log _ _ (EvUploadClose (FileID us))); [reflexivity|]. fold w0.
  apply (uploads_eq _ (us_buffer us ++ [])); [apply app_nil_r|].
  eapply uploads_trans; [exact U|].
  eexists. split; [wsimpl; cbn [trace]; reflexivity|].
  unfold uploaded_bytes. cbn [flat_map]. rewrite us_filesDoc_no_bytes. reflexivity.
Qed.

(** A loop that returns without error has inserted, as chunks of the
    file, what was in the buffer of the stream followed by the bytes of
    every read it consumed, in order. *)
Lemma uploadLoop_bytes (source : Reader) :
  forall (b : Bucket) (us : UploadStream) (w : World),
    let out := uploadLoop b us source w in
    snd (fst out) = None ->
    exists consumed,
      source = consumed ++ snd (fst (fst out))
      /\ uploads (FileID us)
           (us_buffer us ++ flat_map (take_read (length (readBuf b))) consumed)
           w (snd out).
Proof.
  induction source as [|p source IH]; intros b us w; cbv zeta.
  - rewrite uploadLoop_nil. cbv zeta. cbn [fst snd]. intros H.
    exists []. split; [reflexivity|]. cbn. rewrite app_nil_r.
    apply (uploads_log _ _ EvSourceRead); [reflexivity|].
    apply UploadStream_Close_bytes. exact H.
  - rewrite uploadLoop_cons. cbv zeta.
    destruct (match rr_err p with Some _ => _ | None => false end) eqn:Hc.
    + cbn [fst snd]. intros H. destruct (rr_err p); discriminate.
    + rewrite take_read_buffer. fold (take_read (length (readBuf b)) p).
      set (data := take_read (length (readBuf b)) p).
      set (w1 := log EvSourceRead w).
      assert (W : let wr := (if 0 <? Z.of_nat (length data)
                             then UploadStream_Write us data
                             else ret (us, 0, None)) w1 in
                  snd (fst wr) = None ->
                  exists x, uploads (FileID us) x w1 (snd wr)
                            /\ x ++ us_buffer (fst (fst (fst wr))) = us_buffer us ++ data).
      { cbv zeta. destruct (Z.ltb_spec 0 (Z.of_nat (length data))) as [_|Hz].
        - apply UploadStream_Write_bytes.
        - intros _. exists []. split; [apply uploads_refl|].
          destruct data; [cbn; rewrite app_nil_r; reflexivity|cbn in Hz; lia]. }
      cbv zeta in W.
      destruct (write_step_props (0 <? Z.of_nat (length data)) us data w1)
        as ((Sid & _) & _).
      destruct ((if 0 <? Z.of_nat (length data) then UploadStream_Write us data
                 else ret (us, 0, None)) w1) as [[[us' k] werr] w2].
      cbn [fst snd] in *. destruct werr; [cbn [fst snd]; discriminate|].
      destruct (W eq_refl) as (x & U & Hx).
      destruct (_ || is_EOF (rr_err p)).
      * cbn [fst snd]. intros H. exists [p]. split; [reflexivity|].
        cbn [flat_map]. rewrite app_nil_r. fold data. rewrite <- Hx.
        apply (uploads_log _ _ EvSourceRead); [reflexivity|].
        eapply uploads_trans; [exact U|].
        rewrite <- Sid. apply UploadStream_Close_bytes. exact H.
      * intros H.
        match type of H with snd (fst (uploadLoop ?b1 _ _ _)) = _ =>
          destruct (IH b1 us' w2 H) as (consumed & Hs & Uc);
          assert (Hb : length (readBuf b1) = length (readBuf b))
            by (cbn [readBuf set_readBuf]; apply length_read_buffer)
        end.
        rewrite Hb, Sid in Uc.
        exists (p :: consumed). split; [cbn; rewrite <- Hs; reflexivity|].
        cbn [flat_map]. fold data. rewrite app_assoc, <- Hx, <- app_assoc.
        apply (uploads_log _ _ EvSourceRead); [reflexivity|].
        eapply uploads_trans; [exact U|exact Uc].
Qed.

(** The stream [OpenUploadStreamWithID] returns has an empty buffer, and
    setting its deadline leaves the buffer alone. *)
Lemma OpenUploadStreamWithID_buffer (b b1 : Bucket) (fileID : Value) (filename : string)
    (opts : list (option UploadOptions)) (w w1 : World) (us : UploadStream) (t : Time) :
  OpenUploadStreamWithID b fileID filename opts w = ((b1, Ok us), w1) ->
  us_buffer (fst (UploadStream_SetWriteDeadline us t)) = [].
Proof.
  unfold OpenUploadStreamWithID.
  destruct (deadlineContext (writeDeadline b)) as [ctx cancel].
  rewrite bind_run.
  destruct (checkFirstWrite b ctx w) as [[b' err] w']. cbn [fst snd].
  destruct err; [unfold ret; discriminate|].
  destruct (parseUploadOptions _ opts); unfold ret; [|discriminate].
  intros H. inversion H; subst. reflexivity.
Qed.

(** X7: bytes that a read returns together with [io.EOF] are not lost.
    [UploadFromStreamWithID] never reads past such a read; when it stops
    there, the bytes the read stored in the buffer are written to the
    stream right after the read, and if the upload returns without error
    the stream was closed after that write and the chunks inserted for
    the file during the run hold, in order, exactly the bytes of the
    reads up to and including that read. *)
Theorem UploadFromStreamWithID_writes_bytes_read_with_EOF :
  forall (b : Bucket) (fileID : Value) (filename : string)
         (opts : list (option UploadOptions)) (w : World)
         (pre : list ReadResult) (r : ReadResult) (rest : Reader),
    rr_err r = Some EOF ->
    let n := length (firstn (length (readBuf b)) (rr_data r)) in
    let out := UploadFromStreamWithID b fileID filename (pre ++ r :: rest) opts w in
    (length rest <= length (snd (fst (fst out))))%nat
    /\ (snd (fst (fst out)) = rest -> (0 < n)%nat ->
        exists tr0 tr1,
          trace (snd out) = tr0 ++ EvSourceRead :: EvUploadWrite fileID n :: tr1
          /\ (snd (fst out) = None ->
              exists tr2 tr3, tr1 = tr2 ++ EvUploadClose fileID :: tr3))
    /\ (snd (fst (fst out)) = rest -> snd (fst out) = None ->
        uploads fileID
          (flat_map (take_read (length (readBuf b))) pre
           ++ take_read (length (readBuf b)) r)
          w (snd out)).
Proof.
  intros b fileID filename opts w pre r rest Hr n out. subst n out.
  rewrite UploadFromStreamWithID_run. cbv zeta. cbn [fst snd].
  rewrite UploadFromStreamWithID_stream_run.
  pose proof (OpenUploadStreamWithID_calls b fileID filename opts w) as A.
  apply (adds_uploads _ fileID) in A; [|apply provisioning_no_bytes].
  destruct (OpenUploadStreamWithID b fileID filename opts w) as [[b1 [us|e]] w1] eqn:Ho.
  - destruct (OpenUploadStreamWithID_Ok _ _ _ _ _ _ _ _ Ho)
      as (Hst & Hid & _ & _ & _ & Hbuf).
    pose proof (OpenUploadStreamWithID_buffer _ _ _ _ _ _ _ _ (writeDeadline b1) Ho)
      as Hempty.
    destruct (SetWriteDeadline_Open us (writeDeadline b1) Hst)
      as (us1 & Hset & _ & (Sid & _)).
    rewrite Hset in Hempty |- *. cbn [fst] in Hempty.
    cbv zeta. cbn [fst snd].
    rewrite <- Hid, <- Sid, <- Hbuf.
    destruct (uploadLoop_eof_read pre b1 us1 w1 r rest Hr) as [Hlen Hstop].
    split; [exact Hlen|]. split; [exact Hstop|].
    intros Hleft Hnone.
    destruct (uploadLoop_bytes (pre ++ r :: rest) b1 us1 w1 Hnone)
      as (consumed & Hs & U).
    rewrite Hleft in Hs.
    assert (Hc : consumed = pre ++ [r]).
    { apply (app_inv_tail rest). rewrite <- Hs, <- app_assoc. reflexivity. }
    subst consumed. rewrite Hempty, flat_map_app in U. cbn in U.
    rewrite app_nil_r in U. cbn [snd] in A.
    apply (uploads_eq _ ([] ++ flat_map (take_read (length (readBuf b1))) pre
                            ++ take_read (length (readBuf b1)) r)); [reflexivity|].
    rewrite <- Hid, <- Sid in A. eapply uploads_trans; [exact A|exact U].
  - cbn [fst snd]. split; [rewrite length_app; cbn; lia|]. split.
    + intros H. exfalso. exact (app_cons_not_tail _ _ _ H).
    + intros H. exfalso. exact (app_cons_not_tail _ _ _ H).
Qed.

Lemma UploadFromStreamWithID_writes_bytes_read_with_EOF_witness :
  let out := UploadFromStreamWithID Example.bucket (VObjectID 9) "a.txt"
               ([mkReadResult [x61; x62] None] ++ mkReadResult [x63] (Some EOF)
                  :: [mkReadResult [x64] None]) [] (Example.fresh []) in
  (exists tr0 tr1,
     trace (snd out) = tr0 ++ EvSourceRead :: EvUploadWrite (VObjectID 9) 1 :: tr1)
  /\ uploads (VObjectID 9) [x61; x62; x63] (Example.fresh []) (snd out).
Proof.
  intros out.
  destruct (UploadFromStreamWithID_writes_bytes_read_with_EOF Example.bucket
              (VObjectID 9) "a.txt" [] (Example.fresh [])
              [mkReadResult [x61; x62] None] (mkReadResult [x63] (Some EOF))
              [mkReadResult [x64] None] eq_refl) as (_ & H & U).
  split.
  - destruct H as (tr0 & tr1 & Ht & _); [vm_compute; reflexivity|vm_compute; lia|].
    exists tr0, tr1. exact Ht.
  - apply U; vm_compute; reflexivity.
Defined.

(** ** Files that are not found *)

Lemma findFile_run (b : Bucket) (ctx : Context) (filter : Document)
    (opts : list FindOptions) (w : World) :
  findFile b ctx filter opts w =
    let fo := MergeFindOptions opts in
    (match next_fault w with
     | Some e => Err e
     | None =>
         if match fo_Skip fo with Some n => n <? 0 | None => false end
         then Err (StoreError 2)
         else match find_results filter fo (docs (getColl (coll_name (filesColl b)) w)) with
              | [] => Err ErrFileNotFound
              | d :: rest => Ok (mkCursor (Some d) rest false)
              end
     end,
     log (EvFind (coll_name (filesColl b)) (coll_rp (filesColl b)) filter
            (fo_Skip fo) (fo_Sort fo)) (pop_fault w)).
Proof.
  unfold findFile. rewrite bind_run, Collection_Find_run. cbv zeta. cbn [fst snd].
  destruct (next_fault w); [reflexivity|].
  destruct (match fo_Skip _ with Some n => n <? 0 | None => false end); [reflexivity|].
  unfold Cursor_Next, newCursor; cbn [pending].
  destruct (find_results _ _ _); reflexivity.
Qed.

Lemma findChunks_no_fault (b : Bucket) (ctx : Context) (fileID : Value) (w : World) :
  next_fault w = None ->
  exists c, fst (findChunks b ctx fileID w) = Ok c.
Proof.
  intros H. unfold findChunks. rewrite bind_run, Collection_Find_run. cbv zeta.
  cbn [fst snd]. rewrite H. cbn. eexists; reflexivity.
Qed.

(** With a store that fails no call and a skip that is not negative,
    [openDownloadStream] returns [ErrFileNotFound] exactly when the find
    on the files collection yields no document, and that find is then
    the only call it makes. *)
Lemma openDownloadStream_not_found (b : Bucket) (filter : Document)
    (opts : list FindOptions) (w : World) :
  no_faults w ->
  match fo_Skip (MergeFindOptions opts) with Some n => n <? 0 | None => false end = false ->
  let files := docs (getColl (coll_name (filesColl b)) w) in
  let out := openDownloadStream b filter opts w in
  (fst out = Err ErrFileNotFound <-> find_results filter (MergeFindOptions opts) files = [])
  /\ (find_results filter (MergeFindOptions opts) files = [] ->
      snd out =
        log (EvFind (coll_name (filesColl b)) (coll_rp (filesColl b)) filter
               (fo_Skip (MergeFindOptions opts)) (fo_Sort (MergeFindOptions opts)))
            (pop_fault w)).
Proof.
  intros Hnf Hskip files out. subst files out. unfold openDownloadStream.
  destruct (deadlineContext (readDeadline b)) as [ctx cancel].
  rewrite bind_run, findFile_run. cbv zeta. cbn [fst snd].
  rewrite (no_faults_next _ Hnf), Hskip.
  destruct (find_results _ _ _) as [|d rest].
  - unfold ret; cbn. split; [tauto|reflexivity].
  - split; [|discriminate]. split; [|discriminate].
    unfold Cursor_Decode; cbn [Current].
    destruct (File_UnmarshalBSON d) as [f|e]; [|unfold ret; cbn; discriminate].
    destruct (Length f =? 0); [unfold ret; cbn; discriminate|].
    destruct (LookupErr "chunkSize" d); [|unfold ret; cbn; discriminate].
    rewrite bind_run.
    match goal with |- context [findChunks b ctx ?i ?w1] =>
      destruct (findChunks_no_fault b ctx i w1) as [c Hc] end.
    { apply no_faults_next. apply no_faults_log, no_faults_pop, Hnf. }
    rewrite Hc. unfold ret; cbn. discriminate.
Qed.

Lemma filter_nil_existsb {A : Type} (f : A -> bool) (l : list A) :
  List.filter f l = [] <-> existsb f l = false.
Proof.
  induction l as [|x l IH]; cbn; [tauto|].
  destruct (f x); cbn; [split; discriminate|exact IH].
Qed.

(** X8: with a store that fails no call, [OpenDownloadStream] returns
    [ErrFileNotFound] exactly when no document of the files collection
    has the given id.  In that case the find on the files collection is
    the only call made (no chunk is queried), and [DownloadToStream]
    returns 0 bytes with the same error, leaving the sink as it was. *)
Theorem OpenDownloadStream_not_found :
  forall (b : Bucket) (fileID : Value) (stream : Writer) (w : World),
    no_faults w ->
    let files := docs (getColl (coll_name (filesColl b)) w) in
    let w1 := log (EvFind (coll_name (filesColl b)) (coll_rp (filesColl b))
                     [("_id", fileID)] None None) (pop_fault w) in
    (fst (OpenDownloadStream b fileID w) = Err ErrFileNotFound
     <-> existsb (doc_matches [("_id", fileID)]) files = false)
    /\ (existsb (doc_matches [("_id", fileID)]) files = false ->
        OpenDownloadStream b fileID w = (Err ErrFileNotFound, w1)
        /\ DownloadToStream b fileID stream w = ((stream, 0, Some ErrFileNotFound), w1)).
Proof.
  intros b fileID stream w Hnf files w1. subst files w1.
  destruct (openDownloadStream_not_found b [("_id", fileID)] [] w Hnf eq_refl)
    as [Hiff Hw].
  cbv zeta in Hiff, Hw.
  change (find_results [("_id", fileID)] (MergeFindOptions [])
            (docs (getColl (coll_name (filesColl b)) w)))
    with (List.filter (doc_matches [("_id", fileID)])
            (docs (getColl (coll_name (filesColl b)) w))) in Hiff, Hw.
  rewrite filter_nil_existsb in Hiff, Hw.
  unfold OpenDownloadStream. split; [exact Hiff|].
  intros Hex.
  assert (Hopen : openDownloadStream b [("_id", fileID)] [] w =
                  (Err ErrFileNotFound,
                   log (EvFind (coll_name (filesColl b)) (coll_rp (filesColl b))
                          [("_id", fileID)] None None) (pop_fault w))).
  { rewrite (surjective_pairing (openDownloadStream b [("_id", fileID)] [] w)).
    rewrite (proj2 Hiff Hex), (Hw Hex). reflexivity. }
  split; [exact Hopen|].
  unfold DownloadToStream, OpenDownloadStream. rewrite bind_run, Hopen. reflexivity.
Qed.

Lemma OpenDownloadStream_not_found_witness :
  fst (OpenDownloadStream Example.bucket (VObjectID 77) (Example.world [])) =
    Err ErrFileNotFound.
Proof.
  assert (Hnf : no_faults (Example.world [])) by constructor.
  destruct (OpenDownloadStream_not_found Example.bucket (VObjectID 77)
              (mkWriter [] []) (Example.world []) Hnf) as [H _].
  apply H. vm_compute. reflexivity.
Defined.

Lemma sort_by_length {A : Type} (leb : A -> A -> bool) (l : list A) :
  length (sort_by leb l) = length l.
Proof.
  assert (Hi : forall x s, length (insert_sorted leb x s) = S (length s)).
  { intros x s. induction s as [|y s IH]; cbn; [reflexivity|].
    destruct (leb x y); cbn; [reflexivity|]. rewrite IH. reflexivity. }
  unfold sort_by. induction l as [|x l IH]; cbn [fold_right]; [reflexivity|].
  rewrite Hi, IH. reflexivity.
Qed.

Lemma skipn_nil_iff {A : Type} (n : nat) (l : list A) :
  skipn n l = [] <-> (length l <= n)%nat.
Proof.
  split.
  - intros H. apply (f_equal (@length A)) in H. rewrite length_skipn in H. cbn in H. lia.
  - apply skipn_all2.
Qed.

(** X9: a revision that does not exist.  With a store that fails no
    call, [OpenDownloadStreamByName] with revision [r] returns
    [ErrFileNotFound] exactly when the files collection holds at most
    [r] uploads of that name (for [r >= 0]), or fewer than [-r] (for
    [r < 0]). *)
Theorem OpenDownloadStreamByName_revision_not_found :
  forall (b : Bucket) (filename : string) (opts : list (option NameOptions))
         (r : Z) (w : World),
    Int32.in_range r ->
    Revision (MergeNameOptions opts) = Some r ->
    no_faults w ->
    let uploads := List.filter (doc_matches [("filename", VString filename)])
                     (docs (getColl (coll_name (filesColl b)) w)) in
    fst (OpenDownloadStreamByName b filename opts w) = Err ErrFileNotFound
    <-> Z.of_nat (length uploads) <= (if r <? 0 then - r - 1 else r).
Proof.
  intros b filename opts r w Hr Hrev Hnf uploads.
  unfold OpenDownloadStreamByName.
  rewrite (revisionSkipSort_revision opts r Hr Hrev).
  set (skip := if r <? 0 then - r - 1 else r).
  set (order := if r <? 0 then -1 else 1).
  assert (Hskip : 0 <= skip).
  { subst skip. destruct (Z.ltb_spec r 0); lia. }
  replace (if r <? 0 then (- r - 1, -1) else (r, 1)) with (skip, order)
    by (subst skip order; destruct (r <? 0); reflexivity).
  destruct (openDownloadStream_not_found b [("filename", VString filename)]
              [SetSort [("uploadDate", VInt32 order)]
                 (SetSkip (Int32.to_int64 skip) options_Find)] w Hnf) as [Hiff _].
  { cbn. unfold Int32.to_int64. apply Z.ltb_ge. exact Hskip. }
  cbv zeta in Hiff. rewrite Hiff, find_results_by_name, skipn_nil_iff.
  unfold uploads_by_date. rewrite sort_by_length. fold uploads. lia.
Qed.

Lemma OpenDownloadStreamByName_revision_not_found_witness :
  fst (OpenDownloadStreamByName Example.bucket "a.txt" [Some (mkNameOptions (Some 3))]
         (Example.world [])) = Err ErrFileNotFound.
Proof.
  assert (Hr : Int32.in_range 3) by (vm_compute; split; discriminate).
  assert (Hnf : no_faults (Example.world [])) by constructor.
  apply (OpenDownloadStreamByName_revision_not_found Example.bucket "a.txt"
           [Some (mkNameOptions (Some 3))] 3 (Example.world []) Hr eq_refl Hnf).
  vm_compute. discriminate.
Defined.

(** ** The chunks of an opened download stream *)

Lemma chunk_index_le_Int32 (c c' : Document) (i j : Z) :
  Lookup "n" c = Some (VInt32 i) ->
  Lookup "n" c' = Some (VInt32 j) ->
  chunk_index_le c c' -> i <= j.
Proof.
  unfold chunk_index_le, key_leb. intros -> ->. cbn.
  intros H. apply Qle_bool_iff in H. rewrite <- Zle_Qle in H. exact H.
Qed.

Lemma doc_matches_id (key : string) (v : Value) (d : Document) :
  doc_matches [(key, v)] d = true <-> Lookup key d = Some v.
Proof.
  unfold doc_matches. cbn [forallb fst snd]. rewrite andb_true_r.
  destruct (Lookup key d) as [x|].
  - rewrite Value_eqb_spec. split; congruence.
  - split; discriminate.
Qed.

Lemma filter_head_In {A : Type} (f : A -> bool) (l : list A) (d : A) (rest : list A) :
  List.filter f l = d :: rest -> In d l /\ f d = true.
Proof.
  intros H. apply filter_In. rewrite H. left. reflexivity.
Qed.

Lemma find_results_chunks (fileID : Value) (l : list Document) :
  find_results [("files_id", fileID)]
    (MergeFindOptions [SetSort [("n", VInt32 1)] options_Find]) l =
  sort_by (doc_leb "n" 1) (List.filter (doc_matches [("files_id", fileID)]) l).
Proof. reflexivity. Qed.

(** The chunk cursor [findChunks] returns: the chunks of the file, in
    ascending order of "n", not yet advanced. *)
Lemma findChunks_Ok (b : Bucket) (ctx : Context) (fileID : Value) (w : World)
    (c : Cursor Document) :
  fst (findChunks b ctx fileID w) = Ok c ->
  Current c = None /\ cursor_closed c = false
  /\ (forall ch, In ch (pending c) <->
                 In ch (docs (getColl (coll_name (chunksColl b)) w))
                 /\ Lookup "files_id" ch = Some fileID)
  /\ StronglySorted chunk_index_le (pending c).
Proof.
  unfold findChunks. rewrite bind_run, Collection_Find_run. cbv zeta. cbn [fst snd].
  destruct (next_fault w); [discriminate|].
  rewrite find_results_chunks.
  cbn [fo_Skip MergeFindOptions]. intros H.
  assert (Hc : c = newCursor (sort_by (doc_leb "n" 1)
                   (List.filter (doc_matches [("files_id", fileID)])
                      (docs (getColl (coll_name (chunksColl b)) w))))).
  { revert H. cbn. intros H. inversion H. reflexivity. }
  subst c. clear H. unfold newCursor. cbn [Current cursor_closed pending].
  split; [reflexivity|]. split; [reflexivity|]. split.
  - intros ch. rewrite sort_by_In, filter_In, doc_matches_id. reflexivity.
  - apply (sort_by_sorted (doc_leb "n" 1)).
    + intros x y. apply doc_leb_total.
    + intros x y z. apply doc_leb_trans.
Qed.

(** X10: the stream [OpenDownloadStream] returns.  It is open, stands
    on the file with the requested id, and takes its chunk size from the
    file's document, not from the bucket.  For a file of positive
    length its cursor holds exactly the chunks whose "files_id" is the
    file's id, in ascending order of "n", none consumed yet. *)
Theorem OpenDownloadStream_stream :
  forall (b : Bucket) (fileID : Value) (w : World) (ds : DownloadStream),
    fst (OpenDownloadStream b fileID w) = Ok ds ->
    let chunks := docs (getColl (coll_name (chunksColl b)) w) in
    (exists d, In d (docs (getColl (coll_name (filesColl b)) w))
               /\ Lookup "_id" d = Some fileID
               /\ File_UnmarshalBSON d = Ok (ds_file ds))
    /\ ID (ds_file ds) = fileID
    /\ ds_closed ds = false
    /\ ds_chunkSize ds = ChunkSize (ds_file ds)
    /\ (Length (ds_file ds) = 0 -> ds_cursor ds = None)
    /\ (Length (ds_file ds) <> 0 ->
        exists c, ds_cursor ds = Some c
                  /\ Current c = None /\ cursor_closed c = false
                  /\ (forall ch, In ch (pending c) <->
                                 In ch chunks /\ Lookup "files_id" ch = Some fileID)
                  /\ StronglySorted chunk_index_le (pending c)).
Proof.
  intros b fileID w ds. unfold OpenDownloadStream, openDownloadStream.
  destruct (deadlineContext (readDeadline b)) as [ctx cancel].
  rewrite bind_run, findFile_run. cbv zeta. cbn [fst snd].
  destruct (next_fault w); [discriminate|].
  change (MergeFindOptions []) with (mkFindOptions None None).
  cbn [fo_Skip fo_Sort].
  change (find_results [("_id", fileID)] (mkFindOptions None None)
            (docs (getColl (coll_name (filesColl b)) w)))
    with (List.filter (doc_matches [("_id", fileID)])
            (docs (getColl (coll_name (filesColl b)) w))).
  destruct (List.filter _ _) as [|d rest] eqn:Hfilter; [discriminate|].
  apply filter_head_In in Hfilter. destruct Hfilter as [Hin Hm].
  apply doc_matches_id in Hm.
  unfold Cursor_Decode; cbn [Current].
  destruct (File_UnmarshalBSON d) as [f|e] eqn:Hd; [|discriminate].
  assert (Hid : ID f = fileID).
  { revert Hd. unfold File_UnmarshalBSON.
    destruct (decode_int (Lookup "length" d)); [|discriminate].
    destruct (decode_int (Lookup "chunkSize" d)); [|discriminate].
    destruct (decode_time (Lookup "uploadDate" d)); [|discriminate].
    destruct (decode_string (Lookup "filename" d)); [|discriminate].
    intros H. inversion H. cbn. rewrite Hm. reflexivity. }
  destruct (Z.eqb_spec (Length f) 0) as [Hlen|Hlen].
  - unfold ret; cbn. intros H. inversion H; subst ds; clear H. cbn.
    split; [exists d; auto|]. repeat split; auto. intros; contradiction.
  - destruct (LookupErr "chunkSize" d); [|discriminate].
    rewrite bind_run.
    match goal with |- context [findChunks b ctx ?i ?w1] =>
      destruct (fst (findChunks b ctx i w1)) as [c|e] eqn:Hc end; [|discriminate].
    apply findChunks_Ok in Hc. rewrite Hid in Hc.
    rewrite getColl_log, getColl_pop_fault in Hc.
    unfold ret; cbn. intros H. inversion H; subst ds; clear H. cbn.
    split; [exists d; auto|]. repeat split; auto; try contradiction.
    intros _. exists c. split; [reflexivity|exact Hc].
Qed.

Lemma OpenDownloadStream_stream_witness :
  exists ds c,
    fst (OpenDownloadStream Example.bucket (VObjectID 1) (Example.world [])) = Ok ds
    /\ ds_cursor ds = Some c
    /\ StronglySorted chunk_index_le (pending c).
Proof.
  pose (ds := ltac:(let x := eval vm_compute in
                      (fst (OpenDownloadStream Example.bucket (VObjectID 1)
                              (Example.world []))) in
                    match x with Ok ?d => exact d end)).
  assert (H : fst (OpenDownloadStream Example.bucket (VObjectID 1) (Example.world [])) =
              Ok ds) by (vm_compute; reflexivity).
  destruct (OpenDownloadStream_stream _ _ _ _ H) as (_ & _ & _ & _ & _ & Hc).
  destruct Hc as (c & Hc & _ & _ & _ & Hs); [cbn; discriminate|].
  exists ds, c. split; [exact H|]. split; [exact Hc|exact Hs].
Defined.

(** ** Downloading to a sink *)

(** What copying a stream to a sink does: the sink only grows, the
    collections are not touched, and a copy that ends without error has
    handed the sink every byte the file still had to produce. *)
Lemma ds_copy_result (chunks : list Document) :
  forall (ds : DownloadStream) (dst : Writer) (copied : Z) (w : World),
    let r := ds_copy chunks ds dst copied w in
    let ds' := fst (fst (fst (fst r))) in
    let dst' := snd (fst (fst (fst r))) in
    ds_closed ds' = ds_closed ds /\ store (snd r) = store w
    /\ exists data,
         sink_data dst' = sink_data dst ++ data
         /\ (snd (fst r) = None ->
             snd (fst (fst r)) = copied + Z.of_nat (length data)
             /\ ds_produced ds + Z.of_nat (length data) = Length (ds_file ds)).
Proof.
  assert (Hfail : forall (ds : DownloadStream) (dst : Writer) (copied : Z) (w : World) (e : error),
             let r := ret (ds, dst, copied, Some e) w in
             ds_closed (fst (fst (fst (fst r)))) = ds_closed ds /\ store (snd r) = store w
             /\ exists data,
                  sink_data (snd (fst (fst (fst r)))) = sink_data dst ++ data
                  /\ (snd (fst r) = None ->
                      snd (fst (fst r)) = copied + Z.of_nat (length data)
                      /\ ds_produced ds + Z.of_nat (length data) = Length (ds_file ds))).
  { intros ds dst copied w e. cbn. split; [reflexivity|]. split; [reflexivity|].
    exists []. rewrite app_nil_r. split; [reflexivity|discriminate]. }
  assert (Hdone : forall (ds : DownloadStream) (dst : Writer) (copied : Z) (w : World),
             ds_produced ds = Length (ds_file ds) ->
             let r := ret (ds, dst, copied, @None error) w in
             ds_closed (fst (fst (fst (fst r)))) = ds_closed ds /\ store (snd r) = store w
             /\ exists data,
                  sink_data (snd (fst (fst (fst r)))) = sink_data dst ++ data
                  /\ (snd (fst r) = None ->
                      snd (fst (fst r)) = copied + Z.of_nat (length data)
                      /\ ds_produced ds + Z.of_nat (length data) = Length (ds_file ds))).
  { intros ds dst copied w Hp. cbn. split; [reflexivity|]. split; [reflexivity|].
    exists []. rewrite app_nil_r. split; [reflexivity|]. intros _. cbn. lia. }
  induction chunks as [|c chunks IH]; intros ds dst copied w; cbn [ds_copy].
  - destruct (Z.eqb_spec (ds_produced ds) (Length (ds_file ds))) as [Hp|Hp].
    + apply Hdone, Hp.
    + apply Hfail.
  - destruct (Z.eqb_spec (ds_produced ds) (Length (ds_file ds))) as [Hp|Hp];
      [apply Hfail|].
    destruct (Lookup "n" c) as [[]|]; try apply Hfail.
    destruct (Lookup "data" c) as [[]|]; try apply Hfail.
    match goal with |- context [if ?c then _ else _] => destruct c eqn:Hcond end;
      [|apply Hfail].
    apply andb_true_iff in Hcond. destruct Hcond as [_ Hwant]. apply Z.eqb_eq in Hwant.
    cbv zeta. rewrite bind_run, Writer_Write_run.
    destruct (sink_script dst) as [|[e|] script]; cbn [fst snd].
    + match goal with |- context [ds_copy chunks ?d ?s ?k ?w0] =>
        destruct (IH d s k w0) as (Hc & Hs & data2 & Hd & Hn) end.
      cbv zeta in Hc, Hs, Hd, Hn. cbn [sink_data ds_advance ds_closed ds_produced ds_file] in *.
      split; [exact Hc|]. split; [rewrite Hs; reflexivity|].
      exists (data ++ data2). rewrite app_assoc. split; [exact Hd|].
      intros He. destruct (Hn He) as [Hn1 Hn2]. rewrite length_app. lia.
    + unfold ret; cbn. split; [reflexivity|]. split; [reflexivity|].
      exists []. rewrite app_nil_r. split; [reflexivity|discriminate].
    + match goal with |- context [ds_copy chunks ?d ?s ?k ?w0] =>
        destruct (IH d s k w0) as (Hc & Hs & data2 & Hd & Hn) end.
      cbv zeta in Hc, Hs, Hd, Hn. cbn [sink_data ds_advance ds_closed ds_produced ds_file] in *.
      split; [exact Hc|]. split; [rewrite Hs; reflexivity|].
      exists (data ++ data2). rewrite app_assoc. split; [exact Hd|].
      intros He. destruct (Hn He) as [Hn1 Hn2]. rewrite length_app. lia.
Qed.

(** X11: [downloadToStream] on every path.  The stream it hands back is
    closed and closing it is the last call made; the sink only grows and
    no collection is changed.  An error makes the count 0, whatever was
    written to the sink before it; without an error the count is the
    number of bytes the sink received.  A stream that was already closed
    gives [ErrStreamClosed]. *)
Theorem downloadToStream_result :
  forall (b : Bucket) (ds : DownloadStream) (stream : Writer) (w : World),
    let out := downloadToStream b ds stream w in
    let ds' := fst (fst (fst (fst out))) in
    let stream' := snd (fst (fst (fst out))) in
    let n := snd (fst (fst out)) in
    let err := snd (fst out) in
    ds_closed ds' = true /\ ds_file ds' = ds_file ds
    /\ (exists tr, trace (snd out) = trace w ++ tr ++ [EvDownloadClose (ID (ds_file ds))])
    /\ store (snd out) = store w
    /\ (exists data,
          sink_data stream' = sink_data stream ++ data
          /\ match err with
             | Some _ => n = 0
             | None => n = Z.of_nat (length data)
                       /\ ds_produced ds + n = Length (ds_file ds)
             end)
    /\ (if ds_closed ds then err = Some ErrStreamClosed /\ stream' = stream else True).
Proof.
  intros b ds stream w. cbv zeta.
  split; [|split; [|split; [apply downloadToStream_closes|]]].
  all: unfold downloadToStream, DownloadStream_SetReadDeadline.
  all: destruct (ds_closed ds) eqn:Hc.
  all: try (rewrite bind_run; cbn; try reflexivity).
  - unfold io_Copy. cbn [ds_closed].
    match goal with |- context [ds_copy ?l ?d ?s ?k w] =>
      destruct (ds_copy l d s k w) as [[[[ds' stream'] copied] [e|]] w'] end;
      reflexivity.
  - unfold io_Copy. cbn [ds_closed].
    match goal with |- context [ds_copy ?l ?d ?s ?k w] =>
      destruct (ds_copy_props l d s k w) as [F _];
      destruct (ds_copy l d s k w) as [[[[ds' stream'] copied] [e|]] w'] end;
      cbn in *; exact F.
  - split; [reflexivity|]. split; [|auto].
    exists []. rewrite app_nil_r. split; reflexivity.
  - unfold io_Copy. cbn [ds_closed].
    match goal with |- context [ds_copy ?l ?d ?s ?k w] =>
      destruct (ds_copy_result l d s k w) as (_ & Hs & data & Hd & Hn);
      destruct (ds_copy l d s k w) as [[[[ds' stream'] copied] [e|]] w'] end;
      cbn in *.
    + split; [exact Hs|]. split; [|exact I]. exists data. split; [exact Hd|reflexivity].
    + split; [exact Hs|]. split; [|exact I]. exists data. split; [exact Hd|].
      destruct (Hn eq_refl) as [Hn1 Hn2]. lia.
Qed.

Lemma openDownloadStream_fresh (b : Bucket) (filter : Document)
    (opts : list FindOptions) (w : World) (ds : DownloadStream) :
  fst (openDownloadStream b filter opts w) = Ok ds ->
  ds_closed ds = false /\ ds_produced ds = 0.
Proof.
  unfold openDownloadStream. destruct (deadlineContext (readDeadline b)) as [ctx cancel].
  rewrite bind_run.
  destruct (fst (findFile b ctx filter opts w)) as [cursor|e]; [|discriminate].
  destruct (Cursor_Decode cursor) as [foundFile|e]; [|discriminate].
  destruct (Length foundFile =? 0).
  - cbn. intros H. inversion H. split; reflexivity.
  - destruct (match Current cursor with Some cur => _ | None => _ end); [|discriminate].
    rewrite bind_run.
    destruct (fst (findChunks _ _ _ _)); [|discriminate].
    cbn. intros H. inversion H. split; reflexivity.
Qed.

Lemma openDownloadStream_store (b : Bucket) (filter : Document)
    (opts : list FindOptions) (w : World) :
  store (snd (openDownloadStream b filter opts w)) = store w.
Proof.
  unfold openDownloadStream. destruct (deadlineContext (readDeadline b)) as [ctx cancel].
  rewrite bind_run.
  pose proof (findFile_world b ctx filter opts w) as Hw.
  destruct (findFile b ctx filter opts w) as [[cursor|e] w1]; cbn [fst snd] in *;
    subst w1; [|reflexivity].
  destruct (Cursor_Decode cursor) as [foundFile|e]; [|reflexivity].
  destruct (Length foundFile =? 0); [reflexivity|].
  destruct (match Current cursor with Some cur => _ | None => _ end); [|reflexivity].
  rewrite bind_run.
  match goal with |- context [findChunks b ctx ?i ?w1] =>
    pose proof (findChunks_world b ctx i w1) as Hc;
    destruct (findChunks b ctx i w1) as [[c|e] w2] end;
    cbn [fst snd] in *; subst w2; reflexivity.
Qed.

(** A download that succeeds, from any stream [openDownloadStream]
    returned. *)
Lemma download_success (b : Bucket) (filter : Document) (opts : list FindOptions)
    (stream stream' : Writer) (n : Z) (w : World) :
  let open := openDownloadStream b filter opts in
  let download :=
    (let* r := open in
     match r with
     | Err e => ret (stream, 0, Some e)
     | Ok ds =>
         let* r := downloadToStream b ds stream in
         match r with
         | (_, stream, copied, err) => ret (stream, copied, err)
         end
     end) in
  fst (download w) = (stream', n, None) ->
  exists ds data,
    fst (open w) = Ok ds
    /\ n = Length (ds_file ds)
    /\ sink_data stream' = sink_data stream ++ data
    /\ Z.of_nat (length data) = n.
Proof.
  cbv zeta. rewrite bind_run.
  destruct (fst (openDownloadStream b filter opts w)) as [ds|e] eqn:Hopen;
    [|discriminate].
  destruct (openDownloadStream_fresh _ _ _ _ _ Hopen) as [Hc Hp].
  rewrite bind_run.
  destruct (downloadToStream_result b ds stream
              (snd (openDownloadStream b filter opts w)))
    as (_ & _ & _ & _ & (data & Hd & Hn) & _).
  cbv zeta in Hd, Hn.
  destruct (fst (downloadToStream b ds stream _)) as [[[ds' s'] k] err].
  cbn in *. intros H. inversion H; subst. destruct Hn as [Hn1 Hn2].
  exists ds, data. repeat split; auto; lia.
Qed.

(** X12: a download that reports no error delivered the whole file.
    When [DownloadToStream] returns no error, the count is the length
    declared in the metadata document of the file with that id, and the
    sink has received exactly that many bytes after what it held. *)
Theorem DownloadToStream_success :
  forall (b : Bucket) (fileID : Value) (stream stream' : Writer) (n : Z) (w : World),
    fst (DownloadToStream b fileID stream w) = (stream', n, None) ->
    exists ds data,
      fst (OpenDownloadStream b fileID w) = Ok ds
      /\ ID (ds_file ds) = fileID
      /\ n = Length (ds_file ds)
      /\ sink_data stream' = sink_data stream ++ data
      /\ Z.of_nat (length data) = n.
Proof.
  intros b fileID stream stream' n w H.
  destruct (download_success b [("_id", fileID)] [] stream stream' n w H)
    as (ds & data & Hopen & Hn & Hd & Hl).
  exists ds, data. split; [exact Hopen|]. split; [|auto].
  unfold OpenDownloadStream in Hopen.
  destruct (openDownloadStream_located _ _ _ _ _ Hopen) as (d & Hnth & Hdec).
  change (find_results [("_id", fileID)] (MergeFindOptions [])
            (docs (getColl (coll_name (filesColl b)) w)))
    with (List.filter (doc_matches [("_id", fileID)])
            (docs (getColl (coll_name (filesColl b)) w))) in Hnth.
  destruct (List.filter _ _) as [|d0 rest] eqn:Hf; [discriminate|].
  cbn in Hnth. inversion Hnth; subst d0.
  apply filter_head_In in Hf. destruct Hf as [_ Hm]. apply doc_matches_id in Hm.
  revert Hdec. unfold File_UnmarshalBSON.
  destruct (decode_int (Lookup "length" d)); [|discriminate].
  destruct (decode_int (Lookup "chunkSize" d)); [|discriminate].
  destruct (decode_time (Lookup "uploadDate" d)); [|discriminate].
  destruct (decode_string (Lookup "filename" d)); [|discriminate].
  intros E. inversion E as [E']. cbn. rewrite Hm. reflexivity.
Qed.

Lemma DownloadToStream_success_witness :
  exists ds data,
    fst (OpenDownloadStream Example.bucket (VObjectID 1) (Example.world [])) = Ok ds
    /\ ID (ds_file ds) = VObjectID 1
    /\ 2 = Length (ds_file ds)
    /\ sink_data (mkWriter [x61; x62] []) = sink_data (mkWriter [] []) ++ data
    /\ Z.of_nat (length data) = 2.
Proof.
  apply (DownloadToStream_success Example.bucket (VObjectID 1) (mkWriter [] [])
           (mkWriter [x61; x62] []) 2 (Example.world [])).
  vm_compute. reflexivity.
Defined.

(** X13: downloads are read-only.  None of [OpenDownloadStream],
    [OpenDownloadStreamByName], [DownloadToStream] and
    [DownloadToStreamByName] changes a collection, whatever the store
    and the sink do. *)
Theorem downloads_read_only :
  forall (b : Bucket) (fileID : Value) (filename : string)
         (opts : list (option NameOptions)) (stream : Writer) (w : World),
    store (snd (OpenDownloadStream b fileID w)) = store w
    /\ store (snd (OpenDownloadStreamByName b filename opts w)) = store w
    /\ store (snd (DownloadToStream b fileID stream w)) = store w
    /\ store (snd (DownloadToStreamByName b filename stream opts w)) = store w.
Proof.
  intros b fileID filename opts stream w.
  assert (Hdl : forall filter fo,
             store (snd ((let* r := openDownloadStream b filter fo in
                          match r with
                          | Err e => ret (stream, 0, Some e)
                          | Ok ds =>
                              let* r := downloadToStream b ds stream in
                              match r with
                              | (_, stream, copied, err) => ret (stream, copied, err)
                              end
                          end) w)) = store w).
  { intros filter fo. rewrite bind_run.
    pose proof (openDownloadStream_store b filter fo w) as Hs.
    destruct (openDownloadStream b filter fo w) as [[ds|e] w1]; cbn [fst snd] in *;
      [|exact Hs].
    rewrite bind_run.
    destruct (downloadToStream_result b ds stream w1) as (_ & _ & _ & Hs' & _).
    cbv zeta in Hs'.
    destruct (downloadToStream b ds stream w1) as [[[[ds' s'] k] err] w2].
    cbn in *. congruence. }
  split; [apply openDownloadStream_store|].
  split; [unfold OpenDownloadStreamByName;
          destruct (revisionSkipSort opts); apply openDownloadStream_store|].
  split; [apply Hdl|].
  unfold DownloadToStreamByName, OpenDownloadStreamByName.
  destruct (revisionSkipSort opts). apply Hdl.
Qed.

(** X14: downloading by name delivers a whole file.  When
    [DownloadToStreamByName] returns no error, the count is the declared
    length of the file [OpenDownloadStreamByName] selects for the same
    name and options, and the sink received exactly that many bytes. *)
Theorem DownloadToStreamByName_success :
  forall (b : Bucket) (filename : string) (opts : list (option NameOptions))
         (stream stream' : Writer) (n : Z) (w : World),
    fst (DownloadToStreamByName b filename stream opts w) = (stream', n, None) ->
    exists ds data,
      fst (OpenDownloadStreamByName b filename opts w) = Ok ds
      /\ n = Length (ds_file ds)
      /\ sink_data stream' = sink_data stream ++ data
      /\ Z.of_nat (length data) = n.
Proof.
  intros b filename opts stream stream' n w.
  unfold DownloadToStreamByName, OpenDownloadStreamByName.
  destruct (revisionSkipSort opts). apply download_success.
Qed.

Lemma DownloadToStreamByName_success_witness :
  exists ds data,
    fst (OpenDownloadStreamByName Example.bucket "a.txt" [Some (mkNameOptions (Some 0))]
           (Example.world [])) = Ok ds
    /\ 1 = Length (ds_file ds)
    /\ sink_data (mkWriter [x63] []) = sink_data (mkWriter [] []) ++ data
    /\ Z.of_nat (length data) = 1.
Proof.
  apply (DownloadToStreamByName_success Example.bucket "a.txt"
           [Some (mkNameOptions (Some 0))] (mkWriter [] []) (mkWriter [x63] []) 1
           (Example.world [])).
  vm_compute. reflexivity.
Defined.

(** ** What deletion leaves behind *)

(** The outcome of [Delete] and the collections after it, by the two
    entries of the failure script it consumes. *)
Lemma Delete_store (b : Bucket) (fileID : Value) (w : World) :
  collections_distinct b ->
  let files := coll_name (filesColl b) in
  let chunks := coll_name (chunksColl b) in
  let out := Delete b fileID w in
  let found := existsb (doc_matches [("_id", fileID)]) (docs (getColl files w)) in
  fst out = match next_fault w with
            | Some e => Some e
            | None => if found then next_fault (pop_fault w) else Some ErrFileNotFound
            end
  /\ getColl files (snd out) =
       match next_fault w with
       | Some _ => getColl files w
       | None =>
           if found
           then mkCollData (remove_first [("_id", fileID)] (docs (getColl files w)))
                  (indexes (getColl files w))
           else getColl files w
       end
  /\ getColl chunks (snd out) =
       match next_fault (pop_fault w) with
       | Some _ => getColl chunks w
       | None =>
           mkCollData (List.filter (fun d => negb (doc_matches [("files_id", fileID)] d))
                         (docs (getColl chunks w)))
             (indexes (getColl chunks w))
       end
  /\ (forall nm, nm <> files -> nm <> chunks -> getColl nm (snd out) = getColl nm w)
  /\ faults (snd out) = tl (tl (faults w)).
Proof.
  intros Hd files chunks out found. subst out found.
  assert (Hd' : chunks <> files) by (intros E; apply Hd; symmetry; exact E).
  unfold Delete. destruct (deadlineContext (writeDeadline b)) as [ctx cancel].
  unfold DeleteContext, deleteChunks.
  set (ctx' := match Timeout (db_Client (db b)) with Some _ => _ | None => _ end).
  rewrite bind_run, Collection_DeleteOne_run. fold files. cbv zeta.
  destruct (next_fault w) as [e0|] eqn:Hf; cbn [fst snd];
    [|destruct (existsb _ _) eqn:Hex; cbn [fst snd DeletedCount Z.eqb]].
  all: rewrite !bind_run, Collection_DeleteMany_run; fold chunks; cbv zeta; wsimpl.
  all: rewrite ?(getColl_put_coll_ne files chunks) by exact Hd.
  all: destruct (next_fault (pop_fault w)); wsimpl.
  all: rewrite ?(getColl_put_coll_ne files chunks) by exact Hd.
  all: rewrite ?(getColl_put_coll_ne chunks files) by exact Hd'.
  all: wsimpl.
  all: refine (conj eq_refl (conj eq_refl (conj eq_refl (conj _ eq_refl)))).
  all: intros nm Hn Hn'.
  all: rewrite ?(getColl_put_coll_ne chunks nm) by congruence.
  all: wsimpl.
  all: rewrite ?(getColl_put_coll_ne files nm) by congruence.
  all: reflexivity.
Qed.

Section RemoveFirst.
Variable filter : Document.

Lemma remove_first_keeps_others (l : list Document) :
  List.filter (fun d => negb (doc_matches filter d)) (remove_first filter l) =
  List.filter (fun d => negb (doc_matches filter d)) l.
Proof.
  induction l as [|d l IH]; cbn; [reflexivity|].
  destruct (doc_matches filter d) eqn:E; cbn; [reflexivity|].
  rewrite E; cbn. rewrite IH. reflexivity.
Qed.

Lemma remove_first_matching (l : list Document) :
  length (List.filter (doc_matches filter) (remove_first filter l)) =
  Nat.pred (length (List.filter (doc_matches filter) l)).
Proof.
  induction l as [|d l IH]; cbn; [reflexivity|].
  destruct (doc_matches filter d) eqn:E; cbn; [reflexivity|].
  rewrite E. exact IH.
Qed.

Lemma remove_first_length (l : list Document) :
  existsb (doc_matches filter) l = true ->
  S (length (remove_first filter l)) = length l.
Proof.
  induction l as [|d l IH]; cbn; [discriminate|].
  destruct (doc_matches filter d); cbn; [reflexivity|].
  intros H. rewrite (IH H). reflexivity.
Qed.
End RemoveFirst.

Lemma filter_length_0 {A : Type} (f : A -> bool) (l : list A) :
  length (List.filter f l) = 0%nat -> existsb f l = false.
Proof.
  intros H. apply filter_nil_existsb. destruct (List.filter f l); [reflexivity|discriminate].
Qed.

Lemma filter_idem {A : Type} (f : A -> bool) (l : list A) :
  List.filter f (List.filter f l) = List.filter f l.
Proof.
  induction l as [|x l IH]; cbn; [reflexivity|].
  destruct (f x) eqn:E; cbn; rewrite ?E, IH; reflexivity.
Qed.

Lemma existsb_filter_negb {A : Type} (f : A -> bool) (l : list A) :
  existsb f (List.filter (fun x => negb (f x)) l) = false.
Proof.
  induction l as [|x l IH]; cbn; [reflexivity|].
  destruct (f x) eqn:E; cbn; [exact IH|]. rewrite E, IH. reflexivity.
Qed.

(** X15: [Delete] touches nothing but the file asked for.  Whatever the
    store does, in each of the two collections the documents that do not
    belong to the file remain, in their order; at most one metadata
    document goes; the indexes of both collections and every other
    collection of the database stay as they were. *)
Theorem Delete_frame :
  forall (b : Bucket) (fileID : Value) (w : World),
    collections_distinct b ->
    let files := coll_name (filesColl b) in
    let chunks := coll_name (chunksColl b) in
    let w' := snd (Delete b fileID w) in
    List.filter (fun d => negb (doc_matches [("_id", fileID)] d)) (docs (getColl files w')) =
      List.filter (fun d => negb (doc_matches [("_id", fileID)] d)) (docs (getColl files w))
    /\ (length (docs (getColl files w)) <= S (length (docs (getColl files w'))))%nat
    /\ List.filter (fun d => negb (doc_matches [("files_id", fileID)] d))
         (docs (getColl chunks w')) =
       List.filter (fun d => negb (doc_matches [("files_id", fileID)] d))
         (docs (getColl chunks w))
    /\ indexes (getColl files w') = indexes (getColl files w)
    /\ indexes (getColl chunks w') = indexes (getColl chunks w)
    /\ (forall nm, nm <> files -> nm <> chunks -> getColl nm w' = getColl nm w).
Proof.
  intros b fileID w Hd files chunks w'. subst w'.
  destruct (Delete_store b fileID w Hd) as (_ & Hfiles & Hchunks & Hother & _).
  cbv zeta in Hfiles, Hchunks, Hother. fold files chunks in Hfiles, Hchunks, Hother.
  rewrite Hfiles, Hchunks.
  split; [|split; [|split; [|split; [|split]]]].
  - destruct (next_fault w); [reflexivity|].
    destruct (existsb _ _); [|reflexivity]. cbn [docs].
    apply remove_first_keeps_others.
  - destruct (next_fault w); [lia|].
    destruct (existsb _ _) eqn:Hex; [|lia]. cbn [docs].
    rewrite (remove_first_length _ _ Hex). lia.
  - destruct (next_fault (pop_fault w)); [reflexivity|]. cbn [docs].
    apply filter_idem.
  - destruct (next_fault w); [reflexivity|]. destruct (existsb _ _); reflexivity.
  - destruct (next_fault (pop_fault w)); reflexivity.
  - exact Hother.
Qed.

Lemma Delete_frame_witness :
  let w' := snd (Delete Example.bucket (VObjectID 1) (Example.world [])) in
  indexes (getColl "fs.files" w') = indexes (getColl "fs.files" (Example.world [])).
Proof.
  assert (Hd : collections_distinct Example.bucket)
    by (unfold collections_distinct; cbn; discriminate).
  destruct (Delete_frame Example.bucket (VObjectID 1) (Example.world []) Hd)
    as (_ & _ & _ & H & _).
  exact H.
Defined.

(** X16: a deleted file is gone.  With a store that fails no call and a
    files collection holding at most one document with the id, [Delete]
    returns no error exactly when the file exists; afterwards no
    metadata document has the id and no chunk belongs to it, so that
    [OpenDownloadStream] and a second [Delete] of the same id both
    return [ErrFileNotFound]. *)
Theorem Delete_then_not_found :
  forall (b : Bucket) (fileID : Value) (w : World),
    collections_distinct b ->
    no_faults w ->
    let files := coll_name (filesColl b) in
    let chunks := coll_name (chunksColl b) in
    (length (List.filter (doc_matches [("_id", fileID)]) (docs (getColl files w))) <= 1)%nat ->
    let out := Delete b fileID w in
    (fst out = None <->
       existsb (doc_matches [("_id", fileID)]) (docs (getColl files w)) = true)
    /\ (fst out = None \/ fst out = Some ErrFileNotFound)
    /\ existsb (doc_matches [("_id", fileID)]) (docs (getColl files (snd out))) = false
    /\ existsb (doc_matches [("files_id", fileID)]) (docs (getColl chunks (snd out))) = false
    /\ fst (OpenDownloadStream b fileID (snd out)) = Err ErrFileNotFound
    /\ fst (Delete b fileID (snd out)) = Some ErrFileNotFound.
Proof.
  intros b fileID w Hd Hnf files chunks Huniq out. subst out.
  destruct (Delete_store b fileID w Hd) as (Hres & Hfiles & Hchunks & _ & Hfaults).
  cbv zeta in Hres, Hfiles, Hchunks. fold files chunks in Hres, Hfiles, Hchunks.
  rewrite (no_faults_next _ Hnf) in Hres, Hfiles.
  rewrite (no_faults_next _ (no_faults_pop _ Hnf)) in Hres, Hchunks.
  assert (Hnf' : no_faults (snd (Delete b fileID w))).
  { unfold no_faults. rewrite Hfaults.
    apply (no_faults_pop _ (no_faults_pop _ Hnf)). }
  assert (Hgone : existsb (doc_matches [("_id", fileID)])
                    (docs (getColl files (snd (Delete b fileID w)))) = false).
  { rewrite Hfiles. destruct (existsb _ _) eqn:Hex; [|exact Hex]. cbn [docs].
    apply filter_length_0. rewrite remove_first_matching. lia. }
  split; [|split; [|split; [exact Hgone|split; [|split]]]].
  - rewrite Hres. destruct (existsb _ _); split; congruence.
  - rewrite Hres. destruct (existsb _ _); auto.
  - rewrite Hchunks. cbn [docs]. apply existsb_filter_negb.
  - destruct (openDownloadStream_not_found b [("_id", fileID)] [] _ Hnf' eq_refl)
      as [Hiff _].
    cbv zeta in Hiff. apply Hiff.
    change (find_results [("_id", fileID)] (MergeFindOptions []) ?l)
      with (List.filter (doc_matches [("_id", fileID)]) l).
    apply filter_nil_existsb. exact Hgone.
  - destruct (Delete_store b fileID (snd (Delete b fileID w)) Hd) as (Hres2 & _).
    cbv zeta in Hres2. fold files in Hres2.
    rewrite (no_faults_next _ Hnf'), Hgone in Hres2. exact Hres2.
Qed.

Lemma Delete_then_not_found_witness :
  let out := Delete Example.bucket (VObjectID 1) (Example.world []) in
  fst out = None
  /\ fst (OpenDownloadStream Example.bucket (VObjectID 1) (snd out)) = Err ErrFileNotFound
  /\ fst (Delete Example.bucket (VObjectID 1) (snd out)) = Some ErrFileNotFound.
Proof.
  assert (Hd : collections_distinct Example.bucket)
    by (unfold collections_distinct; cbn; discriminate).
  assert (Hnf : no_faults (Example.world [])) by constructor.
  assert (Hu : (length (List.filter (doc_matches [("_id", VObjectID 1)])
                          (docs (getColl (coll_name (filesColl Example.bucket))
                                   (Example.world [])))) <= 1)%nat)
    by (vm_compute; lia).
  destruct (Delete_then_not_found Example.bucket (VObjectID 1) (Example.world [])
              Hd Hnf Hu) as (H1 & _ & _ & _ & H2 & H3).
  split; [apply H1; vm_compute; reflexivity|]. split; [exact H2|exact H3].
Defined.

(** X17: a failed delete of the metadata document.  When the store
    fails the delete on the files collection, [Delete] returns that
    error, also when the delete of the chunks fails with another one;
    the files collection is unchanged, and the chunks of the file are
    deleted all the same when the store accepts that second call. *)
Theorem Delete_metadata_error :
  forall (b : Bucket) (fileID : Value) (w : World) (e : error),
    collections_distinct b ->
    next_fault w = Some e ->
    let files := coll_name (filesColl b) in
    let chunks := coll_name (chunksColl b) in
    let out := Delete b fileID w in
    fst out = Some e
    /\ getColl files (snd out) = getColl files w
    /\ match next_fault (pop_fault w) with
       | Some _ => getColl chunks (snd out) = getColl chunks w
       | None =>
           existsb (doc_matches [("files_id", fileID)]) (docs (getColl chunks (snd out)))
             = false
       end.
Proof.
  intros b fileID w e Hd Hf files chunks out. subst out.
  destruct (Delete_store b fileID w Hd) as (Hres & Hfiles & Hchunks & _).
  cbv zeta in Hres, Hfiles, Hchunks. fold files chunks in Hres, Hfiles, Hchunks.
  rewrite Hf in Hres, Hfiles.
  split; [exact Hres|]. split; [exact Hfiles|].
  destruct (next_fault (pop_fault w)); [exact Hchunks|].
  rewrite Hchunks. cbn [docs]. apply existsb_filter_negb.
Qed.

Lemma Delete_metadata_error_witness :
  let out := Delete Example.bucket (VObjectID 1)
               (Example.world [Some (StoreError 7); Some (StoreError 8)]) in
  fst out = Some (StoreError 7)
  /\ getColl "fs.files" (snd out) =
     getColl "fs.files" (Example.world [Some (StoreError 7); Some (StoreError 8)]).
Proof.
  assert (Hd : collections_distinct Example.bucket)
    by (unfold collections_distinct; cbn; discriminate).
  destruct (Delete_metadata_error Example.bucket (VObjectID 1)
              (Example.world [Some (StoreError 7); Some (StoreError 8)])
              (StoreError 7) Hd eq_refl) as (H1 & H2 & _).
  split; [exact H1|exact H2].
Defined.

(** ** Renaming *)

Lemma Collection_UpdateOne_run (c : Collection) (ctx : Context)
    (filter update : Document) (w : World) :
  Collection_UpdateOne c ctx filter update w =
    match next_fault w with
    | Some e => (Err e, pop_fault w)
    | None =>
        if existsb (doc_matches filter) (docs (getColl (coll_name c) w))
        then (Ok (mkUpdateResult 1 1),
              put_coll (coll_name c)
                (mkCollData (update_first filter update (docs (getColl (coll_name c) w)))
                            (indexes (getColl (coll_name c) w))) (pop_fault w))
        else (Ok (mkUpdateResult 0 0), pop_fault w)
    end.
Proof.
  unfold Collection_UpdateOne, bind, fault, readColl, writeColl, ret; cbn.
  destruct (next_fault w); [reflexivity|].
  change (getColl ?n (pop_fault w)) with (getColl n w).
  destruct (existsb _ _); reflexivity.
Qed.

Lemma update_first_split (filter update : Document) (l : list Document) :
  existsb (doc_matches filter) l = true ->
  exists pre d post,
    l = pre ++ d :: post
    /\ existsb (doc_matches filter) pre = false
    /\ doc_matches filter d = true
    /\ update_first filter update l = pre ++ apply_update update d :: post.
Proof.
  induction l as [|x l IH]; cbn; [discriminate|].
  destruct (doc_matches filter x) eqn:E; cbn.
  - intros _. exists [], x, l. cbn. auto.
  - intros H. destruct (IH H) as (pre & d & post & Hl & Hpre & Hd & Hu).
    exists (x :: pre), d, post. cbn. rewrite E, Hpre, Hu. cbn.
    split; [rewrite Hl; reflexivity|auto].
Qed.

Lemma LookupErr_set_field_ne (key k : string) (v : Value) (d : Document) :
  k <> key -> LookupErr k (set_field key v d) = LookupErr k d.
Proof.
  intros Hk. induction d as [|[k0 x] d IH]; cbn.
  - destruct (decide (key = k)); [congruence|reflexivity].
  - destruct (decide (k0 = key)) as [->|Hne]; cbn.
    + destruct (decide (key = k)); [congruence|reflexivity].
    + destruct (decide (k0 = k)); [reflexivity|exact IH].
Qed.

Lemma Lookup_set_field_ne (key k : string) (v : Value) (d : Document) :
  k <> key -> Lookup k (set_field key v d) = Lookup k d.
Proof. intros Hk. unfold Lookup. rewrite LookupErr_set_field_ne by exact Hk. reflexivity. Qed.

Lemma Lookup_set_field_eq (key : string) (v : Value) (d : Document) :
  Lookup key (set_field key v d) = Some v.
Proof.
  unfold Lookup. induction d as [|[k0 x] d IH]; cbn.
  - destruct (decide (key = key)); [reflexivity|congruence].
  - destruct (decide (k0 = key)) as [->|Hne]; cbn.
    + destruct (decide (key = key)); [reflexivity|congruence].
    + destruct (decide (k0 = key)); [congruence|exact IH].
Qed.

Lemma rename_update (newFilename : string) (d : Document) :
  apply_update [("$set", VDocument [("filename", VString newFilename)])] d =
  set_field "filename" (VString newFilename) d.
Proof. reflexivity. Qed.

(** The outcome of [Rename] and the world after it. *)
Lemma Rename_run (b : Bucket) (fileID : Value) (newFilename : string) (w : World) :
  let files := coll_name (filesColl b) in
  Rename b fileID newFilename w =
    match next_fault w with
    | Some e => (Some e, pop_fault w)
    | None =>
        if existsb (doc_matches [("_id", fileID)]) (docs (getColl files w))
        then (None,
              put_coll files
                (mkCollData
                   (update_first [("_id", fileID)]
                      [("$set", VDocument [("filename", VString newFilename)])]
                      (docs (getColl files w)))
                   (indexes (getColl files w))) (pop_fault w))
        else (Some ErrFileNotFound, pop_fault w)
    end.
Proof.
  cbv zeta. unfold Rename. destruct (deadlineContext (writeDeadline b)) as [ctx cancel].
  unfold RenameContext. rewrite bind_run, Collection_UpdateOne_run.
  destruct (next_fault w); [reflexivity|].
  destruct (existsb _ _); reflexivity.
Qed.

(** X18: what [Rename] does.  It returns no error exactly when the store
    accepts the update and a metadata document has the id; an error of
    the store is returned as it is, and a missing file gives
    [ErrFileNotFound].  A rename that returns an error changes no
    collection.  A rename that succeeds sets "filename" in the first
    metadata document with the id and changes nothing else in the files
    collection; no other collection is ever touched. *)
Theorem Rename_outcome :
  forall (b : Bucket) (fileID : Value) (newFilename : string) (w : World),
    let files := coll_name (filesColl b) in
    let found := existsb (doc_matches [("_id", fileID)]) (docs (getColl files w)) in
    let out := Rename b fileID newFilename w in
    (fst out = None <-> next_fault w = None /\ found = true)
    /\ (forall e, next_fault w = Some e -> fst out = Some e)
    /\ (next_fault w = None -> found = false -> fst out = Some ErrFileNotFound)
    /\ (fst out <> None -> store (snd out) = store w)
    /\ (fst out = None ->
        exists pre d post,
          docs (getColl files w) = pre ++ d :: post
          /\ existsb (doc_matches [("_id", fileID)]) pre = false
          /\ Lookup "_id" d = Some fileID
          /\ docs (getColl files (snd out)) =
               pre ++ set_field "filename" (VString newFilename) d :: post
          /\ indexes (getColl files (snd out)) = indexes (getColl files w))
    /\ (forall nm, nm <> files -> getColl nm (snd out) = getColl nm w).
Proof.
  intros b fileID newFilename w files found out. subst out found.
  rewrite Rename_run. cbv zeta. fold files.
  destruct (next_fault w) as [e|] eqn:Hf; cbn [fst snd].
  - split; [split; [discriminate|intros [H _]; discriminate]|].
    split; [intros e' H; exact H|]. split; [discriminate|].
    split; [reflexivity|]. split; [discriminate|reflexivity].
  - destruct (existsb _ _) eqn:Hex; cbn [fst snd].
    + split; [split; auto|]. split; [discriminate|]. split; [discriminate|].
      split; [congruence|]. split.
      * intros _.
        destruct (update_first_split [("_id", fileID)]
                    [("$set", VDocument [("filename", VString newFilename)])]
                    _ Hex) as (pre & d & post & Hl & Hpre & Hd & Hu).
        exists pre, d, post. rewrite getColl_put_coll_eq. cbn [docs indexes].
        rewrite Hu, rename_update. apply doc_matches_id in Hd. auto.
      * intros nm Hn. rewrite getColl_put_coll_ne by congruence. reflexivity.
    + split; [split; [discriminate|intros [_ H]; discriminate]|].
      split; [discriminate|]. split; [reflexivity|].
      split; [reflexivity|]. split; [discriminate|reflexivity].
Qed.

Lemma Rename_outcome_witness :
  let out := Rename Example.bucket (VObjectID 2) "b.txt" (Example.world []) in
  fst out = None
  /\ exists pre d post,
       docs (getColl "fs.files" (snd out)) =
         pre ++ set_field "filename" (VString "b.txt") d :: post.
Proof.
  destruct (Rename_outcome Example.bucket (VObjectID 2) "b.txt" (Example.world []))
    as (H1 & _ & _ & _ & H2 & _).
  assert (H : fst (Rename Example.bucket (VObjectID 2) "b.txt" (Example.world [])) = None)
    by (apply H1; split; reflexivity).
  split; [exact H|].
  destruct (H2 H) as (pre & d & post & _ & _ & _ & Hd & _).
  exists pre, d, post. exact Hd.
Defined.

(** What [OpenDownloadStream] returns when the store fails no call, read
    off the two collections. *)
Lemma OpenDownloadStream_no_faults (b : Bucket) (fileID : Value) (w : World) :
  no_faults w ->
  fst (OpenDownloadStream b fileID w) =
    match List.filter (doc_matches [("_id", fileID)])
            (docs (getColl (coll_name (filesColl b)) w)) with
    | [] => Err ErrFileNotFound
    | d :: _ =>
        match File_UnmarshalBSON d with
        | Err e => Err (ErrWrap "error decoding files collection document" e)
        | Ok f =>
            if Length f =? 0 then Ok (newDownloadStream None (ChunkSize f) f)
            else match LookupErr "chunkSize" d with
                 | Err _ => Err ErrMissingChunkSize
                 | Ok _ =>
                     Ok (newDownloadStream
                           (Some (newCursor
                                    (sort_by (doc_leb "n" 1)
                                       (List.filter (doc_matches [("files_id", ID f)])
                                          (docs (getColl (coll_name (chunksColl b)) w))))))
                           (ChunkSize f) f)
                 end
        end
    end.
Proof.
  intros Hnf. unfold OpenDownloadStream, openDownloadStream.
  destruct (deadlineContext (readDeadline b)) as [ctx cancel].
  rewrite bind_run, findFile_run. cbv zeta. cbn [fst snd].
  rewrite (no_faults_next _ Hnf).
  change (MergeFindOptions []) with (mkFindOptions None None). cbn [fo_Skip fo_Sort].
  change (find_results [("_id", fileID)] (mkFindOptions None None) ?l)
    with (List.filter (doc_matches [("_id", fileID)]) l).
  destruct (List.filter _ _) as [|d rest]; [reflexivity|].
  unfold Cursor_Decode; cbn [Current].
  destruct (File_UnmarshalBSON d) as [f|e]; [|reflexivity].
  destruct (Length f =? 0); [reflexivity|].
  destruct (LookupErr "chunkSize" d); [|reflexivity].
  rewrite bind_run. unfold findChunks. rewrite bind_run, Collection_Find_run.
  cbv zeta. cbn [fst snd]. wsimpl.
  rewrite (no_faults_next _ (no_faults_pop _ Hnf)).
  rewrite find_results_chunks. reflexivity.
Qed.

Lemma File_UnmarshalBSON_renamed (d : Document) (f : File) (newFilename : string) :
  File_UnmarshalBSON d = Ok f ->
  File_UnmarshalBSON (set_field "filename" (VString newFilename) d) =
    Ok (mkFile (ID f) (Length f) (ChunkSize f) (UploadDate f) newFilename (Metadata f)).
Proof.
  unfold File_UnmarshalBSON.
  rewrite Lookup_set_field_eq. rewrite !Lookup_set_field_ne by discriminate.
  destruct (decode_int (Lookup "length" d)); [|discriminate].
  destruct (decode_int (Lookup "chunkSize" d)); [|discriminate].
  destruct (decode_time (Lookup "uploadDate" d)); [|discriminate].
  destruct (decode_string (Lookup "filename" d)); [|discriminate].
  intros H. inversion H. cbn. reflexivity.
Qed.

Lemma filter_app_head {A : Type} (f : A -> bool) (pre : list A) (d : A) (post : list A) :
  existsb f pre = false -> f d = true ->
  List.filter f (pre ++ d :: post) = d :: List.filter f post.
Proof.
  intros Hpre Hd. rewrite List.filter_app. apply filter_nil_existsb in Hpre.
  rewrite Hpre. cbn. rewrite Hd. reflexivity.
Qed.

(** X19: a renamed file is the same file under its new name.  With a
    store that fails no call, when [OpenDownloadStream] opens the file
    and [Rename] succeeds, opening the file again gives a stream on the
    same id, length, chunk size, upload date and metadata, with the new
    name, and with the same chunks. *)
Theorem Rename_then_open :
  forall (b : Bucket) (fileID : Value) (newFilename : string) (w : World)
         (ds : DownloadStream),
    collections_distinct b ->
    no_faults w ->
    fst (OpenDownloadStream b fileID w) = Ok ds ->
    let out := Rename b fileID newFilename w in
    fst out = None
    /\ exists ds',
         fst (OpenDownloadStream b fileID (snd out)) = Ok ds'
         /\ ds_file ds' =
              mkFile (ID (ds_file ds)) (Length (ds_file ds)) (ChunkSize (ds_file ds))
                (UploadDate (ds_file ds)) newFilename (Metadata (ds_file ds))
         /\ ds_cursor ds' = ds_cursor ds
         /\ ds_chunkSize ds' = ds_chunkSize ds.
Proof.
  intros b fileID newFilename w ds Hd Hnf Hopen out. subst out.
  set (files := coll_name (filesColl b)).
  set (chunks := coll_name (chunksColl b)).
  rewrite (OpenDownloadStream_no_faults b fileID w Hnf) in Hopen.
  fold files chunks in Hopen.
  assert (Hex : existsb (doc_matches [("_id", fileID)]) (docs (getColl files w)) = true).
  { destruct (existsb _ _) eqn:E; [reflexivity|].
    apply filter_nil_existsb in E. rewrite E in Hopen. discriminate. }
  pose proof (Rename_run b fileID newFilename w) as Hrun. cbv zeta in Hrun.
  fold files in Hrun. rewrite (no_faults_next _ Hnf), Hex in Hrun.
  rewrite Hrun. cbn [fst snd]. split; [reflexivity|].
  destruct (update_first_split [("_id", fileID)]
              [("$set", VDocument [("filename", VString newFilename)])]
              _ Hex) as (pre & d & post & Hl & Hpre & Hm & Hu).
  rewrite rename_update in Hu.
  rewrite OpenDownloadStream_no_faults
    by (unfold no_faults; cbn; apply (no_faults_pop _ Hnf)).
  fold files chunks. rewrite getColl_put_coll_eq.
  rewrite (getColl_put_coll_ne files chunks) by exact Hd.
  rewrite getColl_pop_fault. cbn [docs]. rewrite Hu.
  rewrite Hl in Hopen.
  rewrite (filter_app_head _ pre d post Hpre Hm) in Hopen.
  assert (Hm' : doc_matches [("_id", fileID)]
                  (set_field "filename" (VString newFilename) d) = true).
  { apply doc_matches_id. rewrite Lookup_set_field_ne by discriminate.
    apply doc_matches_id. exact Hm. }
  rewrite (filter_app_head _ pre _ post Hpre Hm').
  destruct (File_UnmarshalBSON d) as [f|e] eqn:Hdec; [|discriminate].
  rewrite (File_UnmarshalBSON_renamed d f newFilename Hdec). cbn [Length ID ChunkSize].
  rewrite LookupErr_set_field_ne by discriminate.
  destruct (Length f =? 0).
  - inversion Hopen; subst ds. eexists. split; [reflexivity|]. cbn. auto.
  - destruct (LookupErr "chunkSize" d); [|discriminate].
    inversion Hopen; subst ds. eexists. split; [reflexivity|]. cbn. auto.
Qed.

Lemma Rename_then_open_witness :
  let out := Rename Example.bucket (VObjectID 1) "b.txt" (Example.world []) in
  exists ds',
    fst (OpenDownloadStream Example.bucket (VObjectID 1) (snd out)) = Ok ds'
    /\ Name (ds_file ds') = "b.txt".
Proof.
  pose (ds := ltac:(let x := eval vm_compute in
                      (fst (OpenDownloadStream Example.bucket (VObjectID 1)
                              (Example.world []))) in
                    match x with Ok ?d => exact d end)).
  assert (Hd : collections_distinct Example.bucket)
    by (unfold collections_distinct; cbn; discriminate).
  assert (Hnf : no_faults (Example.world [])) by constructor.
  assert (H : fst (OpenDownloadStream Example.bucket (VObjectID 1) (Example.world [])) =
              Ok ds) by (vm_compute; reflexivity).
  destruct (Rename_then_open Example.bucket (VObjectID 1) "b.txt" (Example.world [])
              ds Hd Hnf H) as (_ & ds' & Hopen & Hfile & _).
  exists ds'. split; [exact Hopen|]. rewrite Hfile. reflexivity.
Defined.

(** ** Dropping the bucket *)

Lemma Drop_run (b : Bucket) (w : World) :
  Drop b w =
    match next_fault w with
    | Some e => (Some e, pop_fault w)
    | None =>
        let w1 := drop_coll (coll_name (filesColl b)) (pop_fault w) in
        match next_fault (pop_fault w) with
        | Some e => (Some e, pop_fault w1)
        | None => (None, drop_coll (coll_name (chunksColl b)) (pop_fault w1))
        end
    end.
Proof.
  unfold Drop. destruct (deadlineContext (writeDeadline b)) as [ctx cancel].
  unfold DropContext, Collection_Drop, bind, fault, ret; cbn.
  destruct (next_fault w); [reflexivity|].
  change (next_fault (drop_coll ?n ?w0)) with (next_fault w0).
  destruct (next_fault (pop_fault w)); reflexivity.
Qed.

(** X20: what [Drop] does.  When the store fails the drop of the files
    collection that error is returned, the chunks collection is not
    dropped (one call only is made) and nothing has changed.  When the
    drop of the chunks collection fails, that error is returned with the
    files collection gone and the chunks collection as it was.
    Otherwise both collections are gone, with their documents and
    indexes.  No other collection of the database is touched. *)
Theorem Drop_outcome :
  forall (b : Bucket) (w : World),
    collections_distinct b ->
    let files := coll_name (filesColl b) in
    let chunks := coll_name (chunksColl b) in
    let out := Drop b w in
    (forall e, next_fault w = Some e ->
       fst out = Some e /\ store (snd out) = store w
       /\ faults (snd out) = tl (faults w))
    /\ (forall e, next_fault w = None -> next_fault (pop_fault w) = Some e ->
          fst out = Some e /\ store (snd out) !! files = None
          /\ store (snd out) !! chunks = store w !! chunks)
    /\ (next_fault w = None -> next_fault (pop_fault w) = None ->
          fst out = None /\ store (snd out) !! files = None
          /\ store (snd out) !! chunks = None
          /\ getColl files (snd out) = emptyColl
          /\ getColl chunks (snd out) = emptyColl)
    /\ (forall nm, nm <> files -> nm <> chunks -> store (snd out) !! nm = store w !! nm).
Proof.
  intros b w Hd files chunks out. subst out. rewrite Drop_run. cbv zeta.
  fold files chunks.
  assert (Hd' : chunks <> files) by (intros E; apply Hd; symmetry; exact E).
  destruct (next_fault w) as [e1|]; [|destruct (next_fault (pop_fault w)) as [e2|]];
    cbn [fst snd].
  - split; [intros e H; inversion H; subst; auto|].
    split; [discriminate|]. split; [discriminate|]. reflexivity.
  - split; [discriminate|]. split.
    + intros e _ H. inversion H; subst. split; [reflexivity|]. cbn.
      rewrite lookup_delete_eq, lookup_delete_ne by exact Hd. auto.
    + split; [discriminate|]. intros nm Hn _. cbn.
      rewrite lookup_delete_ne by congruence. reflexivity.
  - split; [discriminate|]. split; [discriminate|]. split.
    + intros _ _. unfold getColl. cbn.
      rewrite lookup_delete_eq.
      rewrite (lookup_delete_ne _ _ _ Hd'), lookup_delete_eq. auto.
    + intros nm Hn Hn'. cbn. rewrite !lookup_delete_ne by congruence. reflexivity.
Qed.

Lemma Drop_outcome_witness :
  let out := Drop Example.bucket (Example.world [None; Some (StoreError 3)]) in
  fst out = Some (StoreError 3)
  /\ store (snd out) !! "fs.files" = None
  /\ store (snd out) !! "fs.chunks" =
     store (Example.world [None; Some (StoreError 3)]) !! "fs.chunks".
Proof.
  assert (Hd : collections_distinct Example.bucket)
    by (unfold collections_distinct; cbn; discriminate).
  destruct (Drop_outcome Example.bucket (Example.world [None; Some (StoreError 3)]) Hd)
    as (_ & H & _).
  exact (H (StoreError 3) eq_refl eq_refl).
Defined.

(** X21: [Drop] does not clear the first-write flag.  After a [Drop]
    that succeeded, a bucket whose flag is set opens an upload stream
    without a single call to the store: the indexes that went with the
    collections are not created again, and both collections are still
    without indexes when the stream is handed out. *)
Theorem Drop_then_OpenUploadStreamWithID :
  forall (b : Bucket) (fileID : Value) (filename : string)
         (opts : list (option UploadOptions)) (w : World),
    firstWriteDone b = true ->
    fst (Drop b w) = None ->
    let w1 := snd (Drop b w) in
    let out := OpenUploadStreamWithID b fileID filename opts w1 in
    snd out = w1
    /\ fst (fst out) = b
    /\ indexes (getColl (coll_name (filesColl b)) (snd out)) = []
    /\ indexes (getColl (coll_name (chunksColl b)) (snd out)) = [].
Proof.
  intros b fileID filename opts w Hflag Hdrop w1 out.
  assert (Hout : snd out = w1 /\ fst (fst out) = b).
  { subst out. unfold OpenUploadStreamWithID.
    destruct (deadlineContext (writeDeadline b)) as [ctx cancel].
    rewrite bind_run. unfold checkFirstWrite. rewrite Hflag. cbn [negb].
    unfold ret; cbn [fst snd].
    destruct (parseUploadOptions b opts); cbn; auto. }
  destruct Hout as [Hw Hb]. rewrite Hw. split; [reflexivity|]. split; [exact Hb|].
  subst w1. revert Hdrop. rewrite Drop_run. cbv zeta.
  destruct (next_fault w); [discriminate|].
  destruct (next_fault (pop_fault w)); [discriminate|].
  intros _. cbn [snd]. unfold getColl; cbn.
  rewrite lookup_delete_eq.
  destruct (decide (coll_name (chunksColl b) = coll_name (filesColl b))) as [E|E].
  - rewrite E, lookup_delete_eq. auto.
  - rewrite (lookup_delete_ne _ _ _ E), lookup_delete_eq. auto.
Qed.

Lemma Drop_then_OpenUploadStreamWithID_witness :
  let b := set_firstWriteDone Example.bucket true in
  let w1 := snd (Drop b (Example.world [])) in
  indexes (getColl "fs.files"
             (snd (OpenUploadStreamWithID b (VObjectID 9) "a.txt" [] w1))) = [].
Proof.
  intros b w1.
  destruct (Drop_then_OpenUploadStreamWithID b (VObjectID 9) "a.txt" []
              (Example.world []) eq_refl eq_refl) as (_ & _ & H & _).
  exact H.
Defined.

(** ** A new bucket *)

Lemma make_bytes_returns (n : Z) :
  0 <= n ->
  exists buf, make_bytes n = Returns buf /\ Z.of_nat (length buf) = n.
Proof.
  intros H. unfold make_bytes. destruct (Z.ltb_spec n 0) as [Hn|_]; [lia|].
  eexists. split; [reflexivity|]. rewrite repeat_length. lia.
Qed.

Lemma make_bytes_panics (n : Z) : n < 0 -> make_bytes n = Panics.
Proof.
  intros H. unfold make_bytes. destruct (Z.ltb_spec n 0) as [_|Hn]; [reflexivity|lia].
Qed.

Lemma MergeBucketOptions_none (opts : list (option BucketOptions)) :
  Forall (fun o => o = None) opts ->
  MergeBucketOptions opts = mkBucketOptions None None None None None.
Proof.
  intros H. unfold MergeBucketOptions.
  generalize (mkBucketOptions None None None None None).
  induction H as [|o l Ho _ IH]; intros acc; cbn; [reflexivity|].
  subst o. apply IH.
Qed.

(** X22: [NewBucket] returns no error: it returns a bucket, or panics.
    It panics exactly when the chunk size, taken from the options as it
    is, is negative, on allocating the buffers.  Otherwise the two
    collections of the bucket it returns are named after the bucket,
    "<name>.files" and "<name>.chunks", are different collections, and
    run with the concerns and the read preference of the bucket, which
    are those of the options where given and those of the database
    otherwise; no first write is recorded, no deadline is set and both
    buffers have as many bytes as the chunk size.  Without options the
    bucket is "fs" with chunks of 255 KiB. *)
Theorem NewBucket_bucket :
  forall (d : Database) (opts : list (option BucketOptions)),
    let size := default DefaultChunkSize (bo_ChunkSizeBytes (MergeBucketOptions opts)) in
    (forall e : error, NewBucket d opts <> Returns (Err e))
    /\ (size < 0 -> NewBucket d opts = Panics)
    /\ (0 <= size ->
        exists b : Bucket,
          NewBucket d opts = Returns (Ok b)
          /\ db b = d
          /\ chunkSize b = size
          /\ name b = default "fs" (bo_Name (MergeBucketOptions opts))
          /\ coll_name (filesColl b) = (name b ++ ".files")%string
          /\ coll_name (chunksColl b) = (name b ++ ".chunks")%string
          /\ collections_distinct b
          /\ filesColl b = mkCollection (coll_name (filesColl b)) (wc b) (rc b) (rp b)
          /\ chunksColl b = mkCollection (coll_name (chunksColl b)) (wc b) (rc b) (rp b)
          /\ wc b = default (db_WriteConcern d) (bo_WriteConcern (MergeBucketOptions opts))
          /\ rc b = default (db_ReadConcern d) (bo_ReadConcern (MergeBucketOptions opts))
          /\ rp b = default (db_ReadPreference d)
                      (bo_ReadPreference (MergeBucketOptions opts))
          /\ firstWriteDone b = false
          /\ deadlineContext (readDeadline b) = (Background, false)
          /\ deadlineContext (writeDeadline b) = (Background, false)
          /\ Z.of_nat (length (readBuf b)) = size
          /\ Z.of_nat (length (writeBuf b)) = size)
    /\ (Forall (fun o => o = None) opts ->
        size = 255 * 1024
        /\ default "fs" (bo_Name (MergeBucketOptions opts)) = "fs").
Proof.
  intros d opts size. split; [|split; [|split]].
  - intros e. unfold NewBucket. destruct (make_bytes _); [|discriminate]. discriminate.
  - intros H. unfold NewBucket. fold size. rewrite (make_bytes_panics size H).
    reflexivity.
  - intros H. destruct (make_bytes_returns size H) as (buf & Hbuf & Hlen).
    unfold NewBucket. fold size. rewrite Hbuf.
    eexists. split; [reflexivity|]. cbn.
    split; [reflexivity|]. split; [reflexivity|]. split; [reflexivity|].
    split; [reflexivity|]. split; [reflexivity|].
    split; [unfold collections_distinct; cbn; intros E; apply append_inj_l in E;
            discriminate E|].
    split; [reflexivity|]. split; [reflexivity|].
    split; [reflexivity|]. split; [reflexivity|]. split; [reflexivity|].
    split; [reflexivity|]. split; [reflexivity|]. split; [reflexivity|].
    split; exact Hlen.
  - intros H. subst size. rewrite (MergeBucketOptions_none opts H). split; reflexivity.
Qed.

Lemma NewBucket_bucket_witness :
  (exists b : Bucket,
     NewBucket Example.database [] = Returns (Ok b)
     /\ name b = "fs" /\ chunkSize b = 255 * 1024
     /\ Z.of_nat (length (readBuf b)) = 255 * 1024)
  /\ NewBucket Example.database [Some (mkBucketOptions None (Some (-1)) None None None)]
     = Panics.
Proof.
  split.
  - destruct (NewBucket_bucket Example.database []) as (_ & _ & Hb & Hdef).
    destruct (Hdef (List.Forall_nil _)) as [Hs Hn].
    destruct Hb as (b & Hb & _ & Hc & Hname & _ & _ & _ & _ & _ & _ & _ & _ & _ & _ & _
                    & Hbuf & _).
    { rewrite Hs. lia. }
    exists b. split; [exact Hb|]. split; [congruence|]. split; [congruence|].
    congruence.
  - destruct (NewBucket_bucket Example.database
                [Some (mkBucketOptions None (Some (-1)) None None None)]) as (_ & Hp & _).
    apply Hp. cbn. lia.
Defined.

(** ** The writes of an upload *)

Lemma not_write_within (fileID : Value) (bound : nat) (ev : Event) :
  not_write ev -> write_within fileID bound ev.
Proof. destruct ev; cbn; tauto. Qed.

Lemma provisioning_not_write (ev : Event) : provisioning_call ev -> not_write ev.
Proof. destruct ev; cbn; tauto. Qed.

Lemma insert_not_write (ev : Event) : insert_call ev -> not_write ev.
Proof. destruct ev; cbn; tauto. Qed.

Lemma OpenUploadStreamWithID_adds (b : Bucket) (fileID : Value) (filename : string)
    (opts : list (option UploadOptions)) (w : World) :
  adds not_write w (snd (OpenUploadStreamWithID b fileID filename opts w)).
Proof.
  apply (adds_mono provisioning_call); [apply provisioning_not_write|].
  apply OpenUploadStreamWithID_calls.
Qed.

Lemma us_uploadChunk_adds (us : UploadStream) (w : World) :
  adds not_write w (snd (us_uploadChunk us w)).
Proof.
  apply (adds_mono insert_call); [apply insert_not_write|apply us_uploadChunk_calls].
Qed.

Lemma us_append_adds (p : list byte) :
  forall (us : UploadStream) (w : World), adds not_write w (snd (us_append us p w)).
Proof.
  intros us w.
  apply (adds_mono insert_call); [apply insert_not_write|apply us_append_calls].
Qed.

Lemma UploadStream_Write_adds (us : UploadStream) (p : list byte) (bound : nat)
    (w : World) :
  (0 < length p <= bound)%nat ->
  adds (write_within (FileID us) bound) w (snd (UploadStream_Write us p w)).
Proof.
  intros Hp. unfold UploadStream_Write. rewrite bind_run. cbn [emit fst snd].
  apply (adds_log _ (EvUploadWrite (FileID us) (length p))); [split; [reflexivity|exact Hp]|].
  destruct (us_state us); try apply adds_refl.
  rewrite bind_run.
  pose proof (us_append_adds p us (log (EvUploadWrite (FileID us) (length p)) w)) as A.
  apply (adds_mono not_write); [apply not_write_within|].
  destruct (us_append us p _) as [[us' [e|]] w']; exact A.
Qed.

Lemma UploadStream_Close_adds (us : UploadStream) (w : World) :
  adds not_write w (snd (UploadStream_Close us w)).
Proof.
  unfold UploadStream_Close. rewrite bind_run. cbn [emit fst snd].
  apply (adds_log _ (EvUploadClose (FileID us))); [exact I|].
  set (w0 := log (EvUploadClose (FileID us)) w).
  destruct (us_state us); try apply adds_refl.
  rewrite bind_run.
  assert (A : adds not_write w0 (snd (match us_buffer us with
                                      | [] => ret (us, None)
                                      | _ :: _ => us_uploadChunk us
                                      end w0))).
  { destruct (us_buffer us); [apply adds_refl|apply us_uploadChunk_adds]. }
  destruct (match us_buffer us with [] => ret (us, None) | _ :: _ => us_uploadChunk us end
              w0) as [[us1 [e|]] w1]; cbn [fst snd] in *; [exact A|].
  rewrite !bind_run, Collection_InsertOne_run. cbv zeta. cbn [clock fst snd].
  eapply adds_trans; [exact A|].
  destruct (next_fault w1); adds_events.
Qed.

Lemma UploadStream_Abort_adds (us : UploadStream) (w : World) :
  adds not_write w (snd (UploadStream_Abort us w)).
Proof.
  unfold UploadStream_Abort. rewrite bind_run. cbn [emit fst snd].
  apply (adds_log _ (EvUploadAbort (FileID us))); [exact I|].
  destruct (us_state us); try apply adds_refl.
  rewrite bind_run, Collection_DeleteMany_run. cbv zeta. rewrite next_fault_log.
  destruct (next_fault w); adds_events.
Qed.

Lemma uploadLoop_adds (source : Reader) :
  forall (b : Bucket) (us : UploadStream) (w : World),
    adds (write_within (FileID us) (length (readBuf b))) w
         (snd (uploadLoop b us source w)).
Proof.
  induction source as [|p source IH]; intros b us w.
  - rewrite uploadLoop_nil. cbv zeta. cbn [snd].
    apply (adds_log _ EvSourceRead); [exact I|].
    apply (adds_mono not_write); [apply not_write_within|apply UploadStream_Close_adds].
  - rewrite uploadLoop_cons. cbv zeta.
    apply (adds_log _ EvSourceRead); [exact I|].
    set (w1 := log EvSourceRead w).
    set (data := firstn (length (readBuf b)) (rr_data p)).
    destruct (match rr_err p with Some _ => _ | None => false end).
    + cbn [snd]. apply (adds_mono not_write); [apply not_write_within|].
      apply UploadStream_Abort_adds.
    + rewrite take_read_buffer.
      assert (A : adds (write_within (FileID us) (length (readBuf b))) w1
                    (snd ((if 0 <? Z.of_nat (length data)
                           then UploadStream_Write us data
                           else ret (us, 0, None)) w1))).
      { destruct (Z.ltb_spec 0 (Z.of_nat (length data))) as [Hn|Hn]; [|apply adds_refl].
        apply UploadStream_Write_adds. split; [lia|].
        subst data. rewrite length_firstn. lia. }
      destruct (write_step_props (0 <? Z.of_nat (length data)) us data w1)
        as ((Sid & _) & _).
      destruct ((if 0 <? Z.of_nat (length data) then UploadStream_Write us data
                 else ret (us, 0, None)) w1) as [[[us' k] werr] w2].
      cbn [fst snd] in *. destruct werr; [exact A|].
      destruct (_ || is_EOF (rr_err p)).
      * cbn [snd]. eapply adds_trans; [exact A|].
        apply (adds_mono not_write); [apply not_write_within|].
        apply UploadStream_Close_adds.
      * eapply adds_trans; [exact A|].
        specialize (IH (set_readBuf b (data ++ skipn (length data) (readBuf b))) us' w2).
        cbn [readBuf set_readBuf] in IH. subst data.
        rewrite length_read_buffer, Sid in IH. exact IH.
Qed.

(** X23: the writes of an upload.  Every [Write] that
    [UploadFromStreamWithID] makes is on the stream of the file being
    uploaded and hands over at least one byte and at most as many as the
    read buffer of the bucket holds; no other call it causes is a
    [Write]. *)
Theorem UploadFromStreamWithID_writes :
  forall (b : Bucket) (fileID : Value) (filename : string) (source : Reader)
         (opts : list (option UploadOptions)) (w : World),
    adds (write_within fileID (length (readBuf b))) w
         (snd (UploadFromStreamWithID b fileID filename source opts w)).
Proof.
  intros b fileID filename source opts w.
  rewrite UploadFromStreamWithID_run. cbv zeta. cbn [snd].
  rewrite UploadFromStreamWithID_stream_run.
  pose proof (OpenUploadStreamWithID_adds b fileID filename opts w) as A.
  apply (adds_mono _ (write_within fileID (length (readBuf b)))) in A;
    [|apply not_write_within].
  destruct (OpenUploadStreamWithID b fileID filename opts w) as [[b1 [us|e]] w1] eqn:Hopen;
    cbn [fst snd] in *; [|exact A].
  destruct (OpenUploadStreamWithID_Ok _ _ _ _ _ _ _ _ Hopen)
    as (Hst & Hid & _ & _ & _ & Hbuf).
  destruct (SetWriteDeadline_Open us (writeDeadline b1) Hst) as (us1 & -> & _ & (Sid & _)).
  cbv zeta. cbn [snd]. eapply adds_trans; [exact A|].
  pose proof (uploadLoop_adds source b1 us1 w1) as L.
  rewrite Sid, Hid, Hbuf in L. exact L.
Qed.

(** ** Uploads under a fresh id *)

(** X24: the id [UploadFromStream] returns is the id of the file it
    stored.  When [UploadFromStream] returns no error, the files
    collection of the bucket holds a metadata document whose "_id" is
    the returned id and whose "filename" is the given name.  The stream
    [OpenUploadStream] returns is open and is for the given name and the
    id generated for the call. *)
Theorem UploadFromStream_returned_id :
  forall (b : Bucket) (filename : string) (source : Reader)
         (opts : list (option UploadOptions)) (w : World),
    (let out := UploadFromStream b filename source opts w in
     let fileID := snd (fst (fst out)) in
     snd (fst out) = None ->
     exists d,
       In d (docs (getColl (coll_name (filesColl b)) (snd out)))
       /\ Lookup "_id" d = Some fileID
       /\ Lookup "filename" d = Some (VString filename))
    /\ (forall us,
          snd (fst (OpenUploadStream b filename opts w)) = Ok us ->
          FileID us = fst (NewObjectID w) /\ us_filename us = filename
          /\ us_state us = Open).
Proof.
  intros b filename source opts w. split.
  - cbv zeta. unfold UploadFromStream. rewrite bind_run.
    set (fileID := fst (NewObjectID w)). set (w0 := snd (NewObjectID w)).
    rewrite bind_run, UploadFromStreamWithID_run. cbv zeta. cbn [fst snd].
    rewrite UploadFromStreamWithID_stream_run.
    destruct (OpenUploadStreamWithID b fileID filename opts w0) as [[b1 [us|e]] w1] eqn:Ho;
      [|cbn; discriminate].
    destruct (OpenUploadStreamWithID_Ok _ _ _ _ _ _ _ _ Ho)
      as (Hst & Hid & Hname & _ & Hfiles & _).
    destruct (SetWriteDeadline_Open us (writeDeadline b1) Hst)
      as (us1 & -> & _ & (Sid & Sname & _ & Sfiles & _)).
    cbv zeta. cbn [fst snd].
    pose proof (uploadLoop_success source b1 us1 w1) as L. cbv zeta in L.
    destruct (uploadLoop b1 us1 source w1) as [[[[b2 us2] left] err] w2].
    unfold ret. cbn [fst snd] in *. intros ->.
    destruct (L eq_refl) as (_ & _ & _ & d & _ & Hin & Hd & Hn).
    exists d. rewrite Sfiles, Hfiles in Hin. rewrite Sid, Hid in Hd.
    rewrite Sname, Hname in Hn. auto.
  - intros us. unfold OpenUploadStream. rewrite bind_run.
    destruct (OpenUploadStreamWithID b (fst (NewObjectID w)) filename opts
                (snd (NewObjectID w))) as [[b1 r] w1] eqn:Ho.
    cbn [fst snd]. intros ->.
    destruct (OpenUploadStreamWithID_Ok _ _ _ _ _ _ _ _ Ho) as (Hst & Hid & Hname & _).
    auto.
Qed.

Lemma UploadFromStream_returned_id_witness :
  let out := UploadFromStream Example.bucket "n.txt" [mkReadResult [x61] None] []
               (Example.world []) in
  exists d,
    In d (docs (getColl "fs.files" (snd out)))
    /\ Lookup "_id" d = Some (snd (fst (fst out)))
    /\ Lookup "filename" d = Some (VString "n.txt").
Proof.
  destruct (UploadFromStream_returned_id Example.bucket "n.txt"
              [mkReadResult [x61] None] [] (Example.world [])) as [H _].
  apply H. vm_compute. reflexivity.
Defined.
